(** * Point-of-sale backend: invoices, stock and ownership

    A shallow embedding of the invoice path of the backend
    ([app/services/invoice_service.py], [app/services/product_service.py],
    [app/routes/invoice.py] and the helpers under [app/utils]) together with
    the properties its specification states about it.

    Conventions.
    - Python [int] is [Z]; Python [float] is the primitive binary64 [float];
      [Optional[T]] is [option T]; a [dict] with string keys is a [gmap].
    - An exception is a value of [exn]; a function that can raise returns a
      [result].
    - A function that receives the SQLAlchemy [session] is a computation in
      the monad [M], which threads a [Session]. *)

From Stdlib Require Import ZArith String Ascii List Floats DecimalString Lia.
From stdpp Require Import gmap strings list.

Import ListNotations.
Local Open Scope string_scope.
Local Open Scope Z_scope.

(* ===================================================================== *)
(** ** Python values *)
(* ===================================================================== *)

(** [str(n)] for an [int]. *)
Definition str_int (n : Z) : string := NilZero.string_of_int (Z.to_int n).

(** [bool(x)] for a [float]: every value but the two zeros is truthy (a NaN
    is truthy too). *)
Definition float_truthy (x : float) : bool := negb (PrimFloat.eqb x 0%float).

(** [bool(s)] for a [str]. *)
Definition str_truthy (s : string) : bool :=
  match s with EmptyString => false | _ => true end.

(** [s.capitalize()] on ASCII text: first character upper-cased, the others
    lower-cased. *)
Definition ascii_upper (c : ascii) : ascii :=
  let n := nat_of_ascii c in
  if ((97 <=? n) && (n <=? 122))%nat then ascii_of_nat (n - 32) else c.

Definition ascii_lower (c : ascii) : ascii :=
  let n := nat_of_ascii c in
  if ((65 <=? n) && (n <=? 90))%nat then ascii_of_nat (n + 32) else c.

Fixpoint str_lower (s : string) : string :=
  match s with
  | EmptyString => EmptyString
  | String c r => String (ascii_lower c) (str_lower r)
  end.

Definition capitalize (s : string) : string :=
  match s with
  | EmptyString => EmptyString
  | String c r => String (ascii_upper c) (str_lower r)
  end.

(** Exceptions.  [HTTPException] is FastAPI's; the others are the built-in
    exceptions and the database driver's errors that the modelled code can meet. *)
Inductive exn : Type :=
| HTTPException (status_code : Z) (detail : string)
| OverflowError (msg : string)
| TypeError (msg : string)
| IntegrityError (msg : string)
| InvalidRequestError (msg : string).

Inductive result (A : Type) : Type :=
| Ok (a : A)
| Raise (e : exn).
Arguments Ok {A} a.
Arguments Raise {A} e.

(** Two pure steps in a row: the second runs when the first returns. *)
Definition and_then {A B : Type} (r : result A) (k : A -> result B) : result B :=
  match r with
  | Ok a => k a
  | Raise e => Raise e
  end.

Definition HTTP_400_BAD_REQUEST : Z := 400.
Definition HTTP_403_FORBIDDEN : Z := 403.
Definition HTTP_404_NOT_FOUND : Z := 404.
Definition HTTP_500_INTERNAL_SERVER_ERROR : Z := 500.

(** [float(n)] as the interpreter computes it when a [float] meets an [int]
    in arithmetic: round to nearest, ties to even, and [OverflowError] when
    the rounded value is not finite, that is from [2^1024 - 2^970] on (half
    an ulp above the largest finite double). *)
Definition DBL_OVERFLOW : Z := 2 ^ 1024 - 2 ^ 970.

Definition float_of_int (n : Z) : result float :=
  if DBL_OVERFLOW <=? Z.abs n
  then Raise (OverflowError "int too large to convert to float")
  else Ok (SF2Prim (binary_normalize prec emax n 0 false)).

(** A number: an [int] or a [float]. *)
Inductive number : Type :=
| Int (n : Z)
| Float (x : float).

(** [v < 0]. *)
Definition number_ltb_0 (v : number) : bool :=
  match v with
  | Int n => n <? 0
  | Float x => PrimFloat.ltb x 0%float
  end.

(** [x * n] with [x] a [float] and [n] an [int]. *)
Definition float_mul_int (x : float) (n : Z) : result float :=
  match float_of_int n with
  | Ok y => Ok (x * y)%float
  | Raise e => Raise e
  end.

(** A [datetime]: the wall-clock fields as microseconds from the epoch,
    and the UTC offset of an aware value ([None] for a naive one). *)
Record datetime : Type := mk_datetime {
  wall : Z;
  utcoffset : option Z
}.

(** [a > b] on datetimes: mixing a naive and an aware value raises. *)
Definition datetime_gt (a b : datetime) : result bool :=
  match utcoffset a, utcoffset b with
  | None, None => Ok (wall b <? wall a)
  | Some oa, Some ob => Ok (wall b - ob <? wall a - oa)
  | _, _ => Raise (TypeError "can't compare offset-naive and offset-aware datetimes")
  end.

(** A [date]; comparison is lexicographic on year, month, day. *)
Record date : Type := mk_date {
  year : Z;
  month : Z;
  day : Z
}.

Definition date_gt (a b : date) : bool :=
  (year b <? year a)
  || ((year a =? year b) && ((month b <? month a)
      || ((month a =? month b) && (day b <? day a)))).

(** [v <= 0]. *)
Definition number_leb_0 (v : number) : bool :=
  match v with
  | Int n => n <=? 0
  | Float x => PrimFloat.leb x 0%float
  end.

(** [len(s)]; a string holds one character per code point (code points
    below 256). *)
Definition len (s : string) : Z := Z.of_nat (String.length s).

(** [sep.join(parts)]. *)
Fixpoint str_join (sep : string) (parts : list string) : string :=
  match parts with
  | [] => ""
  | p :: rest =>
    match rest with
    | [] => p
    | _ :: _ => p +:+ sep +:+ str_join sep rest
    end
  end.

(** [value in values] for strings. *)
Definition str_in (value : string) (values : list string) : bool :=
  existsb (String.eqb value) values.

(** The day a datetime falls on, [dt.date()], as a count of days from the
    epoch: the wall-clock fields decide, the offset plays no part. *)
Definition MICROSECONDS_PER_DAY : Z := 86400000000.

Definition datetime_date (dt : datetime) : Z := wall dt / MICROSECONDS_PER_DAY.

(** [c.isspace()] for a code point below 256: tab to carriage return, the
    four separators before the space, the space, NEL and the no-break
    space. *)
Definition isspace (c : ascii) : bool :=
  let n := nat_of_ascii c in
  (((9 <=? n) && (n <=? 13)) || ((28 <=? n) && (n <=? 32))
   || (n =? 133) || (n =? 160))%nat.

(** [s.lstrip()], [s.rstrip()] and [s.strip()]. *)
Fixpoint str_lstrip (s : string) : string :=
  match s with
  | EmptyString => EmptyString
  | String c rest => if isspace c then str_lstrip rest else s
  end.

Fixpoint str_rstrip (s : string) : string :=
  match s with
  | EmptyString => EmptyString
  | String c rest =>
    match str_rstrip rest with
    | EmptyString => if isspace c then EmptyString else String c EmptyString
    | kept => String c kept
    end
  end.

Definition str_strip (s : string) : string := str_rstrip (str_lstrip s).

(** *** Regular expressions

    The patterns of the validators are sequences of character classes, each
    with a repetition count, between [^] and [$].  Such a pattern is the list
    of its items; [re_match] says whether [re.match(pattern, s)] finds a
    match.  The classes here are those a pattern spells out character by
    character, such as [[a-zA-Z0-9.-]]. *)
Record re_item : Type := mk_re_item {
  re_class : ascii -> bool;
  re_min : nat;
  re_max : option nat
}.

(** [$]: at the end of the string, or before a newline that ends it. *)
Definition re_dollar (s : string) : bool :=
  match s with
  | EmptyString => true
  | String c EmptyString => Ascii.eqb c "010"%char
  | _ => false
  end.

(** One item followed by the rest of the pattern [k]: some number of
    characters of the class, within the bounds, and then [k]. *)
Fixpoint re_repeat (cls : ascii -> bool) (k : string -> bool) (lo : nat)
  (hi : option nat) (s : string) : bool :=
  match s with
  | EmptyString => (lo =? 0)%nat && k EmptyString
  | String c rest =>
    ((lo =? 0)%nat && k s)
    || (cls c && negb (bool_decide (hi = Some 0%nat))
        && re_repeat cls k (Nat.pred lo) (Nat.pred <$> hi) rest)
  end.

Fixpoint re_match (pattern : list re_item) (s : string) : bool :=
  match pattern with
  | [] => re_dollar s
  | item :: rest =>
    re_repeat (re_class item) (re_match rest) (re_min item) (re_max item) s
  end.

Definition between (lo hi c : ascii) : bool :=
  ((nat_of_ascii lo <=? nat_of_ascii c) && (nat_of_ascii c <=? nat_of_ascii hi))%nat.

(** [[0-9]], [[a-zA-Z]], a literal character, and a set of characters. *)
Definition re_digit (c : ascii) : bool := between "0" "9" c.

Definition re_alpha (c : ascii) : bool := between "a" "z" c || between "A" "Z" c.

Definition re_one_of (chars : string) (c : ascii) : bool :=
  existsb (Ascii.eqb c) (list_ascii_of_string chars).

Definition re_times (n : nat) (cls : ascii -> bool) : re_item :=
  mk_re_item cls n (Some n).

Definition re_plus (cls : ascii -> bool) : re_item := mk_re_item cls 1 None.

Definition re_at_least (n : nat) (cls : ascii -> bool) : re_item :=
  mk_re_item cls n None.

(** *** Patterns over code points

    [\d] in a [str] pattern is not [[0-9]]: it matches every character the
    interpreter's Unicode database classes as a decimal digit, in any
    script.  For a pattern that uses it the text is the list of its code
    points and a class is a function on code points. *)
Definition ord (c : ascii) : Z := Z.of_nat (nat_of_ascii c).

Definition codepoints (s : string) : list Z := map ord (list_ascii_of_string s).

Record re_unit : Type := mk_re_unit {
  unit_class : Z -> bool;
  unit_min : nat;
  unit_max : option nat
}.

(** [$]: at the end of the text, or before a line feed that ends it. *)
Definition re_dollar_text (s : list Z) : bool :=
  match s with
  | [] => true
  | [c] => c =? 10
  | _ => false
  end.

Fixpoint re_repeat_text (cls : Z -> bool) (k : list Z -> bool) (lo : nat)
  (hi : option nat) (s : list Z) : bool :=
  match s with
  | [] => (lo =? 0)%nat && k []
  | c :: rest =>
    ((lo =? 0)%nat && k s)
    || (cls c && negb (bool_decide (hi = Some 0%nat))
        && re_repeat_text cls k (Nat.pred lo) (Nat.pred <$> hi) rest)
  end.

Fixpoint re_match_text (pattern : list re_unit) (s : list Z) : bool :=
  match pattern with
  | [] => re_dollar_text s
  | item :: rest =>
    re_repeat_text (unit_class item) (re_match_text rest) (unit_min item)
      (unit_max item) s
  end.

Definition re_times_text (n : nat) (cls : Z -> bool) : re_unit :=
  mk_re_unit cls n (Some n).

(* ===================================================================== *)
(** ** Models ([app/models]) and request schemas ([app/schemas]) *)
(* ===================================================================== *)

Inductive UserRole : Type := USER | ADMIN.
Inductive UserStatus : Type := ACTIVE | SUSPENDED | BANNED.

Definition UserRole_eqb (a b : UserRole) : bool :=
  match a, b with
  | USER, USER | ADMIN, ADMIN => true
  | _, _ => false
  end.

(** [id] is declared [Optional[int]] on every model: it is [None] on an
    object built in Python until its INSERT.  Users and products reach the
    modelled functions from the database only, so their [id] is the stored
    primary key; invoices and invoice items are built by [create_invoice]. *)
Module User.
Record t : Type := mk {
  id : Z;
  username : string;
  password : string;
  role : UserRole;
  email : option string;
  phone : option string;
  shop_type : string;
  location : option string;
  status : UserStatus;
  created_at : datetime
}.
End User.

Module Product.
Record t : Type := mk {
  id : Z;
  user_id : Z;
  name : string;
  barcode : string;
  category : option string;
  quantity : Z;
  price : float;
  threshold : Z;
  description : option string;
  created_at : datetime
}.
End Product.

Module Invoice.
Record t : Type := mk {
  id : option Z;
  user_id : Z;
  customer_name : option string;
  total_price : float;
  created_at : datetime
}.
End Invoice.

Module InvoiceItem.
Record t : Type := mk {
  id : option Z;
  invoice_id : Z;
  product_id : Z;
  quantity : Z;
  unit_price : float
}.
End InvoiceItem.

(** [InvoiceItemCreate].  The schema declares [unit_price] as a required
    [float]; [create_invoice] nevertheless guards its use with [hasattr], so the
    field is optional here and [None] stands for an item without the
    attribute. *)
Module InvoiceItemCreate.
Record t : Type := mk {
  product_id : Z;
  quantity : Z;
  unit_price : option float
}.
End InvoiceItemCreate.

Module InvoiceCreate.
Record t : Type := mk {
  customer_name : option string;
  items : list InvoiceItemCreate.t
}.
End InvoiceCreate.

(** [ProductUpdate] after [.dict(exclude_unset=True)]: per field, [None] when
    the key is not in the dictionary, [Some None] for an explicit null and
    [Some (Some v)] for a value. *)
Module ProductUpdate.
Record t : Type := mk {
  name : option (option string);
  barcode : option (option string);
  category : option (option string);
  quantity : option (option Z);
  price : option (option float);
  threshold : option (option Z);
  description : option (option string)
}.
End ProductUpdate.

(* ===================================================================== *)
(** ** The database and the SQLAlchemy session *)
(* ===================================================================== *)

(** The committed contents of the database: the three tables the invoice
    path touches and the sequences behind the two serial primary keys
    (each holds the last value handed out). *)
Record Database : Type := mk_Database {
  products : list Product.t;
  invoices : list Invoice.t;
  invoice_items : list InvoiceItem.t;
  invoices_id_seq : Z;
  invoice_items_id_seq : Z
}.

(** A [Product] object held by a session: its columns as they were loaded
    and as they are now.  A flush writes the columns that differ. *)
Record Instance : Type := mk_Instance {
  loaded : Product.t;
  current : Product.t
}.

(** A session: the database it is bound to, its identity map (one object
    per primary key), the invoices INSERTed in the open transaction, the
    invoice items passed to [session.add] and not yet flushed, and the number
    of statements run through [session.exec]. *)
Record Session : Type := mk_Session {
  database : Database;
  identity_map : gmap Z Instance;
  flushed : list Invoice.t;
  new : list InvoiceItem.t;
  executed : nat
}.

(** [SessionLocal()]: what [get_session] hands to a request. *)
Definition SessionLocal (db : Database) : Session :=
  {| database := db; identity_map := ∅; flushed := []; new := [];
     executed := 0 |}.

(** Computations that use a session and may raise. *)
Definition M (A : Type) : Type := Session -> result A * Session.

Definition ret {A : Type} (a : A) : M A := fun s => (Ok a, s).

Definition raise {A : Type} (e : exn) : M A := fun s => (Raise e, s).

Definition Mbind {A B : Type} (m : M A) (k : A -> M B) : M B :=
  fun s =>
    match m s with
    | (Ok a, s') => k a s'
    | (Raise e, s') => (Raise e, s')
    end.

(** [try: m except: h]. *)
Definition try_except {A : Type} (m : M A) (h : exn -> M A) : M A :=
  fun s =>
    match m s with
    | (Ok a, s') => (Ok a, s')
    | (Raise e, s') => h e s'
    end.

(** A pure step that may raise. *)
Definition lift {A : Type} (r : result A) : M A := fun s => (r, s).

Declare Scope M_scope.
Delimit Scope M_scope with M.
Notation "x <- c1 ;; c2" := (Mbind c1 (fun x => c2))
  (at level 100, c1 at next level, right associativity) : M_scope.
Notation "c1 ;; c2" := (Mbind c1 (fun _ => c2))
  (at level 100, right associativity) : M_scope.
Local Open Scope M_scope.

Definition count_exec (s : Session) : Session :=
  {| database := database s; identity_map := identity_map s;
     flushed := flushed s; new := new s; executed := S (executed s) |}.

Definition set_identity_map (im : gmap Z Instance) (s : Session) : Session :=
  {| database := database s; identity_map := im;
     flushed := flushed s; new := new s; executed := executed s |}.

(** [session.exec(statement)] for a read-only statement: the statement is
    evaluated on the committed rows and counted.  (No modelled function
    reads between a flush and the commit that follows it, so a session never
    has writes of its own to see.) *)
Definition session_exec {A : Type} (statement : Database -> A) : M A :=
  fun s => (Ok (statement (database s)), count_exec s).

(** The object for a [Product] row a query returned: the one already in the
    identity map when there is one (its attributes are not overwritten),
    otherwise a new one built from the row. *)
Definition instance_for (row : Product.t) : M Product.t :=
  fun s =>
    match identity_map s !! Product.id row with
    | Some inst => (Ok (current inst), s)
    | None =>
      (Ok row,
       set_identity_map
         (<[Product.id row := {| loaded := row; current := row |}]>
            (identity_map s)) s)
    end.

Definition next_val (seq : Z) : Z := seq + 1.

Definition set_database (db : Database) (s : Session) : Session :=
  {| database := db; identity_map := identity_map s;
     flushed := flushed s; new := new s; executed := executed s |}.

Definition set_invoices_id_seq (seq : Z) (db : Database) : Database :=
  {| products := products db; invoices := invoices db;
     invoice_items := invoice_items db; invoices_id_seq := seq;
     invoice_items_id_seq := invoice_items_id_seq db |}.

Definition set_invoice_items_id_seq (seq : Z) (db : Database) : Database :=
  {| products := products db; invoices := invoices db;
     invoice_items := invoice_items db;
     invoices_id_seq := invoices_id_seq db;
     invoice_items_id_seq := seq |}.

Definition invoice_key_taken (key : Z) (rows : list Invoice.t) : bool :=
  existsb (fun i => bool_decide (Invoice.id i = Some key)) rows.

Definition item_key_taken (key : Z) (rows : list InvoiceItem.t) : bool :=
  existsb (fun i => bool_decide (InvoiceItem.id i = Some key)) rows.

(** [session.add(obj); session.flush()] for a new [Invoice]: the INSERT runs
    in the open transaction and the object comes back with its primary key,
    the next value of the sequence (a sequence advances outside the
    transaction).  The INSERT fails when the key is already in the table. *)
Definition session_add_flush (obj : Invoice.t) : M Invoice.t :=
  fun s =>
    let db := database s in
    let key := next_val (invoices_id_seq db) in
    let row := Invoice.mk (Some key) (Invoice.user_id obj)
                 (Invoice.customer_name obj) (Invoice.total_price obj)
                 (Invoice.created_at obj) in
    let s' := set_database (set_invoices_id_seq key db) s in
    if invoice_key_taken key (invoices db ++ flushed s)
    then (Raise (IntegrityError "duplicate key value violates unique constraint"), s')
    else
      (Ok row,
       {| database := database s'; identity_map := identity_map s';
          flushed := flushed s' ++ [row]; new := new s';
          executed := executed s' |}).

(** [session.add(obj)] for a new [InvoiceItem]. *)
Definition session_add (obj : InvoiceItem.t) : M unit :=
  fun s =>
    (Ok tt,
     {| database := database s; identity_map := identity_map s;
        flushed := flushed s; new := new s ++ [obj];
        executed := executed s |}).

(** Assignment to [quantity] on the [Product] object held under [key]. *)
Definition set_quantity (q : Z) (p : Product.t) : Product.t :=
  Product.mk (Product.id p) (Product.user_id p) (Product.name p)
    (Product.barcode p) (Product.category p) q (Product.price p)
    (Product.threshold p) (Product.description p) (Product.created_at p).

Definition sub_quantity (n : Z) (inst : Instance) : Instance :=
  {| loaded := loaded inst;
     current := set_quantity (Product.quantity (current inst) - n) (current inst) |}.

Definition product_quantity_isub (key : Z) (n : Z) : M unit :=
  fun s => (Ok tt, set_identity_map (alter (sub_quantity n) key (identity_map s)) s).

(** The UPDATE a flush issues for one object, applied to the row it
    addresses: each column whose value changed since the load is written. *)
Definition write_changes (inst : Instance) (row : Product.t) : Product.t :=
  let old := loaded inst in
  let cur := current inst in
  Product.mk (Product.id row) (Product.user_id row)
    (if bool_decide (Product.name old = Product.name cur)
     then Product.name row else Product.name cur)
    (if bool_decide (Product.barcode old = Product.barcode cur)
     then Product.barcode row else Product.barcode cur)
    (if bool_decide (Product.category old = Product.category cur)
     then Product.category row else Product.category cur)
    (if bool_decide (Product.quantity old = Product.quantity cur)
     then Product.quantity row else Product.quantity cur)
    (if PrimFloat.eqb (Product.price old) (Product.price cur)
     then Product.price row else Product.price cur)
    (if bool_decide (Product.threshold old = Product.threshold cur)
     then Product.threshold row else Product.threshold cur)
    (if bool_decide (Product.description old = Product.description cur)
     then Product.description row else Product.description cur)
    (Product.created_at row).

Definition flush_row (im : gmap Z Instance) (row : Product.t) : Product.t :=
  match im !! Product.id row with
  | Some inst => write_changes inst row
  | None => row
  end.

(** The INSERTs of the pending invoice items into [table]: each takes the
    next value of the sequence as its primary key and fails when that key is
    in the table already.  The sequence keeps the values it handed out. *)
Fixpoint insert_items (objs : list InvoiceItem.t)
  (table : list InvoiceItem.t) (seq : Z) : result (list InvoiceItem.t) * Z :=
  match objs with
  | [] => (Ok table, seq)
  | obj :: rest =>
    let key := next_val seq in
    if item_key_taken key table
    then (Raise (IntegrityError "duplicate key value violates unique constraint"), key)
    else
      insert_items rest
        (table ++ [InvoiceItem.mk (Some key) (InvoiceItem.invoice_id obj)
                     (InvoiceItem.product_id obj) (InvoiceItem.quantity obj)
                     (InvoiceItem.unit_price obj)])
        key
  end.

(** [session.commit()]: flush what is pending, make the transaction's
    writes part of the database, expire every object.  When an INSERT of the
    flush fails the exception propagates and nothing is committed. *)
Definition session_commit : M unit :=
  fun s =>
    let db := database s in
    match insert_items (new s) (invoice_items db) (invoice_items_id_seq db) with
    | (Raise e, seq) =>
      (Raise e, set_database (set_invoice_items_id_seq seq db) s)
    | (Ok table, seq) =>
      (Ok tt,
       {| database := {| products := map (flush_row (identity_map s)) (products db);
                         invoices := invoices db ++ flushed s;
                         invoice_items := table;
                         invoices_id_seq := invoices_id_seq db;
                         invoice_items_id_seq := seq |};
          identity_map := ∅; flushed := []; new := [];
          executed := executed s |})
    end.

(** [session.rollback()]: the transaction's writes and pending objects are
    dropped and every object is expired. *)
Definition session_rollback : M unit :=
  fun s =>
    (Ok tt,
     {| database := database s; identity_map := ∅; flushed := []; new := [];
        executed := executed s |}).

(** [session.refresh(obj)] on an invoice: its row is read again by primary
    key. *)
Definition session_refresh (obj : Invoice.t) : M Invoice.t :=
  fun s =>
    match List.find (fun i => bool_decide (Invoice.id i = Invoice.id obj))
            (invoices (database s)) with
    | Some row => (Ok row, s)
    | None => (Raise (InvalidRequestError "Could not refresh instance"), s)
    end.

(** [session.refresh(obj)] on a product: its row is read again by primary
    key. *)
Definition session_refresh_product (key : Z) : M Product.t :=
  fun s =>
    match List.find (fun p => Product.id p =? key) (products (database s)) with
    | Some row => instance_for row s
    | None => (Raise (InvalidRequestError "Could not refresh instance"), s)
    end.

(** The objects for the [Product] rows a query returned ([.all()]), in the
    order of the rows. *)
Fixpoint instances_for (rows : list Product.t) : M (list Product.t) :=
  match rows with
  | [] => ret []
  | row :: rest =>
    obj <- instance_for row ;;
    objs <- instances_for rest ;;
    ret (obj :: objs)
  end.

(** [invoice_items.product_id] is declared with [foreign_key="products.id"]
    and no [ondelete]: the engine refuses to delete a product row that an
    invoice item refers to. *)
Definition referenced (key : Z) (table : list InvoiceItem.t) : bool :=
  existsb (fun i => InvoiceItem.product_id i =? key) table.

(** [session.delete(obj); session.commit()] for the product the session
    holds under [key].  The flush of the commit runs its INSERTs and UPDATEs
    and then the DELETE; when a statement fails the exception propagates and
    nothing is committed. *)
Definition session_delete_commit (key : Z) : M unit :=
  fun s =>
    let db := database s in
    match insert_items (new s) (invoice_items db) (invoice_items_id_seq db) with
    | (Raise e, seq) =>
      (Raise e, set_database (set_invoice_items_id_seq seq db) s)
    | (Ok table, seq) =>
      if referenced key table
      then
        (Raise (IntegrityError "update or delete on table violates foreign key constraint"),
         set_database (set_invoice_items_id_seq seq db) s)
      else
        (Ok tt,
         {| database :=
              {| products :=
                   List.filter (fun p => negb (Product.id p =? key))
                     (map (flush_row (identity_map s)) (products db));
                 invoices := invoices db ++ flushed s;
                 invoice_items := table;
                 invoices_id_seq := invoices_id_seq db;
                 invoice_items_id_seq := seq |};
            identity_map := ∅; flushed := []; new := [];
            executed := executed s |})
    end.

(* ===================================================================== *)
(** ** [app/utils/auth_utils.py] *)
(* ===================================================================== *)

(** A resource whose owner can be asked for, as
    [getattr(resource, "user_id", None)] does.  (No caller passes another
    [user_id_field].) *)
Class Resource (R : Type) : Type := getattr_user_id : R -> option Z.

#[export] Instance Product_Resource : Resource Product.t :=
  fun p => Some (Product.user_id p).

#[export] Instance Invoice_Resource : Resource Invoice.t :=
  fun i => Some (Invoice.user_id i).

Module auth_utils.

Definition check_ownership_or_admin
  (current_user : User.t) (resource_user_id : Z) (resource_name : string)
  : result unit :=
  if negb (UserRole_eqb (User.role current_user) ADMIN)
     && negb (User.id current_user =? resource_user_id)
  then Raise (HTTPException HTTP_403_FORBIDDEN
                ("Not authorized to access this " +:+ resource_name))
  else Ok tt.

Definition check_admin_access (current_user : User.t) (action : string)
  : result unit :=
  if negb (UserRole_eqb (User.role current_user) ADMIN)
  then Raise (HTTPException HTTP_403_FORBIDDEN
                ("Admin access required to " +:+ action))
  else Ok tt.

Definition check_resource_ownership {R : Type} `{Resource R}
  (current_user : User.t) (resource : option R) (resource_name : string)
  : result R :=
  match resource with
  | None =>
    Raise (HTTPException HTTP_404_NOT_FOUND
             (capitalize resource_name +:+ " not found"))
  | Some r =>
    match getattr_user_id r with
    | None =>
      Raise (HTTPException HTTP_500_INTERNAL_SERVER_ERROR
               "Resource ownership validation failed")
    | Some resource_user_id =>
      match check_ownership_or_admin current_user resource_user_id
              resource_name with
      | Raise e => Raise e
      | Ok _ => Ok r
      end
    end
  end.

Definition is_admin (user : User.t) : bool :=
  UserRole_eqb (User.role user) ADMIN.

Definition is_owner_or_admin (user : User.t) (resource_user_id : Z) : bool :=
  UserRole_eqb (User.role user) ADMIN || (User.id user =? resource_user_id).

End auth_utils.

(* ===================================================================== *)
(** ** [app/utils/validation_utils.py] *)
(* ===================================================================== *)

Module validation_utils.

Definition validate_non_negative_number (value : option number)
  (field_name : string) : result unit :=
  match value with
  | Some v =>
    if number_ltb_0 v
    then Raise (HTTPException HTTP_400_BAD_REQUEST
                  (field_name +:+ " must be greater than or equal to 0"))
    else Ok tt
  | None => Ok tt
  end.

Definition validate_pagination_params (skip limit : Z) : result unit :=
  if skip <? 0
  then Raise (HTTPException HTTP_400_BAD_REQUEST
                "Skip parameter must be non-negative")
  else if (limit <=? 0) || (1000 <? limit)
  then Raise (HTTPException HTTP_400_BAD_REQUEST
                "Limit parameter must be between 1 and 1000")
  else Ok tt.


Definition validate_positive_number (value : option number)
  (field_name : string) : result unit :=
  match value with
  | Some v =>
    if number_leb_0 v
    then Raise (HTTPException HTTP_400_BAD_REQUEST
                  (field_name +:+ " must be greater than 0"))
    else Ok tt
  | None => Ok tt
  end.

(** The values the callers pass are strings ([status], and the [.value]s of
    an enumeration). *)
Definition validate_enum_value (value : option string)
  (valid_values : list string) (field_name : string) : result unit :=
  match value with
  | Some v =>
    if negb (str_in v valid_values)
    then Raise (HTTPException HTTP_400_BAD_REQUEST
                  ("Invalid " +:+ field_name +:+ ". Must be one of: "
                   +:+ str_join ", " valid_values))
    else Ok tt
  | None => Ok tt
  end.

Definition validate_string_length (value : option string) (field_name : string)
  (min_length max_length : option Z) : result unit :=
  match value with
  | None => Ok tt
  | Some value =>
    and_then
      match min_length with
      | Some n =>
        if len value <? n
        then Raise (HTTPException HTTP_400_BAD_REQUEST
                      (field_name +:+ " must be at least " +:+ str_int n
                       +:+ " characters long"))
        else Ok tt
      | None => Ok tt
      end
      (fun _ =>
         match max_length with
         | Some n =>
           if n <? len value
           then Raise (HTTPException HTTP_400_BAD_REQUEST
                         (field_name +:+ " must be no more than " +:+ str_int n
                          +:+ " characters long"))
           else Ok tt
         | None => Ok tt
         end)
  end.

(** [value] is annotated [Any]: a string ([inl]) or something else
    ([inr]). *)
Definition validate_required_field {A : Type} (value : option (string + A))
  (field_name : string) : result unit :=
  match value with
  | None =>
    Raise (HTTPException HTTP_400_BAD_REQUEST (field_name +:+ " is required"))
  | Some (inl s) =>
    if negb (str_truthy (str_strip s))
    then Raise (HTTPException HTTP_400_BAD_REQUEST
                  (field_name +:+ " is required"))
    else Ok tt
  | Some (inr _) => Ok tt
  end.

Section with_unicode.

(** Whether the interpreter's Unicode database classes a code point as a
    decimal digit ([str.isdecimal] on one character): what [\d] matches. *)
Variable isdecimal : Z -> bool.

(** [r"^05\d{8}$"]. *)
Definition phone_pattern : list re_unit :=
  [re_times_text 1 (Z.eqb (ord "0")); re_times_text 1 (Z.eqb (ord "5"));
   re_times_text 8 isdecimal].

Definition validate_phone_number (phone : option (list Z)) : result unit :=
  match phone with
  | None => Ok tt
  | Some phone =>
    if negb (re_match_text phone_pattern phone)
    then Raise (HTTPException HTTP_400_BAD_REQUEST
                  "Phone number must be in format 05xxxxxxxx")
    else Ok tt
  end.

End with_unicode.

(** [r"^[a-zA-Z0-9._%+-]+@[a-zA-Z0-9.-]+\.[a-zA-Z]{2,}$"]. *)
Definition email_pattern : list re_item :=
  [re_plus (fun c => re_alpha c || re_digit c || re_one_of "._%+-" c);
   re_times 1 (Ascii.eqb "@");
   re_plus (fun c => re_alpha c || re_digit c || re_one_of ".-" c);
   re_times 1 (Ascii.eqb ".");
   re_at_least 2 re_alpha].

Definition validate_email_format (email : option string) : result unit :=
  match email with
  | None => Ok tt
  | Some email =>
    if negb (re_match email_pattern email)
    then Raise (HTTPException HTTP_400_BAD_REQUEST "Invalid email format")
    else Ok tt
  end.

End validation_utils.

(* ===================================================================== *)
(** ** Filter values, and what lies outside the repository *)
(* ===================================================================== *)

(** A value stored in a filter dictionary ([Dict[str, Any]]): [None], or
    one of the strings, floats and dates the route puts there. *)
Inductive value : Type :=
| VNone
| VStr (s : string)
| VFloat (x : float)
| VDate (d : date).

Definition value_truthy (v : value) : bool :=
  match v with
  | VNone => false
  | VStr s => str_truthy s
  | VFloat x => float_truthy x
  | VDate _ => true
  end.

(** Library and engine primitives the code calls and the repository does not
    define. *)
Class Externals : Type := {
  (** [datetime.fromisoformat(s)]; [None] is a [ValueError], which the empty
      string always gets. *)
  fromisoformat : string -> option datetime;
  fromisoformat_empty : fromisoformat "" = None;
  (** [str(x)] for a float. *)
  float_str : float -> string;
  (** [text ILIKE pattern] as the engine evaluates it. *)
  ilike : string -> string -> bool;
  (** [column >= parameter] and [column <= parameter] for the double
      precision column [total_price] and a bound parameter. *)
  float8_ge : float -> value -> bool;
  float8_le : float -> value -> bool
}.

Definition pad2 (n : Z) : string :=
  if n <? 10 then "0" +:+ str_int n else str_int n.

Definition pad4 (n : Z) : string :=
  if n <? 10 then "000" +:+ str_int n
  else if n <? 100 then "00" +:+ str_int n
  else if n <? 1000 then "0" +:+ str_int n
  else str_int n.

(** [str(d)] for a [date]. *)
Definition date_str (d : date) : string :=
  pad4 (year d) +:+ "-" +:+ pad2 (month d) +:+ "-" +:+ pad2 (day d).

(** [f"{v}"]. *)
Definition format_value `{Externals} (v : value) : string :=
  match v with
  | VNone => "None"
  | VStr s => s
  | VFloat x => float_str x
  | VDate d => date_str d
  end.

(* ===================================================================== *)
(** ** [app/utils/datetime.py] *)
(* ===================================================================== *)

Module datetime_utils.
Section with_externals.
Context `{Externals}.

(** The argument is annotated [Optional[str]]; the route passes what it
    has, so a dictionary value is accepted here.  A value that is not a
    string makes [datetime.fromisoformat] raise [TypeError]. *)
Definition parse_date_string (date_string : option value) (field_name : string)
  : result (option datetime) :=
  match date_string with
  | None => Ok None
  | Some v =>
    if negb (value_truthy v) then Ok None
    else
      match v with
      | VStr s =>
        match fromisoformat s with
        | Some dt => Ok (Some dt)
        | None =>
          Raise (HTTPException HTTP_400_BAD_REQUEST
                   ("Invalid " +:+ field_name
                    +:+ " format. Use ISO format (YYYY-MM-DDTHH:MM:SS)"))
        end
      | _ => Raise (TypeError "fromisoformat: argument must be str")
      end
  end.

Definition get_date_range_filter (start_date end_date : option value)
  : result (option datetime * option datetime) :=
  match parse_date_string start_date "start_date" with
  | Raise e => Raise e
  | Ok start_dt =>
    match parse_date_string end_date "end_date" with
    | Raise e => Raise e
    | Ok end_dt =>
      match start_dt, end_dt with
      | Some s, Some e =>
        match datetime_gt s e with
        | Raise x => Raise x
        | Ok true =>
          Raise (HTTPException HTTP_400_BAD_REQUEST
                   "Start date must be before end date")
        | Ok false => Ok (start_dt, end_dt)
        end
      | _, _ => Ok (start_dt, end_dt)
      end
    end
  end.

End with_externals.

(** [(end.date() - start.date()).days]. *)
Definition days_between (start end_ : datetime) : Z :=
  datetime_date end_ - datetime_date start.

End datetime_utils.

(* ===================================================================== *)
(** ** [app/utils/db_utils.py] *)
(* ===================================================================== *)

Module db_utils.

(** [check_unique_constraint(session, Product, "barcode", field_value,
    error_message, exclude_id)]. *)
Definition check_unique_constraint (field_value : option string)
  (error_message : string) (exclude_id : option Z) : M unit :=
  match field_value with
  | None => ret tt
  | Some v =>
    existing <- session_exec
      (fun db =>
         List.find
           (fun p =>
              String.eqb (Product.barcode p) v
              && match exclude_id with
                 | Some k => if k =? 0 then true else negb (Product.id p =? k)
                 | None => true
                 end)
           (products db)) ;;
    match existing with
    | Some row =>
      instance_for row ;;
      raise (HTTPException HTTP_400_BAD_REQUEST error_message)
    | None => ret tt
    end
  end.

(** [safe_commit(session, entity)] for a product the session already holds
    ([session.add] of such an object changes nothing). *)
Definition safe_commit (key : Z) : M Product.t :=
  try_except
    (session_commit ;; session_refresh_product key)
    (fun _ =>
       session_rollback ;;
       raise (HTTPException HTTP_500_INTERNAL_SERVER_ERROR
                "Database operation failed")).

(** The decorator [handle_database_errors(operation_name)] applied to
    [func]: the wrapper it returns. *)
Definition handle_database_errors {A : Type} (operation_name : string)
  (func : M A) : M A :=
  try_except func
    (fun e =>
       match e with
       | HTTPException _ _ => session_rollback ;; raise e
       | _ =>
         session_rollback ;;
         raise (HTTPException HTTP_500_INTERNAL_SERVER_ERROR
                  ("An unexpected error occurred during " +:+ operation_name
                   +:+ "."))
       end).

(** [safe_delete(session, entity)] for a product the session holds. *)
Definition safe_delete (key : Z) : M bool :=
  try_except
    (session_delete_commit key ;; ret true)
    (fun _ =>
       session_rollback ;;
       raise (HTTPException HTTP_500_INTERNAL_SERVER_ERROR
                "Failed to delete resource")).

End db_utils.

(* ===================================================================== *)
(** ** [app/services/product_service.py] *)
(* ===================================================================== *)

Module product_service.

(** [select(Product).where(Product.id == product_id)] and [.first()]. *)
Definition first_product_with_id (product_id : Z) (db : Database)
  : option Product.t :=
  List.find (fun p => Product.id p =? product_id) (products db).

Definition get_product_by_id (product_id : Z) : M (option Product.t) :=
  row <- session_exec (first_product_with_id product_id) ;;
  match row with
  | None => ret None
  | Some row => obj <- instance_for row ;; ret (Some obj)
  end.

(** The columns of the products table that are NOT NULL and that
    [update_data] sets to [None]. *)
Definition nulls_required (update_data : ProductUpdate.t) : bool :=
  bool_decide (ProductUpdate.name update_data = Some None)
  || bool_decide (ProductUpdate.barcode update_data = Some None)
  || bool_decide (ProductUpdate.quantity update_data = Some None)
  || match ProductUpdate.price update_data with Some None => true | _ => false end
  || bool_decide (ProductUpdate.threshold update_data = Some None).

Definition assigned {A : Type} (field : option (option A)) (old : A) : A :=
  match field with
  | Some (Some v) => v
  | _ => old
  end.

(** [for field, value in update_data.items(): setattr(product, field, value)]. *)
Definition setattrs (update_data : ProductUpdate.t) (p : Product.t) : Product.t :=
  Product.mk (Product.id p) (Product.user_id p)
    (assigned (ProductUpdate.name update_data) (Product.name p))
    (assigned (ProductUpdate.barcode update_data) (Product.barcode p))
    (default (Product.category p) (ProductUpdate.category update_data))
    (assigned (ProductUpdate.quantity update_data) (Product.quantity p))
    (assigned (ProductUpdate.price update_data) (Product.price p))
    (assigned (ProductUpdate.threshold update_data) (Product.threshold p))
    (default (Product.description p) (ProductUpdate.description update_data))
    (Product.created_at p).

Definition set_current (f : Product.t -> Product.t) (inst : Instance) : Instance :=
  {| loaded := loaded inst; current := f (current inst) |}.

Definition product_setattrs (key : Z) (update_data : ProductUpdate.t) : M unit :=
  fun s =>
    (Ok tt,
     set_identity_map
       (alter (set_current (setattrs update_data)) key (identity_map s)) s).

Definition key_present {A : Type} (field : option (option A)) : bool :=
  match field with Some _ => true | None => false end.

Definition update_product (product_id : Z) (product_data : ProductUpdate.t)
  (current_user : User.t) : M Product.t :=
  product <- get_product_by_id product_id ;;
  product <- lift (auth_utils.check_resource_ownership current_user product
                     "product") ;;
  try_except
    (let update_data := product_data in
     (match ProductUpdate.barcode update_data with
      | Some v =>
        if negb (bool_decide (v = Some (Product.barcode product)))
        then db_utils.check_unique_constraint v
               "Product with this barcode already exists" (Some product_id)
        else ret tt
      | None => ret tt
      end) ;;
     (if key_present (ProductUpdate.quantity update_data)
      then lift (validation_utils.validate_non_negative_number
                   (Int <$> mjoin (ProductUpdate.quantity update_data))
                   "quantity")
      else ret tt) ;;
     (if key_present (ProductUpdate.price update_data)
      then lift (validation_utils.validate_non_negative_number
                   (Float <$> mjoin (ProductUpdate.price update_data))
                   "price")
      else ret tt) ;;
     (if key_present (ProductUpdate.threshold update_data)
      then lift (validation_utils.validate_non_negative_number
                   (Int <$> mjoin (ProductUpdate.threshold update_data))
                   "threshold")
      else ret tt) ;;
     if nulls_required update_data
     then
       (* the flush inside [safe_commit] violates NOT NULL *)
       session_rollback ;;
       raise (HTTPException HTTP_500_INTERNAL_SERVER_ERROR
                "Database operation failed")
     else
       product_setattrs (Product.id product) update_data ;;
       db_utils.safe_commit (Product.id product))
    (fun e =>
       match e with
       | HTTPException _ _ => raise e
       | _ =>
         session_rollback ;;
         raise (HTTPException HTTP_500_INTERNAL_SERVER_ERROR
                  "An unexpected error occurred while updating the product.")
       end).

Definition delete_product (product_id : Z) (current_user : User.t) : M bool :=
  product <- get_product_by_id product_id ;;
  product <- lift (auth_utils.check_resource_ownership current_user product
                     "product") ;;
  db_utils.safe_delete (Product.id product).

Definition get_user_products (user_id : Z) : M (list Product.t) :=
  rows <- session_exec
    (fun db => List.filter (fun p => Product.user_id p =? user_id) (products db)) ;;
  instances_for rows.

Definition get_product_by_barcode (barcode : string) : M (option Product.t) :=
  row <- session_exec
    (fun db =>
       List.find (fun p => String.eqb (Product.barcode p) barcode) (products db)) ;;
  match row with
  | None => ret None
  | Some row => obj <- instance_for row ;; ret (Some obj)
  end.

Definition get_low_stock_products (user_id : Z) : M (list Product.t) :=
  rows <- session_exec
    (fun db =>
       List.filter
         (fun p => (Product.user_id p =? user_id)
                   && (Product.quantity p <=? Product.threshold p))
         (products db)) ;;
  instances_for rows.

(** [product.quantity = new_quantity] on the object held under [key]. *)
Definition product_quantity_set (key : Z) (new_quantity : Z) : M unit :=
  fun s =>
    (Ok tt,
     set_identity_map
       (alter (set_current (set_quantity new_quantity)) key (identity_map s)) s).

(** (The engine refuses a quantity outside its INTEGER column; the
    properties that state a success assume the new quantity fits.) *)
Definition update_product_quantity (product_id : Z) (quantity_change : Z)
  (current_user : User.t) : M Product.t :=
  product <- get_product_by_id product_id ;;
  match product with
  | None => raise (HTTPException HTTP_404_NOT_FOUND "Product not found")
  | Some product =>
    if negb (UserRole_eqb (User.role current_user) ADMIN)
       && negb (Product.user_id product =? User.id current_user)
    then raise (HTTPException HTTP_403_FORBIDDEN
                  "Not authorized to update this product")
    else
      let new_quantity := Product.quantity product + quantity_change in
      if new_quantity <? 0
      then raise (HTTPException HTTP_400_BAD_REQUEST
                    "Insufficient stock for this operation")
      else
        try_except
          (product_quantity_set (Product.id product) new_quantity ;;
           session_commit ;;
           session_refresh_product (Product.id product))
          (fun _ =>
             session_rollback ;;
             raise (HTTPException HTTP_500_INTERNAL_SERVER_ERROR
                      "An unexpected error occurred while updating product quantity."))
  end.

(** *** [search_products] *)

(** The conditions [search_products] can add to [select(Product)]. *)
Inductive product_clause : Type :=
| product_user_id_eq (v : Z)
| product_name_ilike (pattern : string)
| product_price_ge (v : value)
| product_price_le (v : value)
| product_category_eq (v : value)
| product_quantity_ge (v : value)
| product_quantity_le (v : value)
| product_barcode_eq (v : value).

Section with_engine.
Context `{Externals}.

(** What the engine answers for [column = parameter] on a text column and
    for [column >= parameter] and [column <= parameter] on the INTEGER column
    [quantity], whatever the type of the bound parameter. *)
Variable text_eq : option string -> value -> bool.
Variables int4_ge int4_le : Z -> value -> bool.

Definition product_holds (c : product_clause) (p : Product.t) : bool :=
  match c with
  | product_user_id_eq v => Product.user_id p =? v
  | product_name_ilike pattern => ilike (Product.name p) pattern
  | product_price_ge v => float8_ge (Product.price p) v
  | product_price_le v => float8_le (Product.price p) v
  | product_category_eq v => text_eq (Product.category p) v
  | product_quantity_ge v => int4_ge (Product.quantity p) v
  | product_quantity_le v => int4_le (Product.quantity p) v
  | product_barcode_eq v => text_eq (Some (Product.barcode p)) v
  end.

(** The statement is the list of its conditions, in the order of the
    [where] calls. *)
Definition search_products (filters : gmap string value)
  (current_user : User.t) : M (list Product.t) :=
  let statement : list product_clause := [] in
  let statement :=
    if negb (UserRole_eqb (User.role current_user) ADMIN)
    then (statement ++ [product_user_id_eq (User.id current_user)])%list
    else statement in
  let statement :=
    match filters !! "name" with
    | Some v =>
      if value_truthy v
      then (statement ++ [product_name_ilike ("%" +:+ format_value v +:+ "%")])%list
      else statement
    | None => statement
    end in
  let statement :=
    match filters !! "min_price" with
    | Some VNone | None => statement
    | Some v => (statement ++ [product_price_ge v])%list
    end in
  let statement :=
    match filters !! "max_price" with
    | Some VNone | None => statement
    | Some v => (statement ++ [product_price_le v])%list
    end in
  let statement :=
    match filters !! "category" with
    | Some v =>
      if value_truthy v then (statement ++ [product_category_eq v])%list else statement
    | None => statement
    end in
  let statement :=
    match filters !! "min_quantity" with
    | Some VNone | None => statement
    | Some v => (statement ++ [product_quantity_ge v])%list
    end in
  let statement :=
    match filters !! "max_quantity" with
    | Some VNone | None => statement
    | Some v => (statement ++ [product_quantity_le v])%list
    end in
  let statement :=
    match filters !! "barcode" with
    | Some v =>
      if value_truthy v then (statement ++ [product_barcode_eq v])%list else statement
    | None => statement
    end in
  rows <- session_exec
    (fun db =>
       List.filter (fun p => forallb (fun c => product_holds c p) statement)
         (products db)) ;;
  instances_for rows.

End with_engine.

End product_service.

(* ===================================================================== *)
(** ** [app/services/invoice_service.py]: [create_invoice] *)
(* ===================================================================== *)

(** An entry of [validated_items].  Its ['product'] is a reference to the
    session's object, which the identity map holds under the product's
    primary key; the same object is referenced by every line that names the
    product. *)
Module ValidatedItem.
Record t : Type := mk {
  product : Z;
  quantity : Z;
  unit_price : float;
  item_total : float
}.
End ValidatedItem.

(** The dictionary [get_sales_summary] returns. *)
Module SalesSummary.
Record t : Type := mk {
  total_invoices : Z;
  total_revenue : float;
  average_invoice_value : float
}.
End SalesSummary.

Module invoice_service.

(** [item_data.unit_price if hasattr(item_data, 'unit_price') and
    item_data.unit_price else product.price]. *)
Definition effective_unit_price (item_data : InvoiceItemCreate.t)
  (product : Product.t) : float :=
  match InvoiceItemCreate.unit_price item_data with
  | Some x => if float_truthy x then x else Product.price product
  | None => Product.price product
  end.

(** The first loop of [create_invoice]: every line is checked, priced and
    recorded in [validated_items] before anything is written. *)
Fixpoint validate_items (current_user : User.t)
  (items : list InvoiceItemCreate.t)
  (validated_items : list ValidatedItem.t) (total_price : float)
  : M (list ValidatedItem.t * float) :=
  match items with
  | [] => ret (validated_items, total_price)
  | item_data :: rest =>
    product <- product_service.get_product_by_id
                 (InvoiceItemCreate.product_id item_data) ;;
    match product with
    | None =>
      raise (HTTPException HTTP_400_BAD_REQUEST
               ("Product with ID "
                +:+ str_int (InvoiceItemCreate.product_id item_data)
                +:+ " not found"))
    | Some product =>
      if negb (UserRole_eqb (User.role current_user) ADMIN)
         && negb (Product.user_id product =? User.id current_user)
      then
        raise (HTTPException HTTP_403_FORBIDDEN
                 ("Not authorized to sell product: " +:+ Product.name product))
      else if Product.quantity product <? InvoiceItemCreate.quantity item_data
      then
        raise (HTTPException HTTP_400_BAD_REQUEST
                 ("Insufficient stock for product " +:+ Product.name product
                  +:+ ". Available: " +:+ str_int (Product.quantity product)
                  +:+ ", Requested: "
                  +:+ str_int (InvoiceItemCreate.quantity item_data)))
      else
        let unit_price := effective_unit_price item_data product in
        item_total <- lift (float_mul_int unit_price
                              (InvoiceItemCreate.quantity item_data)) ;;
        let total_price := (total_price + item_total)%float in
        validate_items current_user rest
          (validated_items
             ++ [ValidatedItem.mk (Product.id product)
                   (InvoiceItemCreate.quantity item_data) unit_price item_total])
          total_price
    end
  end.

(** The second loop: one [InvoiceItem] per validated line, and the sold
    quantity taken off the product object.  ([session.add] of the product, an
    object the session already holds, changes nothing.) *)
Fixpoint add_items (db_invoice : Invoice.t)
  (validated_items : list ValidatedItem.t) : M unit :=
  match validated_items with
  | [] => ret tt
  | item_info :: rest =>
    invoice_id <- match Invoice.id db_invoice with
                  | Some k => ret k
                  | None => raise (IntegrityError "null value in column invoice_id")
                  end ;;
    session_add (InvoiceItem.mk None invoice_id
                   (ValidatedItem.product item_info)
                   (ValidatedItem.quantity item_info)
                   (ValidatedItem.unit_price item_info)) ;;
    product_quantity_isub (ValidatedItem.product item_info)
      (ValidatedItem.quantity item_info) ;;
    add_items db_invoice rest
  end.

(** The rest of the [try] block, from the construction of the [Invoice] to
    the [return].  [utcnow] is the value [datetime.utcnow()] returns when the
    object is built. *)
Definition write_invoice (invoice_data : InvoiceCreate.t)
  (current_user : User.t) (utcnow : datetime)
  (validated : list ValidatedItem.t * float) : M Invoice.t :=
  db_invoice <- session_add_flush
                  (Invoice.mk None (User.id current_user)
                     (InvoiceCreate.customer_name invoice_data)
                     (snd validated) utcnow) ;;
  add_items db_invoice (fst validated) ;;
  session_commit ;;
  session_refresh db_invoice.

(** The two [except] clauses. *)
Definition rollback_and_raise (e : exn) : M Invoice.t :=
  match e with
  | HTTPException _ _ => session_rollback ;; raise e
  | _ =>
    session_rollback ;;
    raise (HTTPException HTTP_500_INTERNAL_SERVER_ERROR
             "An unexpected error occurred while creating the invoice.")
  end.

Definition create_invoice (invoice_data : InvoiceCreate.t)
  (current_user : User.t) (utcnow : datetime) : M Invoice.t :=
  try_except
    (validated <- validate_items current_user
                    (InvoiceCreate.items invoice_data) [] 0%float ;;
     write_invoice invoice_data current_user utcnow validated)
    rollback_and_raise.

(** *** Statements over the invoices table *)

(** A [select(Invoice)] statement as the listing functions build it: the
    conditions added with [where], [offset], [limit], and whether
    [order_by(Invoice.created_at.desc())] was applied. *)
Inductive clause : Type :=
| user_id_eq (v : Z)
| id_eq (v : Z)
| customer_name_ilike (pattern : string)
| total_price_ge (v : value)
| total_price_le (v : value)
| created_at_ge (v : datetime)
| created_at_le (v : datetime).

Record Select : Type := mk_Select {
  whereclause : list clause;
  offset_clause : option Z;
  limit_clause : option Z;
  order_by_created_at_desc : bool
}.

Definition select_Invoice : Select := mk_Select [] None None false.

Definition where_ (c : clause) (st : Select) : Select :=
  mk_Select (whereclause st ++ [c]) (offset_clause st) (limit_clause st)
    (order_by_created_at_desc st).

Definition offset (n : Z) (st : Select) : Select :=
  mk_Select (whereclause st) (Some n) (limit_clause st)
    (order_by_created_at_desc st).

Definition limit (n : Z) (st : Select) : Select :=
  mk_Select (whereclause st) (offset_clause st) (Some n)
    (order_by_created_at_desc st).

Definition order_by_desc (st : Select) : Select :=
  mk_Select (whereclause st) (offset_clause st) (limit_clause st) true.

(** The instant a bound datetime parameter denotes for the engine (the
    stored [created_at] values are naive UTC). *)
Definition instant (d : datetime) : Z := wall d - default 0 (utcoffset d).

Section with_externals.
Context `{Externals}.

Definition holds (c : clause) (i : Invoice.t) : bool :=
  match c with
  | user_id_eq v => Invoice.user_id i =? v
  | id_eq v => bool_decide (Invoice.id i = Some v)
  | customer_name_ilike pattern =>
    match Invoice.customer_name i with
    | Some text => ilike text pattern
    | None => false
    end
  | total_price_ge v => float8_ge (Invoice.total_price i) v
  | total_price_le v => float8_le (Invoice.total_price i) v
  | created_at_ge v => instant v <=? wall (Invoice.created_at i)
  | created_at_le v => wall (Invoice.created_at i) <=? instant v
  end.

(** Rows in descending [created_at].  The statement orders by [created_at]
    alone, so the engine is free in the order of rows with equal timestamps
    and may choose differently from one query to the next; here such rows
    keep their table order.  What is proved of a listing below either does
    not depend on that order or assumes the timestamps distinct. *)
Fixpoint insert_desc (i : Invoice.t) (sorted : list Invoice.t) : list Invoice.t :=
  match sorted with
  | [] => [i]
  | j :: rest =>
    if wall (Invoice.created_at j) <? wall (Invoice.created_at i)
    then i :: j :: rest
    else j :: insert_desc i rest
  end.

Definition sort_desc (rows : list Invoice.t) : list Invoice.t :=
  fold_left (fun sorted i => insert_desc i sorted) rows [].

(** The rows a statement returns: WHERE, then ORDER BY, then OFFSET and
    LIMIT, whatever the order the statement was built in. *)
Definition rows_of (st : Select) (db : Database) : list Invoice.t :=
  let rows := List.filter (fun i => forallb (fun c => holds c i) (whereclause st))
                (invoices db) in
  let rows := if order_by_created_at_desc st then sort_desc rows else rows in
  let rows := match offset_clause st with
              | Some n => drop (Z.to_nat n) rows
              | None => rows
              end in
  match limit_clause st with
  | Some n => take (Z.to_nat n) rows
  | None => rows
  end.

Definition get_invoice_by_id (invoice_id : Z) (current_user : User.t)
  : M Invoice.t :=
  let statement := where_ (id_eq invoice_id) select_Invoice in
  invoice <- session_exec (fun db => head (rows_of statement db)) ;;
  lift (auth_utils.check_resource_ownership current_user invoice "invoice").

Definition get_all_invoices (current_user : User.t) (skip limit_ : Z)
  : M (list Invoice.t) :=
  lift (validation_utils.validate_pagination_params skip limit_) ;;
  let statement := select_Invoice in
  let statement :=
    if negb (auth_utils.is_owner_or_admin current_user (User.id current_user))
    then where_ (user_id_eq (User.id current_user)) statement
    else statement in
  let statement := limit limit_ (offset skip statement) in
  let statement := order_by_desc statement in
  session_exec (rows_of statement).

Definition get_invoices_by_user_id (user_id : Z) (current_user : User.t)
  (skip limit_ : Z) : M (list Invoice.t) :=
  lift (auth_utils.check_admin_access current_user "view other users' invoices") ;;
  lift (validation_utils.validate_pagination_params skip limit_) ;;
  let statement := where_ (user_id_eq user_id) select_Invoice in
  let statement := limit limit_ (offset skip statement) in
  let statement := order_by_desc statement in
  session_exec (rows_of statement).

Definition is_not_None (v : option value) : option value :=
  match v with
  | Some VNone | None => None
  | Some v => Some v
  end.

Definition search_invoices (filters : gmap string value)
  (current_user : User.t) (skip limit_ : Z) : M (list Invoice.t) :=
  lift (validation_utils.validate_pagination_params skip limit_) ;;
  let statement := select_Invoice in
  let statement :=
    if negb (auth_utils.is_owner_or_admin current_user (User.id current_user))
    then where_ (user_id_eq (User.id current_user)) statement
    else statement in
  let statement :=
    match filters !! "customer_name" with
    | Some v =>
      if value_truthy v
      then where_ (customer_name_ilike ("%" +:+ format_value v +:+ "%")) statement
      else statement
    | None => statement
    end in
  let statement :=
    match is_not_None (filters !! "min_total") with
    | Some v => where_ (total_price_ge v) statement
    | None => statement
    end in
  let statement :=
    match is_not_None (filters !! "max_total") with
    | Some v => where_ (total_price_le v) statement
    | None => statement
    end in
  range <- lift (datetime_utils.get_date_range_filter
                   (filters !! "start_date") (filters !! "end_date")) ;;
  let statement :=
    match fst range with
    | Some start_dt => where_ (created_at_ge start_dt) statement
    | None => statement
    end in
  let statement :=
    match snd range with
    | Some end_dt => where_ (created_at_le end_dt) statement
    | None => statement
    end in
  let statement := limit limit_ (offset skip statement) in
  let statement := order_by_desc statement in
  session_exec (rows_of statement).


End with_externals.

(** *** [get_sales_summary] *)

Section sales_summary.
Context `{Externals}.

(** [sum(total_price)] and [avg(total_price)] as the engine computes them
    over selected rows that are not none; over no rows both are NULL. *)
Variables float8_sum float8_avg : list float -> float.

Definition aggregate (f : list float -> float) (column : list float)
  : option float :=
  match column with
  | [] => None
  | _ :: _ => Some (f column)
  end.

(** [float(x or 0)]. *)
Definition float_or_0 (x : option float) : float :=
  match x with
  | Some x => if float_truthy x then x else 0%float
  | None => 0%float
  end.

Definition get_sales_summary (current_user : User.t)
  (start_date end_date : option string) : M SalesSummary.t :=
  let statement := select_Invoice in
  let statement :=
    if negb (UserRole_eqb (User.role current_user) ADMIN)
    then where_ (user_id_eq (User.id current_user)) statement
    else statement in
  let statement :=
    match start_date with
    | Some text =>
      if str_truthy text
      then match fromisoformat text with
           | Some start_dt => where_ (created_at_ge start_dt) statement
           | None => statement
           end
      else statement
    | None => statement
    end in
  let statement :=
    match end_date with
    | Some text =>
      if str_truthy text
      then match fromisoformat text with
           | Some end_dt => where_ (created_at_le end_dt) statement
           | None => statement
           end
      else statement
    | None => statement
    end in
  rows <- session_exec (rows_of statement) ;;
  let column := map Invoice.total_price rows in
  ret (SalesSummary.mk (Z.of_nat (length rows))
         (float_or_0 (aggregate float8_sum column))
         (float_or_0 (aggregate float8_avg column))).

End sales_summary.
End invoice_service.

(* ===================================================================== *)
(** ** [app/routes/invoice.py] *)
(* ===================================================================== *)

Module invoice_routes.
Section with_externals.
Context `{Externals}.

Definition dict_put (k : string) (v : option value) (d : gmap string value)
  : gmap string value :=
  match v with
  | Some v => <[k := v]> d
  | None => d
  end.

(** [GET /]: the handler up to the conversion of the rows into the response
    model. *)
Definition search_invoices (start_date end_date : option date)
  (min_price max_price : option float) (customer_name : option string)
  (current_user : User.t) : M (list Invoice.t) :=
  let filters :=
    dict_put "customer_name" (VStr <$> customer_name)
      (dict_put "max_price" (VFloat <$> max_price)
         (dict_put "min_price" (VFloat <$> min_price)
            (dict_put "end_date" (VDate <$> end_date)
               (dict_put "start_date" (VDate <$> start_date) ∅)))) in
  match min_price, max_price with
  | Some lo, Some hi =>
    if PrimFloat.ltb hi lo
    then raise (HTTPException HTTP_400_BAD_REQUEST
                  "Minimum price cannot be greater than maximum price")
    else ret tt
  | _, _ => ret tt
  end ;;
  match start_date, end_date with
  | Some a, Some b =>
    if date_gt a b
    then raise (HTTPException HTTP_400_BAD_REQUEST
                  "Start date cannot be after end date")
    else ret tt
  | _, _ => ret tt
  end ;;
  invoice_service.search_invoices filters current_user 0 100.

End with_externals.
End invoice_routes.


(* ===================================================================== *)
(** ** Two calls of [create_invoice] at once *)
(* ===================================================================== *)

(** Every request gets a session of its own, bound to the same database
    ([app/core/database.py]: one engine, created with the default isolation
    level, and one [SessionLocal()] per request).  [create_invoice] reads in
    its first loop and writes when it commits; it takes no lock
    ([with_for_update] appears nowhere) and its UPDATEs carry the values
    computed on the objects it loaded.  A call is therefore followed in two
    steps, the first loop and the rest, each of which sees the database as the
    other sessions have committed it so far. *)
Module Interleaving.

Record call : Type := mk_call {
  invoice_data : InvoiceCreate.t;
  current_user : User.t;
  utcnow : datetime
}.

Inductive progress : Type :=
| Pending
| Validated (s : Session) (validated : list ValidatedItem.t * float)
| Returned (r : result Invoice.t).

Definition step (c : call) (st : progress) (db : Database)
  : progress * Database :=
  match st with
  | Pending =>
    match invoice_service.validate_items (current_user c)
            (InvoiceCreate.items (invoice_data c)) [] 0%float
            (SessionLocal db) with
    | (Ok validated, s) => (Validated s validated, database s)
    | (Raise e, s) =>
      let '(r, s') := invoice_service.rollback_and_raise e s in
      (Returned r, database s')
    end
  | Validated s validated =>
    let '(r, s') :=
      try_except
        (invoice_service.write_invoice (invoice_data c) (current_user c)
           (utcnow c) validated)
        invoice_service.rollback_and_raise
        (set_database db s) in
    (Returned r, database s')
  | Returned r => (st, db)
  end.

Record config : Type := mk_config {
  shared : Database;
  first : progress;
  second : progress
}.

(** One step of the first call ([true]) or of the second ([false]). *)
Definition run_step (c1 c2 : call) (cfg : config) (who : bool) : config :=
  if who
  then let '(st, db) := step c1 (first cfg) (shared cfg) in
       mk_config db st (second cfg)
  else let '(st, db) := step c2 (second cfg) (shared cfg) in
       mk_config db (first cfg) st.

Definition run (c1 c2 : call) (schedule : list bool) (db : Database) : config :=
  fold_left (run_step c1 c2) schedule (mk_config db Pending Pending).

Definition succeeded (st : progress) : bool :=
  match st with
  | Returned (Ok _) => true
  | _ => false
  end.

Definition returned (st : progress) : bool :=
  match st with
  | Returned _ => true
  | _ => false
  end.

End Interleaving.

(* ===================================================================== *)
(** ** Vocabulary of the specification *)
(* ===================================================================== *)

(** A request served on a session of its own: [get_session] opens the
    session, the handler runs, the session is closed.  (The authentication
    dependency has read the user through the same session before the handler
    starts; it loads no product and leaves nothing pending, and the count of
    executed statements is not part of what [serve] returns.) *)
Definition serve {A : Type} (handler : M A) (db : Database)
  : result A * Database :=
  let '(r, s) := handler (SessionLocal db) in (r, database s).

(** The stock of a product: the [quantity] of its row. *)
Definition stock (product_id : Z) (db : Database) : option Z :=
  Product.quantity <$> product_service.first_product_with_id product_id db.

Definition may_sell (actor : User.t) (p : Product.t) : Prop :=
  User.role actor = ADMIN \/ Product.user_id p = User.id actor.

(** A line fails validation: product absent, actor neither owner nor admin,
    or requested quantity above the stock. *)
Inductive fails_validation (db : Database) (actor : User.t)
  (line : InvoiceItemCreate.t) : Prop :=
| product_absent :
    product_service.first_product_with_id
      (InvoiceItemCreate.product_id line) db = None ->
    fails_validation db actor line
| not_owner_nor_admin (p : Product.t) :
    product_service.first_product_with_id
      (InvoiceItemCreate.product_id line) db = Some p ->
    ~ may_sell actor p ->
    fails_validation db actor line
| exceeds_stock (p : Product.t) :
    product_service.first_product_with_id
      (InvoiceItemCreate.product_id line) db = Some p ->
    Product.quantity p < InvoiceItemCreate.quantity line ->
    fails_validation db actor line.

(** The error that goes with a failing line. *)
Inductive validation_error (db : Database) (actor : User.t)
  (line : InvoiceItemCreate.t) : exn -> Prop :=
| ProductNotFound :
    product_service.first_product_with_id
      (InvoiceItemCreate.product_id line) db = None ->
    validation_error db actor line
      (HTTPException 400
         ("Product with ID " +:+ str_int (InvoiceItemCreate.product_id line)
          +:+ " not found"))
| Forbidden (p : Product.t) :
    product_service.first_product_with_id
      (InvoiceItemCreate.product_id line) db = Some p ->
    ~ may_sell actor p ->
    validation_error db actor line
      (HTTPException 403
         ("Not authorized to sell product: " +:+ Product.name p))
| InsufficientStock (p : Product.t) :
    product_service.first_product_with_id
      (InvoiceItemCreate.product_id line) db = Some p ->
    may_sell actor p ->
    Product.quantity p < InvoiceItemCreate.quantity line ->
    validation_error db actor line
      (HTTPException 400
         ("Insufficient stock for product " +:+ Product.name p
          +:+ ". Available: " +:+ str_int (Product.quantity p)
          +:+ ", Requested: " +:+ str_int (InvoiceItemCreate.quantity line))).

(** The constraints the request schema puts on an invoice
    ([app/schemas/invoice.py], [app/schemas/invoice_item.py]). *)
Definition InvoiceItemCreate_valid (line : InvoiceItemCreate.t) : bool :=
  (0 <? InvoiceItemCreate.product_id line)
  && (0 <? InvoiceItemCreate.quantity line)
  && match InvoiceItemCreate.unit_price line with
     | Some x => PrimFloat.leb 0%float x
     | None => true
     end.

Definition InvoiceCreate_valid (req : InvoiceCreate.t) : bool :=
  match InvoiceCreate.customer_name req with
  | Some name => (String.length name <=? 200)%nat
  | None => true
  end
  && (1 <=? length (InvoiceCreate.items req))%nat
  && forallb InvoiceItemCreate_valid (InvoiceCreate.items req).

(** The [quantity] column of the products table is an INTEGER. *)
Definition INTEGER (n : Z) : bool := (- 2 ^ 31 <=? n) && (n <? 2 ^ 31).

Definition columns_valid (db : Database) : bool :=
  forallb (fun p => INTEGER (Product.quantity p)) (products db).

(** What a substring of a detail message is. *)
Definition includes (text part : string) : Prop :=
  exists before after, text = before +:+ part +:+ after.

(** An InsufficientStock error: status 400 with a detail that names the
    available and the requested counts. *)
Definition is_InsufficientStock (e : exn) (available requested : Z) : Prop :=
  exists detail,
    e = HTTPException 400 detail
    /\ includes detail "Insufficient stock"
    /\ includes detail ("Available: " +:+ str_int available)
    /\ includes detail ("Requested: " +:+ str_int requested).

(** The total of one line and the sum of the totals, in the order and the
    arithmetic of the loop: [0.0 + t1 + t2 + ...]. *)
Definition line_total (unit_price : float) (quantity : Z) (t : float) : Prop :=
  float_mul_int unit_price quantity = Ok t.

Definition sum_of (totals : list float) : float :=
  fold_left (fun acc t => (acc + t)%float) totals 0%float.

(** The quantity a request sells of one product. *)
Definition sold (product_id : Z) (lines : list InvoiceItemCreate.t) : Z :=
  fold_right Z.add 0
    (map InvoiceItemCreate.quantity
       (List.filter (fun l => InvoiceItemCreate.product_id l =? product_id)
          lines)).

(** Pagination parameters out of range: [skip < 0], or [limit] outside 1 to
    1000. *)
Definition invalid_pagination (skip limit : Z) : Prop :=
  skip < 0 \/ limit < 1 \/ 1000 < limit.

(** A listing operation answers invalid pagination parameters with a
    validation error (status 400) and leaves the session as it was: no
    statement has been executed. *)
Definition rejects_invalid_pagination (op : Z -> Z -> M (list Invoice.t))
  : Prop :=
  forall (skip limit : Z) (s : Session),
    invalid_pagination skip limit ->
    exists detail, op skip limit s = (Raise (HTTPException 400 detail), s).

(* ===================================================================== *)
(** ** Invariants and intermediate states *)
(* ===================================================================== *)

(** [m] keeps [I]: from a session in [I] it ends in a session in [I],
    whether it returns or raises. *)
Definition keeps {A : Type} (I : Session -> Prop) (m : M A) : Prop :=
  forall s, I s -> I (snd (m s)).

(** The session has nothing pending and its database holds the given
    invoices and invoice items. *)
Definition ledger_is (invs : list Invoice.t) (items : list InvoiceItem.t)
  (s : Session) : Prop :=
  new s = [] /\ flushed s = []
  /\ invoices (database s) = invs /\ invoice_items (database s) = items.

(** A session whose objects are as stored: it is bound to [db], nothing is
    pending, and every object of its identity map is unmodified and is the
    first row of [db] with its key. *)
Definition clean (db : Database) (s : Session) : Prop :=
  database s = db /\ flushed s = [] /\ new s = []
  /\ forall key inst,
       identity_map s !! key = Some inst ->
       product_service.first_product_with_id key db = Some (loaded inst)
       /\ current inst = loaded inst.

(** The outcome of the checks of the first loop for one line, read off the
    stored rows: the error the line raises, or the entry it adds to
    [validated_items]. *)
Definition checked_line (db : Database) (actor : User.t)
  (line : InvoiceItemCreate.t) : result ValidatedItem.t :=
  match product_service.first_product_with_id
          (InvoiceItemCreate.product_id line) db with
  | None =>
    Raise (HTTPException 400
             ("Product with ID " +:+ str_int (InvoiceItemCreate.product_id line)
              +:+ " not found"))
  | Some p =>
    if negb (UserRole_eqb (User.role actor) ADMIN)
       && negb (Product.user_id p =? User.id actor)
    then Raise (HTTPException 403
                  ("Not authorized to sell product: " +:+ Product.name p))
    else if Product.quantity p <? InvoiceItemCreate.quantity line
    then Raise (HTTPException 400
                  ("Insufficient stock for product " +:+ Product.name p
                   +:+ ". Available: " +:+ str_int (Product.quantity p)
                   +:+ ", Requested: "
                   +:+ str_int (InvoiceItemCreate.quantity line)))
    else
      match float_mul_int (invoice_service.effective_unit_price line p)
              (InvoiceItemCreate.quantity line) with
      | Raise e => Raise e
      | Ok t =>
        Ok (ValidatedItem.mk (Product.id p) (InvoiceItemCreate.quantity line)
              (invoice_service.effective_unit_price line p) t)
      end
  end.

Fixpoint check_lines (db : Database) (actor : User.t)
  (lines : list InvoiceItemCreate.t)
  (validated : list ValidatedItem.t) (total : float)
  : result (list ValidatedItem.t * float) :=
  match lines with
  | [] => Ok (validated, total)
  | line :: rest =>
    match checked_line db actor line with
    | Raise e => Raise e
    | Ok v =>
      check_lines db actor rest (validated ++ [v])
        (total + ValidatedItem.item_total v)%float
    end
  end.

(** The quantity the validated lines take off one product object. *)
Definition taken (key : Z) (validated : list ValidatedItem.t) : Z :=
  fold_right Z.add 0
    (map ValidatedItem.quantity
       (List.filter (fun v => ValidatedItem.product v =? key) validated)).

(** The state of the objects after the second loop, and the invoice item
    the loop adds for a validated line. *)
Definition decrement (im : gmap Z Instance) (v : ValidatedItem.t)
  : gmap Z Instance :=
  alter (sub_quantity (ValidatedItem.quantity v)) (ValidatedItem.product v) im.

Definition item_of (invoice_id : Z) (v : ValidatedItem.t) : InvoiceItem.t :=
  InvoiceItem.mk None invoice_id (ValidatedItem.product v)
    (ValidatedItem.quantity v) (ValidatedItem.unit_price v).

(** The row an INSERT stores for a pending invoice item: the object with a
    primary key. *)
Definition stored_as (obj row : InvoiceItem.t) : Prop :=
  exists key,
    row = InvoiceItem.mk (Some key) (InvoiceItem.invoice_id obj)
            (InvoiceItem.product_id obj) (InvoiceItem.quantity obj)
            (InvoiceItem.unit_price obj).

(* ===================================================================== *)
(** ** Sample data *)
(* ===================================================================== *)

Definition epoch : datetime := mk_datetime 0 None.

Definition U1 : User.t :=
  User.mk 1 "u1" "$2b$12$hash" USER None None "grocery" None ACTIVE epoch.
Definition U2 : User.t :=
  User.mk 2 "u2" "$2b$12$hash" USER None None "bakery" None ACTIVE epoch.
Definition root : User.t :=
  User.mk 3 "admin" "$2b$12$hash" ADMIN None None "office" None ACTIVE epoch.

(** Product P: quantity 10, price 5.00, owner U1. *)
Definition P : Product.t :=
  Product.mk 7 1 "Tea" "4006381333931" None 10 5%float 2 None epoch.

(** 9.99 as a double. *)
Definition price_9_99 : float := 0x1.3fae147ae147bp+3%float.

Definition one_line (product_id quantity : Z) (unit_price : option float)
  : InvoiceCreate.t :=
  InvoiceCreate.mk None [InvoiceItemCreate.mk product_id quantity unit_price].

Definition shop (quantity : Z) : Database :=
  mk_Database [set_quantity quantity P] [] [] 0 0.

(** Invoices of two sellers. *)
Definition ledger : Database :=
  mk_Database [P]
    [Invoice.mk (Some 1) 2 (Some "Ann") 3%float epoch;
     Invoice.mk (Some 2) 1 None 4%float (mk_datetime 60 None)]
    [InvoiceItem.mk (Some 1) 1 7 1 3%float;
     InvoiceItem.mk (Some 2) 2 7 1 4%float]
    2 2.

Definition day1 : datetime := mk_datetime 86400000000 None.
Definition day2 : datetime := mk_datetime 172800000000 None.

(** A stand-in for the library primitives: it reads two dates and matches
    every text. *)
Definition sample_fromisoformat (s : string) : option datetime :=
  if String.eqb s "1970-01-02" then Some day1
  else if String.eqb s "1970-01-03" then Some day2
  else None.

Definition sample_externals : Externals :=
  {| fromisoformat := sample_fromisoformat;
     fromisoformat_empty := eq_refl;
     float_str := fun _ => "0.0";
     ilike := fun _ _ => true;
     float8_ge := fun _ _ => true;
     float8_le := fun _ _ => true |}.

(** Two calls that each sell 6 units of product P. *)
Definition first_sale : Interleaving.call :=
  Interleaving.mk_call (one_line 7 6 None) U1 day1.
Definition second_sale : Interleaving.call :=
  Interleaving.mk_call (one_line 7 6 None) U1 day2.

(** The first call runs to its end before the second starts, or the other
    way round. *)
Definition first_then_second : list bool := [true; true; false; false].
Definition second_then_first : list bool := [false; false; true; true].

(* ===================================================================== *)
(** ** Two statements of the specification, as it makes them *)
(* ===================================================================== *)

(** C5 as the specification states it: whenever a line asks for more than
    the stock of its product, [create_invoice] raises InsufficientStock and
    changes nothing. *)
Definition every_short_line_raises_InsufficientStock : Prop :=
  forall (db : Database) (req : InvoiceCreate.t) (actor : User.t)
         (now : datetime) (line : InvoiceItemCreate.t) (p : Product.t),
    In line (InvoiceCreate.items req) ->
    product_service.first_product_with_id
      (InvoiceItemCreate.product_id line) db = Some p ->
    Product.quantity p < InvoiceItemCreate.quantity line ->
    exists e,
      serve (invoice_service.create_invoice req actor now) db = (Raise e, db)
      /\ is_InsufficientStock e (Product.quantity p)
           (InvoiceItemCreate.quantity line).

(** C2 as the specification states it, on its scenario: however the two
    calls interleave on a stock of 10, once both have returned exactly one
    has succeeded, the other has raised InsufficientStock, and 4 units are
    left. *)
Definition exactly_one_sale_succeeds : Prop :=
  forall schedule,
    let cfg := Interleaving.run first_sale second_sale schedule (shop 10) in
    Interleaving.returned (Interleaving.first cfg) = true ->
    Interleaving.returned (Interleaving.second cfg) = true ->
    xorb (Interleaving.succeeded (Interleaving.first cfg))
         (Interleaving.succeeded (Interleaving.second cfg)) = true
    /\ stock 7 (Interleaving.shared cfg) = Some 4.

(* ===================================================================== *)
(** ** Vocabulary for the operations around a sale *)
(* ===================================================================== *)

(** The actor may access a resource of [owner]: an admin, or the owner. *)
Definition may_access (actor : User.t) (owner : Z) : Prop :=
  User.role actor = ADMIN \/ User.id actor = owner.

(** Rows in descending [created_at]: no row is older than one after it. *)
Fixpoint newest_first (rows : list Invoice.t) : Prop :=
  match rows with
  | [] => True
  | i :: rest =>
    Forall (fun j => wall (Invoice.created_at j) <= wall (Invoice.created_at i))
      rest
    /\ newest_first rest
  end.

(** No two stored invoices have the same [created_at]: then
    [ORDER BY created_at DESC] leaves the engine no choice.  [listing] is the
    one arrangement of [rows] with the newest first. *)
Definition distinct_created_at (db : Database) : Prop :=
  NoDup (map (fun i => wall (Invoice.created_at i)) (invoices db)).

Definition the_newest_first (rows listing : list Invoice.t) : Prop :=
  Permutation listing rows
  /\ newest_first listing
  /\ forall other,
       Permutation other rows -> newest_first other -> other = listing.

(** The rows of the three tables are the same in two databases (the
    sequences may differ). *)
Definition same_rows (db db' : Database) : Prop :=
  products db' = products db
  /\ invoices db' = invoices db
  /\ invoice_items db' = invoice_items db.

(** The primary key of the products table, and the foreign key from an
    invoice item to its invoice. *)
Definition products_pkey (db : Database) : Prop :=
  NoDup (map Product.id (products db)).



(** A session that has loaded the product [p] and nothing else, and has
    nothing pending. *)
Definition holds_only (db : Database) (p : Product.t) (s : Session) : Prop :=
  database s = db
  /\ identity_map s = {[ Product.id p := {| loaded := p; current := p |} ]}
  /\ flushed s = [] /\ new s = [].

Definition set_products (rows : list Product.t) (db : Database) : Database :=
  {| products := rows; invoices := invoices db;
     invoice_items := invoice_items db;
     invoices_id_seq := invoices_id_seq db;
     invoice_items_id_seq := invoice_items_id_seq db |}.

(** The steps of [update_product] for a product whose stored row is [p],
    read off the stored rows: whether the barcode it is given is held by
    another row, what the three numeric checks answer, the row the UPDATE
    stores, and the outcome of the whole call. *)
Definition barcode_taken (db : Database) (product_id : Z) (p : Product.t)
  (update_data : ProductUpdate.t) : bool :=
  match ProductUpdate.barcode update_data with
  | Some (Some b) =>
    negb (bool_decide (Some b = Some (Product.barcode p)))
    && match List.find
               (fun q =>
                  String.eqb (Product.barcode q) b
                  && (if product_id =? 0 then true
                      else negb (Product.id q =? product_id)))
               (products db) with
       | Some _ => true
       | None => false
       end
  | _ => false
  end.

Definition numeric_checks (update_data : ProductUpdate.t) : result unit :=
  and_then
    (if product_service.key_present (ProductUpdate.quantity update_data)
     then validation_utils.validate_non_negative_number
            (Int <$> mjoin (ProductUpdate.quantity update_data)) "quantity"
     else Ok tt)
    (fun _ =>
       and_then
         (if product_service.key_present (ProductUpdate.price update_data)
          then validation_utils.validate_non_negative_number
                 (Float <$> mjoin (ProductUpdate.price update_data)) "price"
          else Ok tt)
         (fun _ =>
            if product_service.key_present (ProductUpdate.threshold update_data)
            then validation_utils.validate_non_negative_number
                   (Int <$> mjoin (ProductUpdate.threshold update_data))
                   "threshold"
            else Ok tt)).

Definition stored_update (update_data : ProductUpdate.t) (p : Product.t)
  : Product.t :=
  write_changes
    {| loaded := p; current := product_service.setattrs update_data p |} p.

Definition update_product_outcome (db : Database) (product_id : Z)
  (update_data : ProductUpdate.t) (actor : User.t)
  : result Product.t * Database :=
  match product_service.first_product_with_id product_id db with
  | None => (Raise (HTTPException 404 "Product not found"), db)
  | Some p =>
    if negb (UserRole_eqb (User.role actor) ADMIN)
       && negb (User.id actor =? Product.user_id p)
    then (Raise (HTTPException 403 "Not authorized to access this product"), db)
    else if barcode_taken db product_id p update_data
    then (Raise (HTTPException 400 "Product with this barcode already exists"),
          db)
    else
      match numeric_checks update_data with
      | Raise e => (Raise e, db)
      | Ok _ =>
        if product_service.nulls_required update_data
        then (Raise (HTTPException 500 "Database operation failed"), db)
        else
          (Ok (stored_update update_data p),
           set_products
             (map (flush_row
                     {[ Product.id p :=
                          {| loaded := p;
                             current := product_service.setattrs update_data p |} ]})
                (products db))
             db)
      end
  end.

(** A second product, of the other seller, and a database with both
    products and the two invoices of [ledger]. *)
Definition Q : Product.t :=
  Product.mk 8 2 "Coffee" "5000159407236" (Some "drinks") 1 12%float 3 None epoch.

Definition two_sellers : Database :=
  mk_Database [P; Q]
    [Invoice.mk (Some 1) 2 (Some "Ann") 3%float epoch;
     Invoice.mk (Some 2) 1 None 4%float (mk_datetime 60 None)]
    [InvoiceItem.mk (Some 1) 1 8 1 3%float;
     InvoiceItem.mk (Some 2) 2 7 1 4%float]
    2 2.

(** A date string that was not given: [None], or the empty string. *)
Definition blank (text : option string) : Prop :=
  text = None \/ text = Some "".

(** A stand-in for [datetime.fromisoformat] that reads a naive and an aware
    value. *)
Definition aware_fromisoformat (s : string) : option datetime :=
  if String.eqb s "1970-01-02" then Some day1
  else if String.eqb s "1970-01-03T00:00:00+00:00"
  then Some (mk_datetime 172800000000 (Some 0))
  else None.

Definition aware_externals : Externals :=
  {| fromisoformat := aware_fromisoformat;
     fromisoformat_empty := eq_refl;
     float_str := fun _ => "0.0";
     ilike := fun _ _ => true;
     float8_ge := fun _ _ => true;
     float8_le := fun _ _ => true |}.

(** Every character of a string is in a class; the string that is one
    newline. *)
Fixpoint str_all (cls : ascii -> bool) (s : string) : bool :=
  match s with
  | EmptyString => true
  | String c rest => cls c && str_all cls rest
  end.

Definition newline : string := String "010"%char EmptyString.

(** The characters an address may hold before and after its [@]. *)
Definition email_local_char (c : ascii) : bool :=
  re_alpha c || re_digit c || re_one_of "._%+-" c.

Definition email_domain_char (c : ascii) : bool :=
  re_alpha c || re_digit c || re_one_of ".-" c.

(** An invoice that the sequence is about to number again: the next INSERT
    into [invoices] fails on its primary key. *)
Definition stale_sequence : Database :=
  mk_Database [P] [Invoice.mk (Some 1) 1 None 4%float epoch] [] 0 0.

(* ===================================================================== *)
(** * Properties *)
(* ===================================================================== *)

(** ** Reasoning about computations on a session *)

Lemma keeps_ret {A : Type} (I : Session -> Prop) (a : A) : keeps I (ret a).
Proof. intros s Hs. exact Hs. Qed.

Lemma keeps_raise {A : Type} (I : Session -> Prop) (e : exn) :
  keeps I (@raise A e).
Proof. intros s Hs. exact Hs. Qed.

Lemma keeps_lift {A : Type} (I : Session -> Prop) (r : result A) :
  keeps I (lift r).
Proof. intros s Hs. exact Hs. Qed.

Lemma keeps_bind {A B : Type} (I : Session -> Prop) (m : M A) (k : A -> M B) :
  keeps I m -> (forall a, keeps I (k a)) -> keeps I (Mbind m k).
Proof.
  intros Hm Hk s Hs. unfold Mbind.
  specialize (Hm s Hs). destruct (m s) as [[a | e] s']; simpl in *.
  - apply Hk, Hm.
  - exact Hm.
Qed.

Lemma keeps_try_except {A : Type} (I : Session -> Prop) (m : M A)
  (h : exn -> M A) :
  keeps I m -> (forall e, keeps I (h e)) -> keeps I (try_except m h).
Proof.
  intros Hm Hh s Hs. unfold try_except.
  specialize (Hm s Hs). destruct (m s) as [[a | e] s']; simpl in *.
  - exact Hm.
  - apply Hh, Hm.
Qed.

Lemma keeps_if {A : Type} (I : Session -> Prop) (b : bool) (m1 m2 : M A) :
  keeps I m1 -> keeps I m2 -> keeps I (if b then m1 else m2).
Proof. destruct b; auto. Qed.

(** ** Ownership-checked retrieval *)

Lemma UserRole_eqb_eq (a b : UserRole) : UserRole_eqb a b = true <-> a = b.
Proof. destruct a, b; simpl; split; congruence. Qed.

(** C8.  The ownership-checked retrieval [check_resource_ownership] raises
    404 when the resource is absent, whoever asks (the existence check comes
    first); for a resource that is present it raises 403 when the actor is
    neither its owner nor an admin, and otherwise returns the resource as it
    is. *)
Theorem check_resource_ownership_outcomes
  (R : Type) (getter : Resource R) (actor : User.t) (resource_name : string) :
  auth_utils.check_resource_ownership actor (@None R) resource_name
    = Raise (HTTPException 404 (capitalize resource_name +:+ " not found"))
  /\ forall (r : R) (owner : Z),
       getattr_user_id r = Some owner ->
       (User.role actor <> ADMIN /\ User.id actor <> owner ->
        auth_utils.check_resource_ownership actor (Some r) resource_name
          = Raise (HTTPException 403
                     ("Not authorized to access this " +:+ resource_name)))
       /\ (User.role actor = ADMIN \/ User.id actor = owner ->
           auth_utils.check_resource_ownership actor (Some r) resource_name
             = Ok r).
Proof.
  split; [reflexivity |].
  intros r owner Hown.
  unfold auth_utils.check_resource_ownership, auth_utils.check_ownership_or_admin.
  rewrite Hown.
  destruct (Z.eqb_spec (User.id actor) owner) as [Hid | Hid];
    destruct (User.role actor); simpl; split;
    solve [ reflexivity
          | intros [Hrole Hne]; congruence
          | intros [Hrole | Heq]; congruence ].
Qed.

Lemma check_resource_ownership_outcomes_witness :
  auth_utils.check_resource_ownership U2 (Some P) "product"
    = Raise (HTTPException 403 "Not authorized to access this product")
  /\ auth_utils.check_resource_ownership U1 (Some P) "product" = Ok P
  /\ auth_utils.check_resource_ownership root (Some P) "product" = Ok P
  /\ auth_utils.check_resource_ownership U1 (@None Product.t) "product"
       = Raise (HTTPException 404 "Product not found").
Proof.
  pose proof (check_resource_ownership_outcomes Product.t _ U2 "product") as [_ H2].
  pose proof (check_resource_ownership_outcomes Product.t _ U1 "product") as [H0 H1].
  pose proof (check_resource_ownership_outcomes Product.t _ root "product") as [_ H3].
  destruct (H2 P 1 eq_refl) as [H2a _].
  destruct (H1 P 1 eq_refl) as [_ H1b].
  destruct (H3 P 1 eq_refl) as [_ H3b].
  refine (conj (H2a _) (conj (H1b _) (conj (H3b _) H0))).
  - split; [discriminate | simpl; lia].
  - right. reflexivity.
  - left. reflexivity.
Defined.

(** ** Pagination *)

Lemma validate_pagination_params_invalid (skip limit : Z) :
  invalid_pagination skip limit ->
  exists detail,
    validation_utils.validate_pagination_params skip limit
      = Raise (HTTPException 400 detail).
Proof.
  intros Hbad. unfold validation_utils.validate_pagination_params.
  destruct (Z.ltb_spec skip 0) as [Hs | Hs]; [eexists; reflexivity |].
  destruct (Z.leb_spec limit 0) as [Hl | Hl]; [eexists; reflexivity |].
  destruct (Z.ltb_spec 1000 limit) as [Hu | Hu]; [eexists; reflexivity |].
  unfold invalid_pagination in Hbad. lia.
Qed.

Lemma validate_pagination_params_valid (skip limit : Z) :
  0 <= skip -> 1 <= limit <= 1000 ->
  validation_utils.validate_pagination_params skip limit = Ok tt.
Proof.
  intros Hs [Hl Hu]. unfold validation_utils.validate_pagination_params.
  destruct (Z.ltb_spec skip 0); [lia |].
  destruct (Z.leb_spec limit 0); [lia |].
  destruct (Z.ltb_spec 1000 limit); [lia | reflexivity].
Qed.

Lemma rejects_after_validation (k : unit -> Z -> Z -> M (list Invoice.t)) :
  rejects_invalid_pagination
    (fun skip limit =>
       Mbind (lift (validation_utils.validate_pagination_params skip limit))
         (fun u => k u skip limit)).
Proof.
  intros skip limit s Hbad.
  destruct (validate_pagination_params_invalid skip limit Hbad) as [detail Hd].
  exists detail. unfold Mbind, lift. rewrite Hd. reflexivity.
Qed.

(** C10, as stated, fails for the per-user listing: a caller who is not an
    admin is answered 403 by the admin check, which precedes the pagination
    check. *)
Lemma per_user_listing_checks_admin_first :
  invalid_pagination (-1) 100
  /\ @invoice_service.get_invoices_by_user_id sample_externals 2 U1 (-1) 100
       (SessionLocal ledger)
     = (Raise (HTTPException 403
                 "Admin access required to view other users' invoices"),
        SessionLocal ledger)
  /\ ~ rejects_invalid_pagination
        (@invoice_service.get_invoices_by_user_id sample_externals 2 U1).
Proof.
  split; [left; lia |]. split; [reflexivity |].
  intros Hclaim.
  destruct (Hclaim (-1) 100 (SessionLocal ledger)) as [detail Hd].
  - left. lia.
  - vm_compute in Hd. discriminate Hd.
Qed.

(** C10, amended.  The invoice listing and the invoice search answer invalid
    pagination parameters ([skip < 0], or [limit] outside 1 to 1000) with a
    validation error before any statement is executed, and so does the
    per-user listing for an admin; for any other caller the per-user listing
    raises 403 first, whatever the parameters, also before any statement is
    executed. *)
Theorem listings_reject_invalid_pagination (E : Externals) (actor : User.t) :
  rejects_invalid_pagination (invoice_service.get_all_invoices actor)
  /\ (forall filters,
        rejects_invalid_pagination
          (invoice_service.search_invoices filters actor))
  /\ (forall user_id,
        User.role actor = ADMIN ->
        rejects_invalid_pagination
          (invoice_service.get_invoices_by_user_id user_id actor))
  /\ (forall user_id skip limit s,
        User.role actor <> ADMIN ->
        invoice_service.get_invoices_by_user_id user_id actor skip limit s
          = (Raise (HTTPException 403
                      "Admin access required to view other users' invoices"),
             s)).
Proof.
  split; [| split; [| split]].
  - apply (rejects_after_validation (fun _ skip limit => _)).
  - intros filters. apply (rejects_after_validation (fun _ skip limit => _)).
  - intros user_id Hadmin skip limit s Hbad.
    destruct (validate_pagination_params_invalid skip limit Hbad) as [detail Hd].
    exists detail.
    unfold invoice_service.get_invoices_by_user_id, auth_utils.check_admin_access,
      Mbind, lift.
    rewrite Hadmin, Hd. reflexivity.
  - intros user_id skip limit s Hrole.
    unfold invoice_service.get_invoices_by_user_id, auth_utils.check_admin_access,
      Mbind, lift.
    destruct (User.role actor); [reflexivity | congruence].
Qed.

Lemma listings_reject_invalid_pagination_witness :
  (exists detail,
     @invoice_service.get_all_invoices sample_externals U1 (-1) 100
       (SessionLocal ledger)
     = (Raise (HTTPException 400 detail), SessionLocal ledger))
  /\ (exists detail,
        @invoice_service.get_invoices_by_user_id sample_externals 2 root 0 1001
          (SessionLocal ledger)
        = (Raise (HTTPException 400 detail), SessionLocal ledger)).
Proof.
  destruct (listings_reject_invalid_pagination sample_externals U1) as [Hall _].
  destruct (listings_reject_invalid_pagination sample_externals root)
    as (_ & _ & Huser & _).
  split.
  - apply Hall. left. lia.
  - apply (Huser 2 eq_refl). right. right. lia.
Defined.

(** ** Inverted ranges in a search *)

Lemma validate_pagination_params_cases (skip limit : Z) :
  validation_utils.validate_pagination_params skip limit = Ok tt
  \/ exists detail,
       validation_utils.validate_pagination_params skip limit
         = Raise (HTTPException 400 detail).
Proof.
  unfold validation_utils.validate_pagination_params.
  destruct (skip <? 0); [right; eexists; reflexivity |].
  destruct ((limit <=? 0) || (1000 <? limit));
    [right; eexists; reflexivity | left; reflexivity].
Qed.

Lemma fromisoformat_truthy (E : Externals) (text : string) (dt : datetime) :
  fromisoformat text = Some dt -> str_truthy text = true.
Proof.
  destruct text; [| reflexivity].
  rewrite fromisoformat_empty. discriminate.
Qed.

Lemma get_date_range_filter_inverted (E : Externals)
  (start_date end_date : string) (a b : datetime) :
  fromisoformat start_date = Some a ->
  fromisoformat end_date = Some b ->
  datetime_gt a b = Ok true ->
  datetime_utils.get_date_range_filter
    (Some (VStr start_date)) (Some (VStr end_date))
  = Raise (HTTPException 400 "Start date must be before end date").
Proof.
  intros Ha Hb Hgt.
  unfold datetime_utils.get_date_range_filter, datetime_utils.parse_date_string.
  simpl.
  rewrite (fromisoformat_truthy E _ _ Ha), (fromisoformat_truthy E _ _ Hb).
  simpl. rewrite Ha, Hb, Hgt. reflexivity.
Qed.

(** C9.  A search whose price range or date range is supplied at both ends
    with the lower end strictly above the upper end is answered with a
    validation error (status 400) and the session is left as it was: no
    statement has been executed and no rows are returned.  This holds for the
    route, which checks both ranges, and for the date range given to the
    service as ISO strings, which [get_date_range_filter] checks. *)
Theorem search_rejects_inverted_ranges (E : Externals) :
  (forall start_date end_date min_price max_price customer_name actor s,
     (exists lo hi,
        min_price = Some lo /\ max_price = Some hi
        /\ PrimFloat.ltb hi lo = true)
     \/ (exists a b,
           start_date = Some a /\ end_date = Some b /\ date_gt a b = true) ->
     exists detail,
       invoice_routes.search_invoices start_date end_date min_price max_price
         customer_name actor s
       = (Raise (HTTPException 400 detail), s))
  /\ (forall filters start_date end_date a b actor skip limit s,
        filters !! "start_date" = Some (VStr start_date) ->
        filters !! "end_date" = Some (VStr end_date) ->
        fromisoformat start_date = Some a ->
        fromisoformat end_date = Some b ->
        datetime_gt a b = Ok true ->
        exists detail,
          invoice_service.search_invoices filters actor skip limit s
          = (Raise (HTTPException 400 detail), s)).
Proof.
  split.
  - intros start_date end_date min_price max_price customer_name actor s Hbad.
    unfold invoice_routes.search_invoices, Mbind, raise, ret.
    destruct Hbad as [(lo & hi & -> & -> & Hlt) | (a & b & -> & -> & Hgt)].
    + rewrite Hlt. eexists; reflexivity.
    + rewrite Hgt.
      destruct min_price as [lo |], max_price as [hi |];
        try (eexists; reflexivity).
      destruct (PrimFloat.ltb hi lo); eexists; reflexivity.
  - intros filters start_date end_date a b actor skip limit s Hs He Ha Hb Hgt.
    unfold invoice_service.search_invoices, Mbind, lift.
    destruct (validate_pagination_params_cases skip limit) as [-> | [detail ->]];
      [| eexists; reflexivity].
    rewrite Hs, He, (get_date_range_filter_inverted E _ _ _ _ Ha Hb Hgt).
    eexists; reflexivity.
Qed.

Lemma search_rejects_inverted_ranges_witness :
  (exists detail,
     @invoice_routes.search_invoices sample_externals None None
       (Some 20%float) (Some 10%float) None U1 (SessionLocal ledger)
     = (Raise (HTTPException 400 detail), SessionLocal ledger))
  /\ (exists detail,
        @invoice_routes.search_invoices sample_externals
          (Some (mk_date 2024 3 1)) (Some (mk_date 2024 2 29)) None None None
          U1 (SessionLocal ledger)
        = (Raise (HTTPException 400 detail), SessionLocal ledger))
  /\ (exists detail,
        @invoice_service.search_invoices sample_externals
          (<["start_date" := VStr "1970-01-03"]>
             (<["end_date" := VStr "1970-01-02"]> ∅))
          U1 0 100 (SessionLocal ledger)
        = (Raise (HTTPException 400 detail), SessionLocal ledger)).
Proof.
  destruct (search_rejects_inverted_ranges sample_externals) as [Hroute Hservice].
  split; [| split].
  - apply Hroute. left. exists 20%float, 10%float. repeat split; reflexivity.
  - apply Hroute. right. exists (mk_date 2024 3 1), (mk_date 2024 2 29).
    repeat split; reflexivity.
  - apply (Hservice _ "1970-01-03" "1970-01-02" day2 day1); reflexivity.
Defined.

(** ** Role-scoped listings *)

Lemma is_owner_or_admin_self (user : User.t) :
  auth_utils.is_owner_or_admin user (User.id user) = true.
Proof.
  unfold auth_utils.is_owner_or_admin. rewrite Z.eqb_refl.
  apply orb_true_r.
Qed.

(** What [get_all_invoices] returns: the statement never gets its owner
    condition, whatever the role of the caller. *)
Lemma get_all_invoices_unscoped (E : Externals) (actor : User.t)
  (skip limit_ : Z) (s : Session) :
  0 <= skip -> 1 <= limit_ <= 1000 ->
  invoice_service.get_all_invoices actor skip limit_ s
  = (Ok (invoice_service.rows_of
           (invoice_service.order_by_desc
              (invoice_service.limit limit_
                 (invoice_service.offset skip invoice_service.select_Invoice)))
           (database s)),
     count_exec s).
Proof.
  intros Hs Hl. unfold invoice_service.get_all_invoices, Mbind, lift.
  rewrite (validate_pagination_params_valid skip limit_ Hs Hl).
  rewrite is_owner_or_admin_self. reflexivity.
Qed.

(** C3, on the code.  [U1] is not an admin and owns one of the two invoices
    of [ledger]; the listing and the search both hand him the invoice of the
    other seller as well. *)
Theorem listings_show_other_sellers_invoices (E : Externals) :
  User.role U1 = USER
  /\ serve (invoice_service.get_all_invoices U1 0 100) ledger
     = (Ok [Invoice.mk (Some 2) 1 None 4%float (mk_datetime 60 None);
            Invoice.mk (Some 1) 2 (Some "Ann") 3%float epoch],
        ledger)
  /\ serve (invoice_service.search_invoices ∅ U1 0 100) ledger
     = (Ok [Invoice.mk (Some 2) 1 None 4%float (mk_datetime 60 None);
            Invoice.mk (Some 1) 2 (Some "Ann") 3%float epoch],
        ledger).
Proof.
  split; [reflexivity | split]; vm_compute; reflexivity.
Qed.

(** ** Updating a product leaves the invoices alone *)

Section ledger_kept.
Variables (invs : list Invoice.t) (items : list InvoiceItem.t).

Lemma keeps_session_exec {A : Type} (statement : Database -> A) :
  keeps (ledger_is invs items) (session_exec statement).
Proof. intros s Hs. exact Hs. Qed.

Lemma keeps_instance_for (row : Product.t) :
  keeps (ledger_is invs items) (instance_for row).
Proof.
  intros s Hs. unfold instance_for.
  destruct (identity_map s !! Product.id row); exact Hs.
Qed.

Lemma keeps_get_product_by_id (product_id : Z) :
  keeps (ledger_is invs items) (product_service.get_product_by_id product_id).
Proof.
  unfold product_service.get_product_by_id.
  apply keeps_bind; [apply keeps_session_exec |].
  intros [row |]; [| apply keeps_ret].
  apply keeps_bind; [apply keeps_instance_for | intros; apply keeps_ret].
Qed.

Lemma keeps_check_unique_constraint (field_value : option string)
  (error_message : string) (exclude_id : option Z) :
  keeps (ledger_is invs items)
    (db_utils.check_unique_constraint field_value error_message
       exclude_id).
Proof.
  unfold db_utils.check_unique_constraint.
  destruct field_value as [v |]; [| apply keeps_ret].
  apply keeps_bind; [apply keeps_session_exec |].
  intros [row |]; [| apply keeps_ret].
  apply keeps_bind; [apply keeps_instance_for | intros; apply keeps_raise].
Qed.

Lemma keeps_session_rollback :
  keeps (ledger_is invs items) session_rollback.
Proof. intros s (Hn & Hf & Hi & Ht). repeat split; assumption. Qed.

Lemma keeps_session_commit :
  keeps (ledger_is invs items) session_commit.
Proof.
  intros s (Hn & Hf & Hi & Ht). unfold session_commit.
  rewrite Hn, Hf. simpl. rewrite app_nil_r.
  repeat split; assumption.
Qed.

Lemma keeps_session_refresh_product (key : Z) :
  keeps (ledger_is invs items) (session_refresh_product key).
Proof.
  intros s Hs. unfold session_refresh_product.
  destruct (List.find _ _); [apply keeps_instance_for |]; exact Hs.
Qed.

Lemma keeps_safe_commit (key : Z) :
  keeps (ledger_is invs items) (db_utils.safe_commit key).
Proof.
  unfold db_utils.safe_commit.
  apply keeps_try_except.
  - apply keeps_bind; [apply keeps_session_commit |].
    intros _. apply keeps_session_refresh_product.
  - intros e. apply keeps_bind; [apply keeps_session_rollback |].
    intros _. apply keeps_raise.
Qed.

Lemma keeps_product_setattrs (key : Z) (update_data : ProductUpdate.t) :
  keeps (ledger_is invs items) (product_service.product_setattrs key update_data).
Proof. intros s Hs. exact Hs. Qed.

Lemma keeps_update_product (product_id : Z) (product_data : ProductUpdate.t)
  (current_user : User.t) :
  keeps (ledger_is invs items)
    (product_service.update_product product_id product_data current_user).
Proof.
  unfold product_service.update_product.
  apply keeps_bind; [apply keeps_get_product_by_id | intros product].
  apply keeps_bind; [apply keeps_lift | intros p].
  apply keeps_try_except.
  - repeat (apply keeps_bind; [| intros _]).
    + destruct (ProductUpdate.barcode product_data) as [v |]; [| apply keeps_ret].
      apply keeps_if; [apply keeps_check_unique_constraint | apply keeps_ret].
    + apply keeps_if; [apply keeps_lift | apply keeps_ret].
    + apply keeps_if; [apply keeps_lift | apply keeps_ret].
    + apply keeps_if; [apply keeps_lift | apply keeps_ret].
    + apply keeps_if.
      * apply keeps_bind; [apply keeps_session_rollback |].
        intros _. apply keeps_raise.
      * apply keeps_bind; [apply keeps_product_setattrs |].
        intros _. apply keeps_safe_commit.
  - intros e. destruct e; try apply keeps_raise;
      (apply keeps_bind; [apply keeps_session_rollback |]);
      intros _; apply keeps_raise.
Qed.

End ledger_kept.

(** C7.  Updating a product, its price included, changes no invoice item and
    no invoice: whatever the update does, the two tables come out of the
    request exactly as they went in, so the [unit_price] written at the sale
    stays. *)
Theorem update_product_keeps_invoice_items (db : Database) (product_id : Z)
  (product_data : ProductUpdate.t) (actor : User.t) :
  invoice_items
    (snd (serve (product_service.update_product product_id product_data actor) db))
  = invoice_items db
  /\ invoices
       (snd (serve (product_service.update_product product_id product_data actor) db))
     = invoices db.
Proof.
  pose proof (keeps_update_product (invoices db) (invoice_items db)
                product_id product_data actor (SessionLocal db)) as Hkeep.
  unfold serve.
  destruct (product_service.update_product product_id product_data actor
              (SessionLocal db)) as [r s'].
  simpl in *.
  destruct Hkeep as (_ & _ & Hi & Ht); [repeat split; reflexivity |].
  split; assumption.
Qed.

(** The scenario of the specification: a sale at 9.99 of a product priced
    5.00 stores 9.99, and the price change that follows moves the product to
    6.50 and leaves the stored item at 9.99. *)
Example price_snapshot_scenario :
  let sale := serve (invoice_service.create_invoice
                       (one_line 7 3 (Some price_9_99)) U1 day1) (shop 10) in
  let change := serve (product_service.update_product 7
                         (ProductUpdate.mk None None None None
                            (Some (Some 6.5%float)) None None) U1)
                  (snd sale) in
  invoice_items (snd sale) = [InvoiceItem.mk (Some 1) 1 7 3 price_9_99]
  /\ Product.price <$> product_service.first_product_with_id 7 (snd change)
     = Some 6.5%float
  /\ invoice_items (snd change) = [InvoiceItem.mk (Some 1) 1 7 3 price_9_99].
Proof. vm_compute. repeat split. Qed.

(** ** The first loop of [create_invoice] *)

Lemma first_product_with_id_id (key : Z) (db : Database) (p : Product.t) :
  product_service.first_product_with_id key db = Some p -> Product.id p = key.
Proof.
  unfold product_service.first_product_with_id. intros Hfind.
  apply find_some in Hfind. destruct Hfind as [_ Heq].
  apply Z.eqb_eq. exact Heq.
Qed.

Lemma clean_SessionLocal (db : Database) : clean db (SessionLocal db).
Proof.
  split; [reflexivity |]. split; [reflexivity |]. split; [reflexivity |].
  intros key inst Hinst. simpl in Hinst.
  rewrite lookup_empty in Hinst. discriminate Hinst.
Qed.

(** On a clean session [get_product_by_id] returns the stored row, keeps the
    session clean, forgets no object, and holds the row it returned. *)
Lemma get_product_by_id_clean (db : Database) (s : Session) (key : Z) :
  clean db s ->
  exists s',
    product_service.get_product_by_id key s
      = (Ok (product_service.first_product_with_id key db), s')
    /\ clean db s'
    /\ identity_map s ⊆ identity_map s'
    /\ (is_Some (product_service.first_product_with_id key db) ->
        is_Some (identity_map s' !! key)).
Proof.
  intros (Hdb & Hf & Hn & Hobj).
  unfold product_service.get_product_by_id, Mbind, session_exec.
  rewrite Hdb.
  destruct (product_service.first_product_with_id key db) as [row |] eqn:Hrow.
  - pose proof (first_product_with_id_id _ _ _ Hrow) as Hid.
    unfold instance_for. simpl. rewrite Hid.
    destruct (identity_map s !! key) as [inst |] eqn:Hinst.
    + destruct (Hobj key inst Hinst) as [Hl Hc].
      assert (current inst = row) as -> by congruence.
      exists (count_exec s). simpl.
      split; [reflexivity |].
      split; [exact (conj Hdb (conj Hf (conj Hn Hobj))) |].
      split; [reflexivity |].
      intros _. rewrite Hinst. eauto.
    + eexists. split; [reflexivity |].
      split; [| split].
      * split; [exact Hdb |]. split; [exact Hf |]. split; [exact Hn |].
        intros k inst Hk. simpl in Hk.
        destruct (decide (k = key)) as [-> | Hne].
        -- rewrite lookup_insert_eq in Hk. inversion Hk; subst inst. simpl.
           split; [exact Hrow | reflexivity].
        -- rewrite lookup_insert_ne in Hk by congruence. apply (Hobj _ _ Hk).
      * simpl. apply insert_subseteq. exact Hinst.
      * intros _. simpl. rewrite lookup_insert_eq. eauto.
  - exists (count_exec s). simpl.
    split; [reflexivity |].
    split; [exact (conj Hdb (conj Hf (conj Hn Hobj))) |].
    split; [reflexivity |].
    intros [x Hx]. discriminate Hx.
Qed.

(** On a clean session the first loop computes [check_lines], keeps the
    session clean, and holds an object for every validated line. *)
Lemma validate_items_clean (db : Database) (actor : User.t)
  (lines : list InvoiceItemCreate.t) :
  forall (validated : list ValidatedItem.t) (total : float) (s : Session),
    clean db s ->
    (forall v, In v validated ->
               is_Some (identity_map s !! ValidatedItem.product v)) ->
    exists s',
      invoice_service.validate_items actor lines validated total s
        = (check_lines db actor lines validated total, s')
      /\ clean db s'
      /\ forall vs t,
           check_lines db actor lines validated total = Ok (vs, t) ->
           forall v, In v vs ->
                     is_Some (identity_map s' !! ValidatedItem.product v).
Proof.
  induction lines as [| line rest IH]; intros validated total s Hclean Hheld.
  - exists s. simpl. split; [reflexivity |]. split; [exact Hclean |].
    intros vs t Heq v Hv. inversion Heq; subst. apply Hheld, Hv.
  - destruct (get_product_by_id_clean db s
                (InvoiceItemCreate.product_id line) Hclean)
      as (s1 & Hget & Hclean1 & Hsub & Hin).
    simpl. unfold Mbind at 1. rewrite Hget.
    unfold checked_line.
    destruct (product_service.first_product_with_id
                (InvoiceItemCreate.product_id line) db) as [p |] eqn:Hp.
    + destruct (negb (UserRole_eqb (User.role actor) ADMIN)
                && negb (Product.user_id p =? User.id actor)).
      { exists s1. split; [reflexivity |]. split; [exact Hclean1 |].
        intros vs t Heq. discriminate Heq. }
      destruct (Product.quantity p <? InvoiceItemCreate.quantity line).
      { exists s1. split; [reflexivity |]. split; [exact Hclean1 |].
        intros vs t Heq. discriminate Heq. }
      unfold Mbind, lift.
      destruct (float_mul_int (invoice_service.effective_unit_price line p)
                  (InvoiceItemCreate.quantity line)) as [t1 | e].
      * apply IH; [exact Hclean1 |].
        intros v Hv. apply in_app_iff in Hv. destruct Hv as [Hv | [<- | []]].
        -- eapply lookup_weaken_is_Some; [apply Hheld, Hv | exact Hsub].
        -- simpl. rewrite (first_product_with_id_id _ _ _ Hp).
           apply Hin. eauto.
      * exists s1. split; [reflexivity |]. split; [exact Hclean1 |].
        intros vs t Heq. discriminate Heq.
    + exists s1. split; [reflexivity |]. split; [exact Hclean1 |].
      intros vs t Heq. discriminate Heq.
Qed.

(** ** What the checks of one line decide *)

Lemma may_sell_checked (actor : User.t) (p : Product.t) :
  negb (UserRole_eqb (User.role actor) ADMIN)
  && negb (Product.user_id p =? User.id actor) = false
  <-> may_sell actor p.
Proof.
  unfold may_sell. rewrite andb_false_iff, !negb_false_iff, Z.eqb_eq.
  rewrite UserRole_eqb_eq. reflexivity.
Qed.

Lemma checked_line_Ok (db : Database) (actor : User.t)
  (line : InvoiceItemCreate.t) (v : ValidatedItem.t) :
  checked_line db actor line = Ok v ->
  exists p,
    product_service.first_product_with_id
      (InvoiceItemCreate.product_id line) db = Some p
    /\ may_sell actor p
    /\ InvoiceItemCreate.quantity line <= Product.quantity p
    /\ float_mul_int (invoice_service.effective_unit_price line p)
         (InvoiceItemCreate.quantity line)
       = Ok (ValidatedItem.item_total v)
    /\ v = ValidatedItem.mk (InvoiceItemCreate.product_id line)
             (InvoiceItemCreate.quantity line)
             (invoice_service.effective_unit_price line p)
             (ValidatedItem.item_total v).
Proof.
  unfold checked_line. intros Hv.
  destruct (product_service.first_product_with_id
              (InvoiceItemCreate.product_id line) db) as [p |] eqn:Hp;
    [| discriminate Hv].
  destruct (negb (UserRole_eqb (User.role actor) ADMIN)
            && negb (Product.user_id p =? User.id actor)) eqn:Hauth;
    [discriminate Hv |].
  destruct (Z.ltb_spec (Product.quantity p) (InvoiceItemCreate.quantity line))
    as [Hlt | Hge]; [discriminate Hv |].
  destruct (float_mul_int (invoice_service.effective_unit_price line p)
              (InvoiceItemCreate.quantity line)) as [t | e] eqn:Ht;
    [| discriminate Hv].
  inversion Hv; subst v. simpl.
  exists p. rewrite (first_product_with_id_id _ _ _ Hp).
  split; [reflexivity |]. split; [apply may_sell_checked, Hauth |].
  split; [exact Hge |]. split; [exact Ht | reflexivity].
Qed.

Lemma checked_line_Ok_passes (db : Database) (actor : User.t)
  (line : InvoiceItemCreate.t) (v : ValidatedItem.t) :
  checked_line db actor line = Ok v -> ~ fails_validation db actor line.
Proof.
  intros Hv. destruct (checked_line_Ok _ _ _ _ Hv) as (p & Hp & Hsell & Hq & _).
  intros [Habs | p' Hp' Hno | p' Hp' Hlt].
  - congruence.
  - assert (p' = p) by congruence. subst p'. apply Hno, Hsell.
  - assert (p' = p) by congruence. subst p'. lia.
Qed.

Lemma first_product_with_id_In (key : Z) (db : Database) (p : Product.t) :
  product_service.first_product_with_id key db = Some p -> In p (products db).
Proof.
  unfold product_service.first_product_with_id. intros Hfind.
  apply find_some in Hfind. apply Hfind.
Qed.

Lemma float_of_int_small (n : Z) :
  - 2 ^ 31 <= n < 2 ^ 31 -> exists x, float_of_int n = Ok x.
Proof.
  intros Hn. unfold float_of_int.
  assert (2 ^ 31 < DBL_OVERFLOW) as Hbig by (apply Z.ltb_lt; vm_compute; reflexivity).
  destruct (Z.leb_spec DBL_OVERFLOW (Z.abs n)) as [Hover | _]; [lia |].
  eexists; reflexivity.
Qed.

(** A line of a request the schema accepts, on stock that fits its column,
    raises one of the three validation errors or nothing. *)
Lemma checked_line_Raise (db : Database) (actor : User.t)
  (line : InvoiceItemCreate.t) (e : exn) :
  checked_line db actor line = Raise e ->
  InvoiceItemCreate_valid line = true ->
  columns_valid db = true ->
  validation_error db actor line e.
Proof.
  unfold checked_line. intros He Hline Hcols.
  destruct (product_service.first_product_with_id
              (InvoiceItemCreate.product_id line) db) as [p |] eqn:Hp.
  2: { inversion He; subst e. apply ProductNotFound. exact Hp. }
  destruct (negb (UserRole_eqb (User.role actor) ADMIN)
            && negb (Product.user_id p =? User.id actor)) eqn:Hauth.
  { inversion He; subst e. apply (Forbidden _ _ _ p Hp).
    rewrite <- may_sell_checked. congruence. }
  destruct (Z.ltb_spec (Product.quantity p) (InvoiceItemCreate.quantity line))
    as [Hlt | Hge].
  { inversion He; subst e. apply (InsufficientStock _ _ _ p Hp); [| exact Hlt].
    apply may_sell_checked, Hauth. }
  exfalso.
  unfold columns_valid in Hcols. rewrite forallb_forall in Hcols.
  specialize (Hcols p (first_product_with_id_In _ _ _ Hp)).
  unfold INTEGER in Hcols. apply andb_prop in Hcols. destruct Hcols as [Hlo Hhi].
  apply Z.leb_le in Hlo. apply Z.ltb_lt in Hhi.
  unfold InvoiceItemCreate_valid in Hline.
  apply andb_prop in Hline. destruct Hline as [Hline _].
  apply andb_prop in Hline. destruct Hline as [_ Hpos]. apply Z.ltb_lt in Hpos.
  unfold float_mul_int in He.
  destruct (float_of_int_small (InvoiceItemCreate.quantity line)) as [x Hx].
  { assert (0 < 2 ^ 31) by (apply Z.ltb_lt; vm_compute; reflexivity). lia. }
  rewrite Hx in He. discriminate He.
Qed.

Lemma check_lines_fails (db : Database) (actor : User.t)
  (lines : list InvoiceItemCreate.t) :
  Exists (fails_validation db actor) lines ->
  forall validated total,
  exists e, check_lines db actor lines validated total = Raise e.
Proof.
  induction lines as [| line rest IH]; intros Hex validated total.
  - inversion Hex.
  - simpl. destruct (checked_line db actor line) as [v | e] eqn:Hline.
    + apply IH. inversion Hex as [? ? Hfail | ? ? Hrest]; subst; [| exact Hrest].
      exfalso. eapply checked_line_Ok_passes; eassumption.
    + exists e. reflexivity.
Qed.

Lemma check_lines_first_error (db : Database) (actor : User.t)
  (lines : list InvoiceItemCreate.t) :
  forallb InvoiceItemCreate_valid lines = true ->
  columns_valid db = true ->
  forall validated total e,
    check_lines db actor lines validated total = Raise e ->
    exists before bad after,
      lines = (before ++ bad :: after)%list
      /\ Forall (fun l => ~ fails_validation db actor l) before
      /\ validation_error db actor bad e.
Proof.
  intros Hvalid Hcols.
  induction lines as [| line rest IH]; intros validated total e He.
  - discriminate He.
  - simpl in Hvalid. apply andb_prop in Hvalid. destruct Hvalid as [Hline Hrest].
    simpl in He. destruct (checked_line db actor line) as [v | e'] eqn:Hchk.
    + destruct (IH Hrest _ _ _ He) as (before & bad & after & -> & Hpass & Herr).
      exists (line :: before), bad, after.
      split; [reflexivity |]. split; [| exact Herr].
      constructor; [| exact Hpass].
      eapply checked_line_Ok_passes; eassumption.
    + inversion He; subst e'.
      exists [], line, rest.
      split; [reflexivity |]. split; [constructor |].
      apply checked_line_Raise; assumption.
Qed.

(** ** A request with a failing line *)

Lemma rollback_and_raise_database (e : exn) (s : Session) :
  exists e',
    invoice_service.rollback_and_raise e s = (Raise e', snd (session_rollback s))
    /\ (forall status detail, e = HTTPException status detail -> e' = e).
Proof.
  destruct e; eexists; (split; [reflexivity |]); intros status' detail' Heq;
    solve [reflexivity | discriminate Heq].
Qed.

Lemma validation_error_is_HTTPException (db : Database) (actor : User.t)
  (line : InvoiceItemCreate.t) (e : exn) :
  validation_error db actor line e ->
  exists status detail, e = HTTPException status detail.
Proof. intros [| |]; eauto. Qed.

(** C1.  When some line of the request fails validation (product absent,
    actor neither owner nor admin, or quantity above the stock),
    [create_invoice] raises and the database is left exactly as it was: no
    quantity, no invoice, no invoice item and no sequence has changed.  For a
    request the schema accepts, on stock that fits its INTEGER column, the
    exception is the validation error of the first failing line. *)
Theorem create_invoice_all_or_nothing (db : Database) (req : InvoiceCreate.t)
  (actor : User.t) (now : datetime) :
  Exists (fails_validation db actor) (InvoiceCreate.items req) ->
  exists e,
    serve (invoice_service.create_invoice req actor now) db = (Raise e, db)
    /\ (InvoiceCreate_valid req = true ->
        columns_valid db = true ->
        exists before bad after,
          InvoiceCreate.items req = (before ++ bad :: after)%list
          /\ Forall (fun l => ~ fails_validation db actor l) before
          /\ validation_error db actor bad e).
Proof.
  intros Hfail.
  destruct (check_lines_fails db actor _ Hfail [] 0%float) as [e0 He0].
  destruct (validate_items_clean db actor (InvoiceCreate.items req) [] 0%float
              (SessionLocal db) (clean_SessionLocal db))
    as (s' & Hrun & (Hdb & _) & _).
  { intros v []. }
  destruct (rollback_and_raise_database e0 s') as (e' & Hroll & Hsame).
  exists e'. split.
  - unfold serve, invoice_service.create_invoice, try_except, Mbind.
    rewrite Hrun, He0, Hroll. simpl. rewrite Hdb. reflexivity.
  - intros Hreq Hcols.
    unfold InvoiceCreate_valid in Hreq.
    apply andb_prop in Hreq. destruct Hreq as [_ Hlines].
    destruct (check_lines_first_error db actor _ Hlines Hcols _ _ _ He0)
      as (before & bad & after & Hsplit & Hpass & Herr).
    exists before, bad, after.
    split; [exact Hsplit |]. split; [exact Hpass |].
    destruct (validation_error_is_HTTPException _ _ _ _ Herr)
      as (status & detail & Heq).
    rewrite (Hsame _ _ Heq). exact Herr.
Qed.

Lemma create_invoice_all_or_nothing_witness :
  let req := InvoiceCreate.mk (Some "Ann")
               [InvoiceItemCreate.mk 7 3 None; InvoiceItemCreate.mk 99 1 None] in
  exists e,
    serve (invoice_service.create_invoice req U1 day1) (shop 10)
      = (Raise e, shop 10)
    /\ exists before bad after,
         InvoiceCreate.items req = (before ++ bad :: after)%list
         /\ Forall (fun l => ~ fails_validation (shop 10) U1 l) before
         /\ validation_error (shop 10) U1 bad e.
Proof.
  intros req.
  destruct (create_invoice_all_or_nothing (shop 10) req U1 day1) as (e & Hrun & Herr).
  - apply Exists_cons_tl, Exists_cons_hd, product_absent. reflexivity.
  - exists e. split; [exact Hrun |]. apply Herr; reflexivity.
Defined.

(** ** A line that asks for more than the stock *)

Lemma append_assoc (a b c : string) : (a +:+ b) +:+ c = a +:+ (b +:+ c).
Proof.
  induction a as [| ch a IH]; [reflexivity |].
  change (String ch ((a +:+ b) +:+ c) = String ch (a +:+ (b +:+ c))).
  f_equal. exact IH.
Qed.

Lemma append_nil_r (a : string) : a +:+ "" = a.
Proof.
  induction a as [| ch a IH]; [reflexivity |].
  change (String ch (a +:+ "") = String ch a).
  f_equal. exact IH.
Qed.

Lemma InsufficientStock_detail (name : string) (available requested : Z) :
  is_InsufficientStock
    (HTTPException 400
       ("Insufficient stock for product " +:+ name
        +:+ ". Available: " +:+ str_int available
        +:+ ", Requested: " +:+ str_int requested))
    available requested.
Proof.
  eexists. split; [reflexivity |]. split; [| split].
  - exists "", (" for product " +:+ name
                +:+ ". Available: " +:+ str_int available
                +:+ ", Requested: " +:+ str_int requested).
    reflexivity.
  - exists ("Insufficient stock for product " +:+ name +:+ ". "),
           (", Requested: " +:+ str_int requested).
    rewrite !append_assoc. reflexivity.
  - exists ("Insufficient stock for product " +:+ name
            +:+ ". Available: " +:+ str_int available +:+ ", "), "".
    rewrite !append_assoc, append_nil_r. reflexivity.
Qed.

(** C5, as stated, fails: a seller who does not own the product is answered
    403 by the ownership check, which precedes the stock check. *)
Lemma short_line_of_other_seller_is_forbidden :
  stock 7 (shop 2) = Some 2
  /\ serve (invoice_service.create_invoice (one_line 7 3 None) U2 day1) (shop 2)
     = (Raise (HTTPException 403 "Not authorized to sell product: Tea"), shop 2)
  /\ ~ every_short_line_raises_InsufficientStock.
Proof.
  split; [reflexivity |]. split; [vm_compute; reflexivity |].
  intros Hclaim.
  destruct (Hclaim (shop 2) (one_line 7 3 None) U2 day1
              (InvoiceItemCreate.mk 7 3 None) (set_quantity 2 P))
    as (e & Hrun & detail & He & _).
  - left. reflexivity.
  - reflexivity.
  - simpl. lia.
  - vm_compute in Hrun. subst e. inversion Hrun.
Qed.

Lemma validation_error_fails (db : Database) (actor : User.t)
  (line : InvoiceItemCreate.t) (e : exn) :
  validation_error db actor line e -> fails_validation db actor line.
Proof.
  intros [Habs | p Hp Hno | p Hp Hsell Hlt].
  - apply product_absent, Habs.
  - apply (not_owner_nor_admin _ _ _ p Hp Hno).
  - apply (exceeds_stock _ _ _ p Hp Hlt).
Qed.

Lemma checked_line_passes (db : Database) (actor : User.t)
  (line : InvoiceItemCreate.t) :
  ~ fails_validation db actor line ->
  InvoiceItemCreate_valid line = true ->
  columns_valid db = true ->
  exists v, checked_line db actor line = Ok v.
Proof.
  intros Hpass Hline Hcols.
  destruct (checked_line db actor line) as [v | e] eqn:Hchk; [eauto |].
  exfalso. apply Hpass.
  eapply validation_error_fails, checked_line_Raise; eassumption.
Qed.

Lemma check_lines_skip_passing (db : Database) (actor : User.t)
  (before rest : list InvoiceItemCreate.t) :
  Forall (fun l => ~ fails_validation db actor l) before ->
  forallb InvoiceItemCreate_valid before = true ->
  columns_valid db = true ->
  forall validated total,
  exists validated' total',
    check_lines db actor (before ++ rest) validated total
    = check_lines db actor rest validated' total'.
Proof.
  intros Hpass Hvalid Hcols.
  induction before as [| l before IH]; intros validated total.
  - exists validated, total. reflexivity.
  - simpl in Hvalid. apply andb_prop in Hvalid. destruct Hvalid as [Hl Hrest].
    inversion Hpass as [| ? ? Hl_pass Hbefore]; subst.
    destruct (checked_line_passes db actor l Hl_pass Hl Hcols) as [v Hv].
    simpl. rewrite Hv. apply IH; assumption.
Qed.

(** C5, amended.  For a request the schema accepts, on stock that fits its
    column: when every earlier line passes validation and the line names a
    product the actor may sell whose quantity is below the requested one,
    [create_invoice] raises the InsufficientStock error, a 400 whose detail
    gives the available and the requested counts, and the database is left
    exactly as it was. *)
Theorem short_line_raises_InsufficientStock (db : Database)
  (req : InvoiceCreate.t) (actor : User.t) (now : datetime)
  (before after : list InvoiceItemCreate.t) (line : InvoiceItemCreate.t)
  (p : Product.t) :
  InvoiceCreate_valid req = true ->
  columns_valid db = true ->
  InvoiceCreate.items req = (before ++ line :: after)%list ->
  Forall (fun l => ~ fails_validation db actor l) before ->
  product_service.first_product_with_id
    (InvoiceItemCreate.product_id line) db = Some p ->
  may_sell actor p ->
  Product.quantity p < InvoiceItemCreate.quantity line ->
  serve (invoice_service.create_invoice req actor now) db
    = (Raise (HTTPException 400
                ("Insufficient stock for product " +:+ Product.name p
                 +:+ ". Available: " +:+ str_int (Product.quantity p)
                 +:+ ", Requested: "
                 +:+ str_int (InvoiceItemCreate.quantity line))),
       db)
  /\ is_InsufficientStock
       (HTTPException 400
          ("Insufficient stock for product " +:+ Product.name p
           +:+ ". Available: " +:+ str_int (Product.quantity p)
           +:+ ", Requested: " +:+ str_int (InvoiceItemCreate.quantity line)))
       (Product.quantity p) (InvoiceItemCreate.quantity line).
Proof.
  intros Hreq Hcols Hsplit Hpass Hp Hsell Hlt.
  split; [| apply InsufficientStock_detail].
  unfold InvoiceCreate_valid in Hreq.
  apply andb_prop in Hreq. destruct Hreq as [_ Hlines].
  rewrite Hsplit in Hlines. rewrite forallb_app in Hlines.
  apply andb_prop in Hlines. destruct Hlines as [Hbefore _].
  destruct (check_lines_skip_passing db actor before (line :: after)
              Hpass Hbefore Hcols [] 0%float) as (validated' & total' & Hskip).
  destruct (validate_items_clean db actor (InvoiceCreate.items req) [] 0%float
              (SessionLocal db) (clean_SessionLocal db))
    as (s' & Hrun & (Hdb & _) & _).
  { intros v []. }
  unfold serve, invoice_service.create_invoice, try_except, Mbind.
  rewrite Hrun, Hsplit, Hskip. simpl. unfold checked_line. rewrite Hp.
  apply may_sell_checked in Hsell. rewrite Hsell.
  apply Z.ltb_lt in Hlt. rewrite Hlt. simpl. rewrite Hdb. reflexivity.
Qed.

Lemma short_line_raises_InsufficientStock_witness :
  serve (invoice_service.create_invoice (one_line 7 3 None) U1 day1) (shop 2)
    = (Raise (HTTPException 400
                "Insufficient stock for product Tea. Available: 2, Requested: 3"),
       shop 2).
Proof.
  refine (proj1 (short_line_raises_InsufficientStock (shop 2)
                   (one_line 7 3 None) U1 day1 [] []
                   (InvoiceItemCreate.mk 7 3 None) (set_quantity 2 P)
                   eq_refl eq_refl eq_refl (List.Forall_nil _) eq_refl _ _)).
  - right. reflexivity.
  - simpl. lia.
Defined.

(** ** A request that succeeds *)

Lemma check_lines_Ok (db : Database) (actor : User.t)
  (lines : list InvoiceItemCreate.t) :
  forall validated total vs t,
    check_lines db actor lines validated total = Ok (vs, t) ->
    exists added,
      vs = (validated ++ added)%list
      /\ Forall2 (fun line v => checked_line db actor line = Ok v) lines added
      /\ t = fold_left (fun acc v => (acc + ValidatedItem.item_total v)%float)
                added total.
Proof.
  induction lines as [| line rest IH]; intros validated total vs t Hrun.
  - inversion Hrun; subst. exists []. rewrite app_nil_r.
    split; [reflexivity |]. split; [constructor | reflexivity].
  - simpl in Hrun. destruct (checked_line db actor line) as [v | e] eqn:Hv;
      [| discriminate Hrun].
    destruct (IH _ _ _ _ Hrun) as (added & -> & Hall & ->).
    exists (v :: added). rewrite <- app_assoc.
    split; [reflexivity |]. split; [constructor; assumption | reflexivity].
Qed.

Lemma add_items_run (db_invoice : Invoice.t) (key : Z) :
  Invoice.id db_invoice = Some key ->
  forall (validated : list ValidatedItem.t) (s : Session),
    invoice_service.add_items db_invoice validated s
    = (Ok tt,
       {| database := database s;
          identity_map := fold_left decrement validated (identity_map s);
          flushed := flushed s;
          new := new s ++ map (item_of key) validated;
          executed := executed s |}).
Proof.
  intros Hkey. induction validated as [| v rest IH]; intros s.
  - simpl. rewrite app_nil_r. destruct s; reflexivity.
  - simpl. unfold Mbind at 1. rewrite Hkey. unfold ret at 1.
    unfold Mbind at 1. unfold session_add at 1.
    unfold Mbind at 1. unfold product_quantity_isub at 1.
    rewrite IH. simpl. rewrite <- app_assoc. reflexivity.
Qed.

Lemma insert_items_Ok (objs : list InvoiceItem.t) :
  forall table seq table' seq',
    insert_items objs table seq = (Ok table', seq') ->
    exists rows,
      table' = (table ++ rows)%list /\ Forall2 stored_as objs rows.
Proof.
  induction objs as [| obj rest IH]; intros table seq table' seq' Hrun.
  - inversion Hrun; subst. exists []. rewrite app_nil_r.
    split; [reflexivity | constructor].
  - simpl in Hrun.
    destruct (item_key_taken (next_val seq) table); [discriminate Hrun |].
    destruct (IH _ _ _ _ Hrun) as (rows & -> & Hall).
    eexists (_ :: rows). rewrite <- app_assoc.
    split; [reflexivity |].
    constructor; [eexists; reflexivity | exact Hall].
Qed.

Lemma set_quantity_same (p : Product.t) : set_quantity (Product.quantity p) p = p.
Proof. destruct p; reflexivity. Qed.

Lemma sub_quantity_0 (inst : Instance) : sub_quantity 0 inst = inst.
Proof.
  destruct inst as [old cur]. unfold sub_quantity. simpl.
  rewrite Z.sub_0_r, set_quantity_same. reflexivity.
Qed.

Lemma sub_quantity_sub_quantity (a b : Z) (inst : Instance) :
  sub_quantity b (sub_quantity a inst) = sub_quantity (a + b) inst.
Proof.
  destruct inst as [old cur]. unfold sub_quantity, set_quantity. simpl.
  do 2 f_equal. lia.
Qed.

Lemma taken_cons (key : Z) (v : ValidatedItem.t) (rest : list ValidatedItem.t) :
  taken key (v :: rest)
  = if ValidatedItem.product v =? key
    then ValidatedItem.quantity v + taken key rest
    else taken key rest.
Proof.
  unfold taken. simpl.
  destruct (ValidatedItem.product v =? key); reflexivity.
Qed.

(** After the second loop every object has lost what the validated lines
    sell of it. *)
Lemma lookup_decrement (validated : list ValidatedItem.t) :
  forall (im : gmap Z Instance) (key : Z),
    fold_left decrement validated im !! key
    = sub_quantity (taken key validated) <$> im !! key.
Proof.
  induction validated as [| v rest IH]; intros im key.
  - simpl. destruct (im !! key) as [inst |]; simpl; [| reflexivity].
    unfold taken. simpl. rewrite sub_quantity_0. reflexivity.
  - simpl. rewrite IH, taken_cons. unfold decrement.
    destruct (Z.eqb_spec (ValidatedItem.product v) key) as [-> | Hne].
    + rewrite lookup_alter_eq.
      destruct (im !! key) as [inst |]; simpl; [| reflexivity].
      rewrite sub_quantity_sub_quantity. reflexivity.
    + rewrite lookup_alter_ne by exact Hne. reflexivity.
Qed.

(** The UPDATE for an object that differs from its row in the quantity only
    stores that quantity. *)
Lemma write_changes_quantity (row : Product.t) (n : Z) :
  write_changes {| loaded := row; current := set_quantity n row |} row
  = set_quantity n row.
Proof.
  assert (forall (A : Type) (b : bool) (x : A), (if b then x else x) = x)
    as Hif by (intros A [] x; reflexivity).
  unfold write_changes, set_quantity. simpl. rewrite !Hif.
  destruct (bool_decide (Product.quantity row = n)) eqn:Hq; [| reflexivity].
  apply bool_decide_eq_true_1 in Hq. rewrite Hq. reflexivity.
Qed.

Lemma flush_row_id (im : gmap Z Instance) (row : Product.t) :
  Product.id (flush_row im row) = Product.id row.
Proof.
  unfold flush_row. destruct (im !! Product.id row); reflexivity.
Qed.

Lemma find_map_flush_row (im : gmap Z Instance) (key : Z)
  (rows : list Product.t) :
  List.find (fun p => Product.id p =? key) (map (flush_row im) rows)
  = flush_row im <$> List.find (fun p => Product.id p =? key) rows.
Proof.
  induction rows as [| row rest IH]; [reflexivity |].
  simpl. rewrite flush_row_id.
  destruct (Product.id row =? key); [reflexivity | exact IH].
Qed.

Lemma find_invoice_appended (key : Z) (rows : list Invoice.t) (row : Invoice.t) :
  invoice_key_taken key rows = false ->
  Invoice.id row = Some key ->
  List.find (fun i => bool_decide (Invoice.id i = Some key)) (rows ++ [row])
  = Some row.
Proof.
  intros Hfree Hrow. induction rows as [| r rest IH].
  - simpl. rewrite bool_decide_eq_true_2 by exact Hrow. reflexivity.
  - simpl in *. apply orb_false_iff in Hfree. destruct Hfree as [Hr Hrest].
    rewrite Hr. apply IH, Hrest.
Qed.

Lemma try_rollback_Ok (m : M Invoice.t) (s s' : Session) (inv : Invoice.t) :
  try_except m invoice_service.rollback_and_raise s = (Ok inv, s') ->
  m s = (Ok inv, s').
Proof.
  unfold try_except. destruct (m s) as [[a | e] s1]; [auto |].
  destruct (rollback_and_raise_database e s1) as (e' & Hroll & _).
  rewrite Hroll. discriminate.
Qed.

(** What the writing half of [create_invoice] leaves when it returns. *)
Lemma write_invoice_Ok (req : InvoiceCreate.t) (actor : User.t)
  (now : datetime) (vs : list ValidatedItem.t) (total : float)
  (s s' : Session) (inv : Invoice.t) :
  flushed s = [] -> new s = [] ->
  invoice_service.write_invoice req actor now (vs, total) s = (Ok inv, s') ->
  let key := next_val (invoices_id_seq (database s)) in
  inv = Invoice.mk (Some key) (User.id actor) (InvoiceCreate.customer_name req)
          total now
  /\ products (database s')
     = map (flush_row (fold_left decrement vs (identity_map s)))
         (products (database s))
  /\ invoices (database s') = (invoices (database s) ++ [inv])%list
  /\ exists rows,
       invoice_items (database s')
       = (invoice_items (database s) ++ rows)%list
       /\ Forall2 stored_as (map (item_of key) vs) rows.
Proof.
  intros Hflushed Hnew Hrun key.
  unfold invoice_service.write_invoice in Hrun.
  unfold Mbind at 1 in Hrun. unfold session_add_flush in Hrun.
  simpl in Hrun. rewrite Hflushed, app_nil_r in Hrun.
  fold key in Hrun.
  destruct (invoice_key_taken key (invoices (database s))) eqn:Hfree;
    [discriminate Hrun |].
  unfold Mbind at 1 in Hrun.
  rewrite (add_items_run (Invoice.mk (Some key) _ _ _ _) key eq_refl) in Hrun.
  simpl in Hrun.
  rewrite Hnew in Hrun. simpl in Hrun.
  unfold Mbind at 1 in Hrun. unfold session_commit in Hrun. simpl in Hrun.
  destruct (insert_items (map (item_of key) vs) (invoice_items (database s))
              (invoice_items_id_seq (database s)))
    as [[table | e] seq] eqn:Hins; [| discriminate Hrun].
  destruct (insert_items_Ok _ _ _ _ _ Hins) as (rows & -> & Hrows).
  unfold session_refresh in Hrun. simpl in Hrun.
  rewrite (find_invoice_appended key) in Hrun by (assumption || reflexivity).
  inversion Hrun; subst inv s'. simpl.
  split; [reflexivity |]. split; [reflexivity |]. split; [reflexivity |].
  exists rows. split; [reflexivity | exact Hrows].
Qed.

Lemma taken_absent (key : Z) (vs : list ValidatedItem.t) :
  (forall v, In v vs -> ValidatedItem.product v <> key) -> taken key vs = 0.
Proof.
  induction vs as [| v rest IH]; intros Hno; [reflexivity |].
  rewrite taken_cons.
  destruct (Z.eqb_spec (ValidatedItem.product v) key) as [Heq | _].
  - exfalso. apply (Hno v); [left; reflexivity | exact Heq].
  - apply IH. intros w Hw. apply Hno. right. exact Hw.
Qed.

(** The outcome of a call that returns: the lines all passed the checks, the
    invoice and one item per validated line were appended, and every product
    lost what the validated lines take of it. *)
Lemma create_invoice_Ok (db db' : Database) (req : InvoiceCreate.t)
  (actor : User.t) (now : datetime) (inv : Invoice.t) :
  serve (invoice_service.create_invoice req actor now) db = (Ok inv, db') ->
  let key := next_val (invoices_id_seq db) in
  exists vs total rows,
    check_lines db actor (InvoiceCreate.items req) [] 0%float = Ok (vs, total)
    /\ inv = Invoice.mk (Some key) (User.id actor)
               (InvoiceCreate.customer_name req) total now
    /\ invoices db' = (invoices db ++ [inv])%list
    /\ invoice_items db' = (invoice_items db ++ rows)%list
    /\ Forall2 stored_as (map (item_of key) vs) rows
    /\ forall k p,
         product_service.first_product_with_id k db = Some p ->
         product_service.first_product_with_id k db'
         = Some (set_quantity (Product.quantity p - taken k vs) p).
Proof.
  intros Hserve key.
  destruct (validate_items_clean db actor (InvoiceCreate.items req) [] 0%float
              (SessionLocal db) (clean_SessionLocal db))
    as (s1 & Hrun & (Hdb & Hflushed & Hnew & Hobj) & Hheld).
  { intros v []. }
  unfold serve in Hserve.
  destruct (invoice_service.create_invoice req actor now (SessionLocal db))
    as [r s'] eqn:Hcall.
  inversion Hserve; subst r db'. clear Hserve.
  apply try_rollback_Ok in Hcall.
  unfold Mbind in Hcall. rewrite Hrun in Hcall.
  destruct (check_lines db actor (InvoiceCreate.items req) [] 0%float)
    as [[vs total] | e] eqn:Hchk; [| discriminate Hcall].
  destruct (write_invoice_Ok _ _ _ _ _ _ _ _ Hflushed Hnew Hcall)
    as (Hinv & Hprod & Hinvs & rows & Hitems & Hrows).
  rewrite Hdb in Hinv, Hprod, Hinvs, Hitems, Hrows. fold key in Hinv, Hrows.
  exists vs, total, rows.
  split; [reflexivity |]. split; [exact Hinv |]. split; [exact Hinvs |].
  split; [exact Hitems |]. split; [exact Hrows |].
  intros k p Hp.
  unfold product_service.first_product_with_id in *.
  rewrite Hprod, find_map_flush_row, Hp. simpl. f_equal.
  pose proof (first_product_with_id_id k db p Hp) as Hid.
  unfold flush_row. rewrite Hid, lookup_decrement.
  destruct (identity_map s1 !! k) as [inst |] eqn:Hinst; simpl.
  - destruct (Hobj k inst Hinst) as [Hloaded Hcur].
    unfold product_service.first_product_with_id in Hloaded.
    assert (loaded inst = p) as Hl by congruence.
    destruct inst as [old cur]. simpl in *. subst old cur.
    unfold sub_quantity. simpl. apply write_changes_quantity.
  - rewrite taken_absent; [rewrite Z.sub_0_r, set_quantity_same; reflexivity |].
    intros v Hv Heq. destruct (Hheld vs total eq_refl v Hv) as [inst Hin].
    rewrite Heq in Hin. congruence.
Qed.

Lemma Forall2_through_map {A B C D : Type} (R1 : A -> B -> Prop)
  (R2 : C -> D -> Prop) (f : B -> C) (xs : list A) :
  forall (ys : list B) (zs : list D),
    Forall2 R1 xs ys -> Forall2 R2 (map f ys) zs ->
    Forall2 (fun x z => exists y, R1 x y /\ R2 (f y) z) xs zs.
Proof.
  induction xs as [| x xs IH]; intros ys zs H1 H2.
  - inversion H1; subst. inversion H2; subst. constructor.
  - inversion H1 as [| ? y ? ys' Hxy Hrest]; subst.
    simpl in H2. inversion H2 as [| ? z ? zs' Hyz Hrest2]; subst.
    constructor; [exists y; split; assumption |].
    apply (IH ys' zs'); assumption.
Qed.

Lemma lines_validated (db db' : Database) (req : InvoiceCreate.t)
  (actor : User.t) (now : datetime) (inv : Invoice.t) :
  serve (invoice_service.create_invoice req actor now) db = (Ok inv, db') ->
  exists vs rows,
    Forall2 (fun line v => checked_line db actor line = Ok v)
      (InvoiceCreate.items req) vs
    /\ Invoice.total_price inv
       = fold_left (fun acc v => (acc + ValidatedItem.item_total v)%float)
           vs 0%float
    /\ Invoice.id inv = Some (next_val (invoices_id_seq db))
    /\ invoices db' = (invoices db ++ [inv])%list
    /\ invoice_items db' = (invoice_items db ++ rows)%list
    /\ Forall2 stored_as (map (item_of (next_val (invoices_id_seq db))) vs) rows
    /\ forall k p,
         product_service.first_product_with_id k db = Some p ->
         product_service.first_product_with_id k db'
         = Some (set_quantity (Product.quantity p - taken k vs) p).
Proof.
  intros Hserve.
  destruct (create_invoice_Ok _ _ _ _ _ _ Hserve)
    as (vs & total & rows & Hchk & Hinv & Hinvs & Hitems & Hrows & Hstock).
  destruct (check_lines_Ok _ _ _ _ _ _ _ Hchk) as (added & Hvs & Hall & Htotal).
  simpl in Hvs. subst vs total.
  exists added, rows. rewrite Hinv at 1 2. simpl.
  repeat (split; [first [assumption | reflexivity] |]). exact Hstock.
Qed.

(** C4.  On every invoice item of a created invoice the recorded unit price
    is the caller's [unit_price] when the line carries one that is not zero,
    and the price the product has at that moment otherwise; a line with an
    explicit [unit_price] of 0 is recorded at the product's price. *)
Theorem invoice_items_record_effective_unit_price (db db' : Database)
  (req : InvoiceCreate.t) (actor : User.t) (now : datetime) (inv : Invoice.t) :
  serve (invoice_service.create_invoice req actor now) db = (Ok inv, db') ->
  exists rows,
    invoice_items db' = (invoice_items db ++ rows)%list
    /\ Forall2
         (fun line row =>
            exists p,
              product_service.first_product_with_id
                (InvoiceItemCreate.product_id line) db = Some p
              /\ Invoice.id inv = Some (InvoiceItem.invoice_id row)
              /\ InvoiceItem.product_id row = InvoiceItemCreate.product_id line
              /\ InvoiceItem.quantity row = InvoiceItemCreate.quantity line
              /\ InvoiceItem.unit_price row
                 = match InvoiceItemCreate.unit_price line with
                   | Some x =>
                     if PrimFloat.eqb x 0%float then Product.price p else x
                   | None => Product.price p
                   end
              /\ (InvoiceItemCreate.unit_price line = Some 0%float ->
                  InvoiceItem.unit_price row = Product.price p))
         (InvoiceCreate.items req) rows.
Proof.
  intros Hserve.
  destruct (lines_validated _ _ _ _ _ _ Hserve)
    as (vs & rows & Hall & _ & Hid & _ & Hitems & Hrows & _).
  exists rows. split; [exact Hitems |].
  eapply Forall2_impl;
    [apply (Forall2_through_map _ _ _ _ _ _ Hall Hrows) |].
  intros line row (v & Hv & key & ->).
  destruct (checked_line_Ok _ _ _ _ Hv) as (p & Hp & _ & _ & _ & Hfields).
  exists p. rewrite Hfields. simpl.
  split; [exact Hp |]. split; [exact Hid |].
  split; [reflexivity |]. split; [reflexivity |].
  assert (invoice_service.effective_unit_price line p
          = match InvoiceItemCreate.unit_price line with
            | Some x => if PrimFloat.eqb x 0%float then Product.price p else x
            | None => Product.price p
            end) as Hprice.
  { unfold invoice_service.effective_unit_price, float_truthy.
    destruct (InvoiceItemCreate.unit_price line) as [x |]; [| reflexivity].
    destruct (PrimFloat.eqb x 0%float); reflexivity. }
  split; [exact Hprice |].
  intros Hzero. rewrite Hprice, Hzero. reflexivity.
Qed.

Lemma invoice_items_record_effective_unit_price_witness :
  let req := InvoiceCreate.mk None
               [InvoiceItemCreate.mk 7 1 (Some price_9_99);
                InvoiceItemCreate.mk 7 2 (Some 0%float);
                InvoiceItemCreate.mk 7 3 None] in
  let sale := serve (invoice_service.create_invoice req U1 day1) (shop 10) in
  map InvoiceItem.unit_price (invoice_items (snd sale))
    = [price_9_99; 5%float; 5%float]
  /\ exists rows,
       invoice_items (snd sale) = (invoice_items (shop 10) ++ rows)%list
       /\ Forall2
            (fun line row =>
               exists p,
                 product_service.first_product_with_id
                   (InvoiceItemCreate.product_id line) (shop 10) = Some p
                 /\ Some 1 = Some (InvoiceItem.invoice_id row)
                 /\ InvoiceItem.product_id row = InvoiceItemCreate.product_id line
                 /\ InvoiceItem.quantity row = InvoiceItemCreate.quantity line
                 /\ InvoiceItem.unit_price row
                    = match InvoiceItemCreate.unit_price line with
                      | Some x =>
                        if PrimFloat.eqb x 0%float then Product.price p else x
                      | None => Product.price p
                      end
                 /\ (InvoiceItemCreate.unit_price line = Some 0%float ->
                     InvoiceItem.unit_price row = Product.price p))
            (InvoiceCreate.items req) rows.
Proof.
  intros req sale. split; [vm_compute; reflexivity |].
  apply (invoice_items_record_effective_unit_price (shop 10) (snd sale) req U1
           day1
           (Invoice.mk (Some 1) 1 None
              (0 + price_9_99 * 1 + 5 * 2 + 5 * 3)%float day1)).
  vm_compute. reflexivity.
Defined.

Lemma fold_left_item_totals (vs : list ValidatedItem.t) :
  forall total,
    fold_left (fun acc v => (acc + ValidatedItem.item_total v)%float) vs total
    = fold_left (fun acc t => (acc + t)%float)
        (map ValidatedItem.item_total vs) total.
Proof.
  induction vs as [| v rest IH]; intros total; [reflexivity |].
  simpl. apply IH.
Qed.

Lemma taken_sold (db : Database) (actor : User.t) (key : Z)
  (lines : list InvoiceItemCreate.t) :
  forall vs,
    Forall2 (fun line v => checked_line db actor line = Ok v) lines vs ->
    taken key vs = sold key lines.
Proof.
  induction lines as [| line rest IH]; intros vs Hall.
  - inversion Hall; subst. reflexivity.
  - inversion Hall as [| ? v ? vs' Hv Hrest]; subst.
    destruct (checked_line_Ok _ _ _ _ Hv) as (p & _ & _ & _ & _ & Hfields).
    rewrite taken_cons, (IH vs' Hrest), Hfields. simpl.
    unfold sold. simpl.
    destruct (InvoiceItemCreate.product_id line =? key); reflexivity.
Qed.

Lemma line_totals (db : Database) (actor : User.t)
  (lines : list InvoiceItemCreate.t) :
  forall vs,
    Forall2 (fun line v => checked_line db actor line = Ok v) lines vs ->
    Forall2
      (fun line t =>
         exists p,
           product_service.first_product_with_id
             (InvoiceItemCreate.product_id line) db = Some p
           /\ line_total (invoice_service.effective_unit_price line p)
                (InvoiceItemCreate.quantity line) t)
      lines (map ValidatedItem.item_total vs).
Proof.
  induction lines as [| line rest IH]; intros vs Hall.
  - inversion Hall; subst. constructor.
  - inversion Hall as [| ? v ? vs' Hv Hrest]; subst.
    destruct (checked_line_Ok _ _ _ _ Hv) as (p & Hp & _ & _ & Ht & _).
    simpl. constructor; [| apply IH, Hrest].
    exists p. split; [exact Hp | exact Ht].
Qed.

Lemma effective_unit_price_cases (line : InvoiceItemCreate.t) (p : Product.t) :
  invoice_service.effective_unit_price line p
  = match InvoiceItemCreate.unit_price line with
    | Some x => if PrimFloat.eqb x 0%float then Product.price p else x
    | None => Product.price p
    end.
Proof.
  unfold invoice_service.effective_unit_price, float_truthy.
  destruct (InvoiceItemCreate.unit_price line) as [x |]; [| reflexivity].
  destruct (PrimFloat.eqb x 0%float); reflexivity.
Qed.

(** C6.  For a created invoice: the stored [total_price] is the sum, taken
    in line order from 0.0, of the line totals, each the effective unit price
    of the line times its quantity, where the effective unit price is the
    caller's [unit_price] when the line carries one that is not zero and the
    product's price as stored before the call otherwise; the invoice is the
    row appended to the invoices; and every product comes out with its
    quantity lowered by exactly what the lines of the request sell of it, its
    other columns untouched. *)
Theorem created_invoice_total_and_stock (db db' : Database)
  (req : InvoiceCreate.t) (actor : User.t) (now : datetime) (inv : Invoice.t) :
  serve (invoice_service.create_invoice req actor now) db = (Ok inv, db') ->
  (exists totals,
     Forall2
       (fun line t =>
          exists p,
            product_service.first_product_with_id
              (InvoiceItemCreate.product_id line) db = Some p
            /\ line_total
                 match InvoiceItemCreate.unit_price line with
                 | Some x =>
                   if PrimFloat.eqb x 0%float then Product.price p else x
                 | None => Product.price p
                 end
                 (InvoiceItemCreate.quantity line) t)
       (InvoiceCreate.items req) totals
     /\ Invoice.total_price inv = sum_of totals)
  /\ invoices db' = (invoices db ++ [inv])%list
  /\ (forall key p,
        product_service.first_product_with_id key db = Some p ->
        product_service.first_product_with_id key db'
        = Some (set_quantity
                  (Product.quantity p - sold key (InvoiceCreate.items req)) p))
  /\ (forall key q,
        stock key db = Some q ->
        stock key db' = Some (q - sold key (InvoiceCreate.items req))).
Proof.
  intros Hserve.
  destruct (lines_validated _ _ _ _ _ _ Hserve)
    as (vs & rows & Hall & Htotal & _ & Hinvs & _ & _ & Hstock).
  assert (forall key p,
            product_service.first_product_with_id key db = Some p ->
            product_service.first_product_with_id key db'
            = Some (set_quantity
                      (Product.quantity p - sold key (InvoiceCreate.items req)) p))
    as Hrows.
  { intros key p Hp. rewrite (Hstock key p Hp).
    rewrite (taken_sold db actor key _ vs Hall). reflexivity. }
  split; [| split; [exact Hinvs | split; [exact Hrows |]]].
  - exists (map ValidatedItem.item_total vs). split.
    + eapply Forall2_impl; [apply (line_totals db actor), Hall |].
      intros line t (p & Hp & Ht). exists p. split; [exact Hp |].
      rewrite <- effective_unit_price_cases. exact Ht.
    + rewrite Htotal. apply fold_left_item_totals.
  - intros key q Hq. unfold stock in *.
    destruct (product_service.first_product_with_id key db) as [p |] eqn:Hp;
      [| discriminate Hq].
    rewrite (Hrows key p Hp). simpl in *. congruence.
Qed.

(** Lines that name the same product are checked against the same stock
    and are all taken off it: two lines of 6 on a stock of 10 pass, and the
    quantity ends at -2. *)
Example lines_on_one_product_add_up :
  let req := InvoiceCreate.mk None
               [InvoiceItemCreate.mk 7 6 None; InvoiceItemCreate.mk 7 6 None] in
  let sale := serve (invoice_service.create_invoice req U1 day1) (shop 10) in
  sold 7 (InvoiceCreate.items req) = 12
  /\ Invoice.total_price <$> invoices (snd sale) = [60%float]
  /\ stock 7 (snd sale) = Some (-2).
Proof. vm_compute. repeat split. Qed.

(** The scenario of the specification: 3 units at 5.00 from a stock of 10
    give a total of 15.00 and leave 7.  And a request whose lines are priced
    three ways: 4 units at the caller's 2.50, 2 units at an explicit 0 and 1
    unit without a price, both at the product's 5.00, give
    10.00 + 10.00 + 5.00 = 25.00 and leave 3. *)
Lemma created_invoice_total_and_stock_witness :
  let sale := serve (invoice_service.create_invoice (one_line 7 3 None) U1 day1)
                (shop 10) in
  let priced := InvoiceCreate.mk None
                  [InvoiceItemCreate.mk 7 4 (Some 2.5%float);
                   InvoiceItemCreate.mk 7 2 (Some 0%float);
                   InvoiceItemCreate.mk 7 1 None] in
  let sale' := serve (invoice_service.create_invoice priced U1 day1) (shop 10) in
  sale = (Ok (Invoice.mk (Some 1) 1 None 15%float day1),
          mk_Database [set_quantity 7 P]
            [Invoice.mk (Some 1) 1 None 15%float day1]
            [InvoiceItem.mk (Some 1) 1 7 3 5%float] 1 1)
  /\ (exists totals,
        Forall2
          (fun line t =>
             exists p,
               product_service.first_product_with_id
                 (InvoiceItemCreate.product_id line) (shop 10) = Some p
               /\ line_total
                    match InvoiceItemCreate.unit_price line with
                    | Some x =>
                      if PrimFloat.eqb x 0%float then Product.price p else x
                    | None => Product.price p
                    end
                    (InvoiceItemCreate.quantity line) t)
          [InvoiceItemCreate.mk 7 3 None] totals
        /\ 15%float = sum_of totals)
  /\ stock 7 (snd sale) = Some (10 - 3)
  /\ fst sale' = Ok (Invoice.mk (Some 1) 1 None 25%float day1)
  /\ (exists totals,
        Forall2
          (fun line t =>
             exists p,
               product_service.first_product_with_id
                 (InvoiceItemCreate.product_id line) (shop 10) = Some p
               /\ line_total
                    match InvoiceItemCreate.unit_price line with
                    | Some x =>
                      if PrimFloat.eqb x 0%float then Product.price p else x
                    | None => Product.price p
                    end
                    (InvoiceItemCreate.quantity line) t)
          (InvoiceCreate.items priced) totals
        /\ 25%float = sum_of totals)
  /\ stock 7 (snd sale') = Some (10 - 7).
Proof.
  intros sale priced sale'.
  pose proof (created_invoice_total_and_stock (shop 10) (snd sale)
                (one_line 7 3 None) U1 day1
                (Invoice.mk (Some 1) 1 None 15%float day1))
    as Hsale.
  destruct Hsale as (Htotal & _ & _ & Hstock); [vm_compute; reflexivity |].
  pose proof (created_invoice_total_and_stock (shop 10) (snd sale')
                priced U1 day1
                (Invoice.mk (Some 1) 1 None 25%float day1))
    as Hsale'.
  destruct Hsale' as (Htotal' & _ & _ & Hstock'); [vm_compute; reflexivity |].
  split; [vm_compute; reflexivity |].
  split; [exact Htotal |].
  split; [apply (Hstock 7 10); reflexivity |].
  split; [vm_compute; reflexivity |].
  split; [exact Htotal' |].
  apply (Hstock' 7 10). reflexivity.
Defined.

(** ** Two calls on one product *)

Lemma set_database_same (s : Session) : set_database (database s) s = s.
Proof. destruct s; reflexivity. Qed.

(** A call stepped twice with nothing in between is the call served on its
    own. *)
Lemma two_steps_serve (c : Interleaving.call) (db : Database) :
  let '(st1, db1) := Interleaving.step c Interleaving.Pending db in
  let '(st2, db2) := Interleaving.step c st1 db1 in
  (st2, db2)
  = (Interleaving.Returned
       (fst (serve (invoice_service.create_invoice
                      (Interleaving.invoice_data c)
                      (Interleaving.current_user c)
                      (Interleaving.utcnow c)) db)),
     snd (serve (invoice_service.create_invoice
                   (Interleaving.invoice_data c)
                   (Interleaving.current_user c)
                   (Interleaving.utcnow c)) db)).
Proof.
  unfold Interleaving.step, serve, invoice_service.create_invoice, try_except,
    Mbind.
  destruct (invoice_service.validate_items (Interleaving.current_user c)
              (InvoiceCreate.items (Interleaving.invoice_data c)) [] 0%float
              (SessionLocal db)) as [[validated | e] s].
  - rewrite set_database_same.
    destruct (invoice_service.write_invoice (Interleaving.invoice_data c)
                (Interleaving.current_user c) (Interleaving.utcnow c)
                validated s) as [[inv | e] s'].
    + reflexivity.
    + destruct (invoice_service.rollback_and_raise e s'); reflexivity.
  - destruct (invoice_service.rollback_and_raise e s); reflexivity.
Qed.

Lemma first_steps_twice (c1 c2 : Interleaving.call) (db : Database)
  (other : Interleaving.progress) :
  let sale := serve (invoice_service.create_invoice
                       (Interleaving.invoice_data c1)
                       (Interleaving.current_user c1)
                       (Interleaving.utcnow c1)) db in
  Interleaving.run_step c1 c2
    (Interleaving.run_step c1 c2
       (Interleaving.mk_config db Interleaving.Pending other) true) true
  = Interleaving.mk_config (snd sale) (Interleaving.Returned (fst sale)) other.
Proof.
  intros sale. unfold Interleaving.run_step.
  cbn [Interleaving.shared Interleaving.first Interleaving.second].
  pose proof (two_steps_serve c1 db) as Hsteps.
  destruct (Interleaving.step c1 Interleaving.Pending db) as [st1 db1].
  cbn [Interleaving.shared Interleaving.first Interleaving.second].
  destruct (Interleaving.step c1 st1 db1) as [st2 db2].
  inversion Hsteps. reflexivity.
Qed.

Lemma second_steps_twice (c1 c2 : Interleaving.call) (db : Database)
  (other : Interleaving.progress) :
  let sale := serve (invoice_service.create_invoice
                       (Interleaving.invoice_data c2)
                       (Interleaving.current_user c2)
                       (Interleaving.utcnow c2)) db in
  Interleaving.run_step c1 c2
    (Interleaving.run_step c1 c2
       (Interleaving.mk_config db other Interleaving.Pending) false) false
  = Interleaving.mk_config (snd sale) other (Interleaving.Returned (fst sale)).
Proof.
  intros sale. unfold Interleaving.run_step.
  cbn [Interleaving.shared Interleaving.first Interleaving.second].
  pose proof (two_steps_serve c2 db) as Hsteps.
  destruct (Interleaving.step c2 Interleaving.Pending db) as [st1 db1].
  cbn [Interleaving.shared Interleaving.first Interleaving.second].
  destruct (Interleaving.step c2 st1 db1) as [st2 db2].
  inversion Hsteps. reflexivity.
Qed.

Lemma run_first_then_second (c1 c2 : Interleaving.call) (db : Database) :
  let sale1 := serve (invoice_service.create_invoice
                        (Interleaving.invoice_data c1)
                        (Interleaving.current_user c1)
                        (Interleaving.utcnow c1)) db in
  let sale2 := serve (invoice_service.create_invoice
                        (Interleaving.invoice_data c2)
                        (Interleaving.current_user c2)
                        (Interleaving.utcnow c2)) (snd sale1) in
  Interleaving.run c1 c2 first_then_second db
  = Interleaving.mk_config (snd sale2)
      (Interleaving.Returned (fst sale1)) (Interleaving.Returned (fst sale2)).
Proof.
  intros sale1 sale2.
  unfold Interleaving.run, first_then_second. cbn [fold_left].
  rewrite first_steps_twice, second_steps_twice. reflexivity.
Qed.

Lemma run_second_then_first (c1 c2 : Interleaving.call) (db : Database) :
  let sale2 := serve (invoice_service.create_invoice
                        (Interleaving.invoice_data c2)
                        (Interleaving.current_user c2)
                        (Interleaving.utcnow c2)) db in
  let sale1 := serve (invoice_service.create_invoice
                        (Interleaving.invoice_data c1)
                        (Interleaving.current_user c1)
                        (Interleaving.utcnow c1)) (snd sale2) in
  Interleaving.run c1 c2 second_then_first db
  = Interleaving.mk_config (snd sale1)
      (Interleaving.Returned (fst sale1)) (Interleaving.Returned (fst sale2)).
Proof.
  intros sale2 sale1.
  unfold Interleaving.run, second_then_first. cbn [fold_left].
  rewrite second_steps_twice, first_steps_twice. reflexivity.
Qed.

(** C2, as stated, fails: when both calls validate before either commits
    (first validates, second validates, first commits, second commits), both
    return an invoice; the two stored items sell 6 units each from a stock of
    10, and the quantity ends at 4. *)
Lemma overlapping_sales_both_succeed :
  (let cfg := Interleaving.run first_sale second_sale
                [true; false; true; false] (shop 10) in
   Interleaving.succeeded (Interleaving.first cfg) = true
   /\ Interleaving.succeeded (Interleaving.second cfg) = true
   /\ map InvoiceItem.quantity (invoice_items (Interleaving.shared cfg)) = [6; 6]
   /\ stock 7 (Interleaving.shared cfg) = Some 4)
  /\ ~ exactly_one_sale_succeeds.
Proof.
  split; [vm_compute; repeat split |].
  intros Hclaim.
  destruct (Hclaim [true; false; true; false]) as [Hxor _];
    try (vm_compute; reflexivity).
  vm_compute in Hxor. discriminate Hxor.
Qed.

Lemma single_sale_Ok (db db' : Database) (key q : Z) (up : option float)
  (actor : User.t) (now : datetime) (inv : Invoice.t) (p : Product.t) :
  product_service.first_product_with_id key db = Some p ->
  serve (invoice_service.create_invoice (one_line key q up) actor now) db
    = (Ok inv, db') ->
  q <= Product.quantity p
  /\ product_service.first_product_with_id key db'
     = Some (set_quantity (Product.quantity p - q) p).
Proof.
  intros Hp Hserve.
  destruct (lines_validated _ _ _ _ _ _ Hserve)
    as (vs & rows & Hall & _ & _ & _ & _ & _ & Hstock).
  pose proof (taken_sold db actor key _ vs Hall) as Htaken.
  unfold one_line, sold in Htaken. simpl in Htaken.
  rewrite Z.eqb_refl in Htaken. simpl in Htaken. rewrite Z.add_0_r in Htaken.
  rewrite (Hstock key p Hp), Htaken. split; [| reflexivity].
  simpl in Hall. inversion Hall as [| ? v ? ? Hv _]; subst.
  destruct (checked_line_Ok _ _ _ _ Hv) as (p' & Hp' & _ & Hle & _).
  simpl in Hp', Hle. assert (p' = p) by congruence. subst p'. exact Hle.
Qed.

Lemma two_sales_Ok (db db1 db2 : Database) (key q1 q2 : Z)
  (up1 up2 : option float) (a1 a2 : User.t) (now1 now2 : datetime)
  (r1 r2 : result Invoice.t) (p : Product.t) :
  product_service.first_product_with_id key db = Some p ->
  serve (invoice_service.create_invoice (one_line key q1 up1) a1 now1) db
    = (r1, db1) ->
  serve (invoice_service.create_invoice (one_line key q2 up2) a2 now2) db1
    = (r2, db2) ->
  Interleaving.succeeded (Interleaving.Returned r1) = true ->
  Interleaving.succeeded (Interleaving.Returned r2) = true ->
  q1 + q2 <= Product.quantity p
  /\ stock key db2 = Some (Product.quantity p - q1 - q2).
Proof.
  intros Hp Hsale1 Hsale2 Hok1 Hok2.
  destruct r1 as [inv1 |]; [| discriminate Hok1].
  destruct r2 as [inv2 |]; [| discriminate Hok2].
  destruct (single_sale_Ok _ _ _ _ _ _ _ _ _ Hp Hsale1) as [Hle1 Hp1].
  destruct (single_sale_Ok _ _ _ _ _ _ _ _ _ Hp1 Hsale2) as [Hle2 Hp2].
  simpl in Hle2, Hp2. split; [lia |].
  unfold stock. rewrite Hp2. reflexivity.
Qed.

(** C2, amended.  When the two calls do not overlap (one has returned before
    the other starts) the second checks the stock the first has left: two
    one-line sales of the same product that both succeed never ask for more
    than was in stock together, and the quantity ends lowered by both.  On the
    scenario, a stock of 10 and two sales of 6, the call that runs first
    succeeds, the other raises InsufficientStock (available 4, requested 6),
    and the quantity ends at 4.  ([create_invoice] holds no lock between its
    stock check and its commit, so overlapping calls are not covered.) *)
Theorem consecutive_sales_never_overdraw :
  (forall (db : Database) (key q1 q2 : Z) (up1 up2 : option float)
          (a1 a2 : User.t) (now1 now2 : datetime) (p : Product.t)
          (schedule : list bool),
     let c1 := Interleaving.mk_call (one_line key q1 up1) a1 now1 in
     let c2 := Interleaving.mk_call (one_line key q2 up2) a2 now2 in
     let cfg := Interleaving.run c1 c2 schedule db in
     product_service.first_product_with_id key db = Some p ->
     schedule = first_then_second \/ schedule = second_then_first ->
     Interleaving.succeeded (Interleaving.first cfg) = true ->
     Interleaving.succeeded (Interleaving.second cfg) = true ->
     q1 + q2 <= Product.quantity p
     /\ stock key (Interleaving.shared cfg)
        = Some (Product.quantity p - q1 - q2))
  /\ (let cfg := Interleaving.run first_sale second_sale first_then_second
                   (shop 10) in
      Interleaving.succeeded (Interleaving.first cfg) = true
      /\ Interleaving.second cfg
         = Interleaving.Returned
             (Raise (HTTPException 400
                "Insufficient stock for product Tea. Available: 4, Requested: 6"))
      /\ stock 7 (Interleaving.shared cfg) = Some 4)
  /\ (let cfg := Interleaving.run first_sale second_sale second_then_first
                   (shop 10) in
      Interleaving.succeeded (Interleaving.second cfg) = true
      /\ Interleaving.first cfg
         = Interleaving.Returned
             (Raise (HTTPException 400
                "Insufficient stock for product Tea. Available: 4, Requested: 6"))
      /\ stock 7 (Interleaving.shared cfg) = Some 4).
Proof.
  split; [| split; vm_compute; repeat split; reflexivity].
  intros db key q1 q2 up1 up2 a1 a2 now1 now2 p schedule c1 c2 cfg Hp
    [Hsched | Hsched] Hok1 Hok2; subst cfg schedule.
  - rewrite run_first_then_second in *.
    cbn [Interleaving.shared Interleaving.first Interleaving.second
         Interleaving.invoice_data Interleaving.current_user
         Interleaving.utcnow c1 c2] in *.
    exact (two_sales_Ok db _ _ key q1 q2 up1 up2 a1 a2 now1 now2 _ _ p Hp
             (surjective_pairing _) (surjective_pairing _) Hok1 Hok2).
  - rewrite run_second_then_first in *.
    cbn [Interleaving.shared Interleaving.first Interleaving.second
         Interleaving.invoice_data Interleaving.current_user
         Interleaving.utcnow c1 c2] in *.
    assert (q2 + q1 <= Product.quantity p
            /\ stock key
                 (snd (serve (invoice_service.create_invoice
                                (one_line key q1 up1) a1 now1)
                         (snd (serve (invoice_service.create_invoice
                                        (one_line key q2 up2) a2 now2) db))))
               = Some (Product.quantity p - q2 - q1)) as [Hle Hstock].
    { exact (two_sales_Ok db _ _ key q2 q1 up2 up1 a2 a1 now2 now1 _ _ p Hp
               (surjective_pairing _) (surjective_pairing _) Hok2 Hok1). }
    split; [lia |]. rewrite Hstock. f_equal. lia.
Qed.

Lemma consecutive_sales_never_overdraw_witness :
  let c1 := Interleaving.mk_call (one_line 7 6 None) U1 day1 in
  let c2 := Interleaving.mk_call (one_line 7 4 (Some price_9_99)) root day2 in
  let cfg := Interleaving.run c1 c2 first_then_second (shop 10) in
  6 + 4 <= Product.quantity (set_quantity 10 P)
  /\ stock 7 (Interleaving.shared cfg)
     = Some (Product.quantity (set_quantity 10 P) - 6 - 4).
Proof.
  intros c1 c2 cfg.
  apply (proj1 consecutive_sales_never_overdraw (shop 10) 7 6 4 None
           (Some price_9_99) U1 root day1 day2 (set_quantity 10 P)
           first_then_second).
  - reflexivity.
  - left. reflexivity.
  - vm_compute. reflexivity.
  - vm_compute. reflexivity.
Defined.

(* ===================================================================== *)
(** * Further properties: reading back, listing, updating, deleting *)
(* ===================================================================== *)

(** ** The rows of a listing *)

Lemma insert_desc_In (i j : Invoice.t) (sorted : list Invoice.t) :
  In j (invoice_service.insert_desc i sorted) <-> j = i \/ In j sorted.
Proof.
  induction sorted as [| k rest IH]; simpl.
  - split; [intros [<- | []]; left; reflexivity | intros [-> | []]; left; reflexivity].
  - destruct (wall (Invoice.created_at k) <? wall (Invoice.created_at i)).
    + simpl. split; [intros [<- | H]; [left; reflexivity | right; exact H]
                    | intros [-> | H]; [left; reflexivity | right; exact H]].
    + simpl. rewrite IH. split.
      * intros [<- | [-> | H]]; auto.
      * intros [-> | [<- | H]]; auto.
Qed.

Lemma insert_desc_length (i : Invoice.t) (sorted : list Invoice.t) :
  length (invoice_service.insert_desc i sorted) = S (length sorted).
Proof.
  induction sorted as [| k rest IH]; [reflexivity |].
  simpl. destruct (wall (Invoice.created_at k) <? wall (Invoice.created_at i));
    simpl; [reflexivity | rewrite IH; reflexivity].
Qed.

Lemma insert_desc_newest_first (i : Invoice.t) (sorted : list Invoice.t) :
  newest_first sorted -> newest_first (invoice_service.insert_desc i sorted).
Proof.
  induction sorted as [| k rest IH]; intros Hsorted.
  - simpl. split; [constructor | exact I].
  - destruct Hsorted as [Hk Hrest]. simpl.
    destruct (Z.ltb_spec (wall (Invoice.created_at k))
                (wall (Invoice.created_at i))) as [Hlt | Hge].
    + split; [| split; assumption].
      constructor; [lia |].
      eapply Forall_impl; [exact Hk |]. simpl. intros j Hj. lia.
    + split; [| apply IH, Hrest].
      apply List.Forall_forall. intros j Hj.
      apply insert_desc_In in Hj. destruct Hj as [-> | Hj]; [exact Hge |].
      rewrite List.Forall_forall in Hk. apply Hk, Hj.
Qed.

Lemma sort_desc_spec (rows : list Invoice.t) :
  forall sorted,
    newest_first sorted ->
    let out := fold_left (fun sorted i => invoice_service.insert_desc i sorted)
                 rows sorted in
    newest_first out
    /\ length out = (length sorted + length rows)%nat
    /\ forall j, In j out <-> In j sorted \/ In j rows.
Proof.
  induction rows as [| i rest IH]; intros sorted Hsorted.
  - simpl. split; [exact Hsorted |]. split; [lia |]. intros j. simpl. tauto.
  - simpl. destruct (IH (invoice_service.insert_desc i sorted)
                       (insert_desc_newest_first i sorted Hsorted))
      as (Hout & Hlen & Hin).
    split; [exact Hout |]. split.
    + rewrite Hlen, insert_desc_length. lia.
    + intros j. rewrite Hin, insert_desc_In. simpl.
      split; [intros [[-> | H] | H] | intros [H | [<- | H]]]; auto.
Qed.

Lemma newest_first_take (n : nat) (rows : list Invoice.t) :
  newest_first rows -> newest_first (take n rows).
Proof.
  revert n. induction rows as [| i rest IH]; intros [| n] Hrows;
    try exact I.
  destruct Hrows as [Hi Hrest]. simpl. split; [| apply IH, Hrest].
  apply Forall_take, Hi.
Qed.

Lemma newest_first_drop (n : nat) (rows : list Invoice.t) :
  newest_first rows -> newest_first (drop n rows).
Proof.
  revert n. induction rows as [| i rest IH]; intros [| n] Hrows;
    try exact Hrows; try exact I.
  simpl. apply IH, Hrows.
Qed.

Lemma sort_desc_newest_first (rows : list Invoice.t) :
  newest_first (invoice_service.sort_desc rows)
  /\ length (invoice_service.sort_desc rows) = length rows
  /\ forall j, In j (invoice_service.sort_desc rows) <-> In j rows.
Proof.
  destruct (sort_desc_spec rows [] I) as (Hsorted & Hlen & Hin).
  split; [exact Hsorted |]. split; [exact Hlen |].
  intros j. rewrite (Hin j). simpl. tauto.
Qed.

Lemma In_take {A : Type} (n : nat) (l : list A) (x : A) :
  In x (take n l) -> In x l.
Proof.
  revert n. induction l as [| y l IH]; intros [| n] Hx; simpl in *;
    try contradiction.
  destruct Hx as [-> | Hx]; [left; reflexivity | right; apply (IH n), Hx].
Qed.

Lemma In_drop {A : Type} (n : nat) (l : list A) (x : A) :
  In x (drop n l) -> In x l.
Proof.
  revert n. induction l as [| y l IH]; intros [| n] Hx; simpl in *;
    try contradiction; try exact Hx.
  right. apply (IH n), Hx.
Qed.

(** The statement the three listings end with: conditions, then
    [offset(skip).limit(limit)], then the ordering. *)
Lemma rows_of_paged (E : Externals) (conds : list invoice_service.clause)
  (skip limit_ : Z) (db : Database) :
  invoice_service.rows_of
    (invoice_service.order_by_desc
       (invoice_service.limit limit_
          (invoice_service.offset skip
             (invoice_service.mk_Select conds None None false)))) db
  = take (Z.to_nat limit_)
      (drop (Z.to_nat skip)
         (invoice_service.sort_desc
            (List.filter
               (fun i => forallb (fun c => invoice_service.holds c i) conds)
               (invoices db)))).
Proof. reflexivity. Qed.

(** X1.  For an admin and valid pagination parameters, the per-user listing
    [get_invoices_by_user_id] changes nothing and returns stored invoices of
    the requested user only, at most [limit] of them, the newest first; from
    [skip = 0], when the user has no more than [limit] invoices, it returns
    every one of them. *)
Theorem per_user_listing_rows (E : Externals) (db : Database) (user_id : Z)
  (actor : User.t) (skip limit : Z) :
  User.role actor = ADMIN ->
  0 <= skip ->
  1 <= limit <= 1000 ->
  exists rows,
    serve (invoice_service.get_invoices_by_user_id user_id actor skip limit) db
      = (Ok rows, db)
    /\ Forall (fun i => In i (invoices db) /\ Invoice.user_id i = user_id) rows
    /\ Z.of_nat (length rows) <= limit
    /\ newest_first rows
    /\ (skip = 0 ->
        Z.of_nat (length (List.filter (fun i => Invoice.user_id i =? user_id)
                            (invoices db))) <= limit ->
        forall i,
          In i (invoices db) -> Invoice.user_id i = user_id -> In i rows).
Proof.
  intros Hadmin Hskip Hlimit.
  eexists. split.
  { unfold serve, invoice_service.get_invoices_by_user_id,
      auth_utils.check_admin_access, Mbind, lift.
    rewrite Hadmin, (validate_pagination_params_valid skip limit Hskip Hlimit).
    unfold invoice_service.where_, invoice_service.select_Invoice. simpl.
    rewrite rows_of_paged. reflexivity. }
  set (own := List.filter
                (fun i => forallb (fun c => invoice_service.holds c i)
                            [invoice_service.user_id_eq user_id])
                (invoices db)).
  destruct (sort_desc_newest_first own) as (Hsorted & Hlen & Hin).
  assert (forall i, In i own <-> In i (invoices db) /\ Invoice.user_id i = user_id)
    as Hown.
  { intros i. unfold own. rewrite filter_In. simpl.
    rewrite andb_true_r, Z.eqb_eq. reflexivity. }
  split; [| split; [| split]].
  - apply List.Forall_forall. intros i Hi.
    apply Hown, Hin. eapply In_drop, In_take, Hi.
  - rewrite length_take. lia.
  - apply newest_first_take, newest_first_drop, Hsorted.
  - intros -> Hcount i Hi Hu.
    change (Z.to_nat 0) with 0%nat. rewrite drop_0, take_ge.
    + apply Hin, Hown. split; assumption.
    + rewrite Hlen. unfold own. simpl.
      erewrite filter_ext; [apply Nat2Z.inj_le; rewrite Z2Nat.id by lia; exact Hcount |].
      intros j. simpl. apply andb_true_r.
Qed.

Lemma per_user_listing_rows_witness :
  exists rows,
    serve (@invoice_service.get_invoices_by_user_id sample_externals 2 root 0 100)
      ledger = (Ok rows, ledger)
    /\ Forall (fun i => In i (invoices ledger) /\ Invoice.user_id i = 2) rows
    /\ Z.of_nat (length rows) <= 100
    /\ newest_first rows
    /\ In (Invoice.mk (Some 1) 2 (Some "Ann") 3%float epoch) rows.
Proof.
  destruct (per_user_listing_rows sample_externals ledger 2 root 0 100 eq_refl)
    as (rows & Hrun & Hown & Hlen & Hsorted & Hall); [lia | lia |].
  exists rows.
  refine (conj Hrun (conj Hown (conj Hlen (conj Hsorted
            (Hall eq_refl _ (Invoice.mk (Some 1) 2 (Some "Ann") 3%float epoch)
               _ eq_refl))))).
  - simpl. lia.
  - left. reflexivity.
Defined.

Lemma pages_concatenate {A : Type} (skip l1 l2 : Z) (rows : list A) :
  0 <= skip -> 0 <= l1 -> 0 <= l2 ->
  (take (Z.to_nat l1) (drop (Z.to_nat skip) rows)
   ++ take (Z.to_nat l2) (drop (Z.to_nat (skip + l1)) rows))%list
  = take (Z.to_nat (l1 + l2)) (drop (Z.to_nat skip) rows).
Proof.
  intros Hskip H1 H2.
  rewrite !Z2Nat.inj_add by assumption.
  rewrite <- drop_drop. apply take_take_drop.
Qed.

Lemma insert_desc_Permutation (i : Invoice.t) (sorted : list Invoice.t) :
  Permutation (invoice_service.insert_desc i sorted) (i :: sorted).
Proof.
  induction sorted as [| j rest IH]; [reflexivity |].
  cbn [invoice_service.insert_desc].
  destruct (wall (Invoice.created_at j) <? wall (Invoice.created_at i));
    [reflexivity |].
  apply (perm_trans (l' := j :: i :: rest));
    [apply perm_skip, IH | apply perm_swap].
Qed.

Lemma sort_desc_Permutation (rows : list Invoice.t) :
  Permutation (invoice_service.sort_desc rows) rows.
Proof.
  unfold invoice_service.sort_desc.
  assert (forall acc,
            Permutation
              (fold_left (fun sorted i => invoice_service.insert_desc i sorted)
                 rows acc)
              (rows ++ acc)%list) as Hfold.
  { induction rows as [| i rest IH]; intros acc; [reflexivity |].
    cbn [fold_left].
    apply (perm_trans (IH _)).
    apply (perm_trans (l' := (rest ++ i :: acc)%list));
      [apply Permutation_app_head, insert_desc_Permutation |].
    symmetry. apply (Permutation_middle rest acc i). }
  specialize (Hfold []). rewrite app_nil_r in Hfold. exact Hfold.
Qed.

(** Rows with distinct timestamps have one newest-first arrangement. *)
Lemma newest_first_unique (l1 : list Invoice.t) :
  forall l2,
    NoDup (map (fun i => wall (Invoice.created_at i)) l1) ->
    Permutation l1 l2 -> newest_first l1 -> newest_first l2 -> l1 = l2.
Proof.
  induction l1 as [| a l1 IH]; intros l2 Hnd Hperm H1 H2.
  - apply Permutation_nil in Hperm. subst l2. reflexivity.
  - destruct l2 as [| b l2];
      [apply Permutation_sym, Permutation_nil in Hperm; discriminate Hperm |].
    cbn [map] in Hnd. apply NoDup_cons in Hnd. destruct Hnd as [Hfresh Hnd].
    cbn [newest_first] in H1, H2.
    destruct H1 as [Ha H1], H2 as [Hb H2].
    assert (a = b) as Hab.
    { assert (In a (b :: l2)) as Hin
        by (apply (Permutation_in _ Hperm); left; reflexivity).
      destruct Hin as [Hin | Hin]; [symmetry; exact Hin |].
      assert (In b (a :: l1)) as Hin'
        by (apply (Permutation_in _ (Permutation_sym Hperm)); left; reflexivity).
      destruct Hin' as [Hin' | Hin']; [exact Hin' |].
      exfalso. apply Hfresh. rewrite list_elem_of_In.
      rewrite List.Forall_forall in Ha, Hb.
      specialize (Ha b Hin'). specialize (Hb a Hin).
      replace (wall (Invoice.created_at a)) with (wall (Invoice.created_at b))
        by lia.
      apply (in_map (fun i => wall (Invoice.created_at i))), Hin'. }
    subst b. f_equal.
    apply IH; [exact Hnd | apply (Permutation_cons_inv Hperm) | exact H1 | exact H2].
Qed.

Lemma NoDup_map_filter {A B : Type} (key : A -> B) (f : A -> bool)
  (rows : list A) :
  NoDup (map key rows) -> NoDup (map key (List.filter f rows)).
Proof.
  induction rows as [| row rest IH]; intros Hnd; [exact Hnd |].
  cbn [map] in Hnd. apply NoDup_cons in Hnd. destruct Hnd as [Hrow Hrest].
  cbn [List.filter]. destruct (f row); [| apply IH, Hrest].
  cbn [map]. apply NoDup_cons. split; [| apply IH, Hrest].
  intros Hin. apply Hrow.
  rewrite list_elem_of_In in *. apply in_map_iff in Hin.
  destruct Hin as (q & Hkey & Hq). apply filter_In in Hq.
  rewrite <- Hkey. apply in_map, Hq.
Qed.

Lemma sort_desc_the_newest_first (f : Invoice.t -> bool) (db : Database) :
  distinct_created_at db ->
  the_newest_first (List.filter f (invoices db))
    (invoice_service.sort_desc (List.filter f (invoices db))).
Proof.
  intros Hnd. split; [apply sort_desc_Permutation |].
  split; [apply sort_desc_newest_first |].
  intros other Hperm Hother. apply newest_first_unique.
  - rewrite (Permutation_map (fun i => wall (Invoice.created_at i)) Hperm).
    apply NoDup_map_filter, Hnd.
  - apply (perm_trans Hperm), Permutation_sym, sort_desc_Permutation.
  - exact Hother.
  - apply sort_desc_newest_first.
Qed.

Lemma filter_all {A : Type} (f : A -> bool) (l : list A) :
  (forall x, f x = true) -> List.filter f l = l.
Proof.
  intros Hf. induction l as [| x l IH]; [reflexivity |].
  cbn [List.filter]. rewrite Hf, IH. reflexivity.
Qed.

(** X2.  When no two stored invoices have the same [created_at], the order
    of a listing is fixed by the data: there is one newest-first arrangement
    of the invoices, every page is the slice of it that [skip] and [limit]
    name, and so paging neither skips nor repeats a row: the page of [l1]
    rows from [skip] followed by the page of [l2] rows from [skip + l1] is the
    page of [l1 + l2] rows from [skip].  This holds for the listing of all
    invoices and, for an admin, for the per-user listing.  (Among invoices
    with equal timestamps the statement names no order, and nothing is
    claimed for them.) *)
Theorem listing_pages_concatenate (E : Externals) (db : Database)
  (actor : User.t) (skip l1 l2 : Z) :
  distinct_created_at db ->
  0 <= skip -> 1 <= l1 -> 1 <= l2 -> l1 + l2 <= 1000 ->
  (exists listing page1 page2,
     the_newest_first (invoices db) listing
     /\ page1 = take (Z.to_nat l1) (drop (Z.to_nat skip) listing)
     /\ page2 = take (Z.to_nat l2) (drop (Z.to_nat (skip + l1)) listing)
     /\ serve (invoice_service.get_all_invoices actor skip l1) db = (Ok page1, db)
     /\ serve (invoice_service.get_all_invoices actor (skip + l1) l2) db
        = (Ok page2, db)
     /\ serve (invoice_service.get_all_invoices actor skip (l1 + l2)) db
        = (Ok (page1 ++ page2)%list, db))
  /\ (User.role actor = ADMIN ->
      forall user_id,
      exists listing page1 page2,
        the_newest_first
          (List.filter (fun i => Invoice.user_id i =? user_id) (invoices db))
          listing
        /\ page1 = take (Z.to_nat l1) (drop (Z.to_nat skip) listing)
        /\ page2 = take (Z.to_nat l2) (drop (Z.to_nat (skip + l1)) listing)
        /\ serve (invoice_service.get_invoices_by_user_id user_id actor skip l1) db
           = (Ok page1, db)
        /\ serve (invoice_service.get_invoices_by_user_id user_id actor
                    (skip + l1) l2) db
           = (Ok page2, db)
        /\ serve (invoice_service.get_invoices_by_user_id user_id actor skip
                    (l1 + l2)) db
           = (Ok (page1 ++ page2)%list, db)).
Proof.
  intros Hnd Hskip H1 H2 Hsum. split.
  - pose proof (sort_desc_the_newest_first (fun _ => true) db Hnd) as Hone.
    rewrite (filter_all (fun _ => true)) in Hone by reflexivity.
    do 3 eexists. split; [exact Hone |].
    split; [reflexivity |]. split; [reflexivity |].
    unfold serve.
    rewrite !get_all_invoices_unscoped by lia.
    unfold invoice_service.select_Invoice. rewrite !rows_of_paged.
    cbn [forallb]. rewrite (filter_all (fun _ => true)) by reflexivity.
    split; [reflexivity |]. split; [reflexivity |].
    simpl. rewrite pages_concatenate by lia. reflexivity.
  - intros Hadmin user_id.
    pose proof (sort_desc_the_newest_first
                  (fun i => Invoice.user_id i =? user_id) db Hnd) as Hone.
    do 3 eexists. split; [exact Hone |].
    split; [reflexivity |]. split; [reflexivity |].
    unfold serve, invoice_service.get_invoices_by_user_id,
      auth_utils.check_admin_access, Mbind, lift.
    rewrite Hadmin.
    rewrite !validate_pagination_params_valid by lia.
    unfold invoice_service.where_, invoice_service.select_Invoice. simpl.
    rewrite !rows_of_paged.
    assert (List.filter
              (fun i => forallb (fun c => invoice_service.holds c i)
                          [invoice_service.user_id_eq user_id])
              (invoices db)
            = List.filter (fun i => Invoice.user_id i =? user_id) (invoices db))
      as ->.
    { apply filter_ext. intros i. cbn. apply andb_true_r. }
    split; [reflexivity |]. split; [reflexivity |].
    rewrite pages_concatenate by lia. reflexivity.
Qed.

(** The two invoices of [ledger] were made a minute apart; the second is the
    newer, and the pages of one row are it and then the first. *)
Lemma listing_pages_concatenate_witness :
  distinct_created_at ledger
  /\ exists listing page1 page2,
       the_newest_first (invoices ledger) listing
       /\ page1 = take (Z.to_nat 1) (drop (Z.to_nat 0) listing)
       /\ page2 = take (Z.to_nat 1) (drop (Z.to_nat (0 + 1)) listing)
       /\ serve (@invoice_service.get_all_invoices sample_externals U1 0 1)
            ledger
          = (Ok page1, ledger)
       /\ serve (@invoice_service.get_all_invoices sample_externals U1 (0 + 1) 1)
            ledger
          = (Ok page2, ledger)
       /\ serve (@invoice_service.get_all_invoices sample_externals U1 0 (1 + 1))
            ledger
          = (Ok (page1 ++ page2)%list, ledger).
Proof.
  assert (distinct_created_at ledger) as Hnd.
  { unfold distinct_created_at. cbn.
    apply NoDup_cons. split; [| apply NoDup_singleton].
    rewrite list_elem_of_In. cbn. intros [H | []]. discriminate H. }
  split; [exact Hnd |].
  apply (proj1 (listing_pages_concatenate sample_externals ledger U1 0 1 1
                  Hnd ltac:(lia) ltac:(lia) ltac:(lia) ltac:(lia))).
Defined.

(** ** Reading one invoice and its items *)

Lemma head_filter_find {A : Type} (f : A -> bool) (l : list A) :
  head (List.filter f l) = List.find f l.
Proof.
  induction l as [| x l IH]; [reflexivity |].
  simpl. destruct (f x); [reflexivity | exact IH].
Qed.

Lemma may_access_checked (actor : User.t) (owner : Z) :
  negb (UserRole_eqb (User.role actor) ADMIN) && negb (User.id actor =? owner)
  = false
  <-> may_access actor owner.
Proof.
  unfold may_access. rewrite andb_false_iff, !negb_false_iff, Z.eqb_eq.
  rewrite UserRole_eqb_eq. reflexivity.
Qed.

Lemma check_ownership_or_admin_cases (actor : User.t) (owner : Z)
  (resource_name : string) :
  (may_access actor owner
   /\ auth_utils.check_ownership_or_admin actor owner resource_name = Ok tt)
  \/ (~ may_access actor owner
      /\ auth_utils.check_ownership_or_admin actor owner resource_name
         = Raise (HTTPException 403
                    ("Not authorized to access this " +:+ resource_name))).
Proof.
  unfold auth_utils.check_ownership_or_admin.
  destruct (negb (UserRole_eqb (User.role actor) ADMIN)
            && negb (User.id actor =? owner)) eqn:Hchk.
  - right. split; [| reflexivity].
    rewrite <- may_access_checked. congruence.
  - left. split; [apply may_access_checked, Hchk | reflexivity].
Qed.

(** What [get_invoice_by_id] computes: the first invoice with the id goes
    through the ownership check, and the session only counts a statement. *)
Lemma get_invoice_by_id_run (E : Externals) (invoice_id : Z) (actor : User.t)
  (s : Session) :
  invoice_service.get_invoice_by_id invoice_id actor s
  = (auth_utils.check_resource_ownership actor
       (List.find (fun i => bool_decide (Invoice.id i = Some invoice_id))
          (invoices (database s)))
       "invoice",
     count_exec s).
Proof.
  unfold invoice_service.get_invoice_by_id, Mbind, session_exec, lift.
  unfold invoice_service.rows_of. simpl.
  rewrite head_filter_find. f_equal. f_equal.
  induction (invoices (database s)) as [| i rest IH]; [reflexivity |].
  simpl. rewrite andb_true_r.
  destruct (bool_decide (Invoice.id i = Some invoice_id)); [reflexivity | exact IH].
Qed.

Lemma find_invoice_key (invoice_id : Z) (rows : list Invoice.t) :
  match List.find (fun i => bool_decide (Invoice.id i = Some invoice_id)) rows with
  | Some inv =>
    In inv rows /\ Invoice.id inv = Some invoice_id
    /\ invoice_key_taken invoice_id rows = true
  | None => invoice_key_taken invoice_id rows = false
  end.
Proof.
  induction rows as [| i rest IH]; [reflexivity |].
  simpl. destruct (bool_decide (Invoice.id i = Some invoice_id)) eqn:Hi.
  - apply bool_decide_eq_true_1 in Hi.
    split; [left; reflexivity |]. split; [exact Hi | reflexivity].
  - destruct (List.find _ rest) as [inv |]; [| exact IH].
    destruct IH as (Hin & Hid & Htaken).
    split; [right; exact Hin |]. split; [exact Hid | exact Htaken].
Qed.

(** X3.  [get_invoice_by_id] never changes the database.  When no stored
    invoice has the id it raises 404; when it returns, the invoice is a
    stored one, it has the requested id, and the actor is its owner or an
    admin; every other outcome is the 403 of the ownership check. *)
Theorem get_invoice_by_id_outcomes (E : Externals) (db : Database)
  (invoice_id : Z) (actor : User.t) :
  (invoice_key_taken invoice_id (invoices db) = false ->
   serve (invoice_service.get_invoice_by_id invoice_id actor) db
   = (Raise (HTTPException 404 "Invoice not found"), db))
  /\ (invoice_key_taken invoice_id (invoices db) = true ->
      (exists inv,
         serve (invoice_service.get_invoice_by_id invoice_id actor) db
           = (Ok inv, db)
         /\ In inv (invoices db)
         /\ Invoice.id inv = Some invoice_id
         /\ may_access actor (Invoice.user_id inv))
      \/ (serve (invoice_service.get_invoice_by_id invoice_id actor) db
          = (Raise (HTTPException 403 "Not authorized to access this invoice"),
             db)
          /\ exists inv,
               In inv (invoices db) /\ Invoice.id inv = Some invoice_id
               /\ ~ may_access actor (Invoice.user_id inv))).
Proof.
  unfold serve. rewrite get_invoice_by_id_run. simpl.
  pose proof (find_invoice_key invoice_id (invoices db)) as Hfind.
  destruct (List.find _ (invoices db)) as [inv |].
  - destruct Hfind as (Hin & Hid & Htaken).
    split; [intros Hfree; congruence |]. intros _.
    unfold auth_utils.check_resource_ownership.
    change (getattr_user_id inv) with (Some (Invoice.user_id inv)).
    destruct (check_ownership_or_admin_cases actor (Invoice.user_id inv)
                "invoice") as [[Hmay ->] | [Hno ->]].
    + left. exists inv. repeat split; assumption.
    + right. split; [reflexivity |]. exists inv. repeat split; assumption.
  - split; [intros _; reflexivity | intros Htaken; congruence].
Qed.

Lemma get_invoice_by_id_outcomes_witness :
  serve (@invoice_service.get_invoice_by_id sample_externals 9 U1) ledger
  = (Raise (HTTPException 404 "Invoice not found"), ledger)
  /\ ((exists inv,
         serve (@invoice_service.get_invoice_by_id sample_externals 1 U1) ledger
           = (Ok inv, ledger)
         /\ In inv (invoices ledger)
         /\ Invoice.id inv = Some 1
         /\ may_access U1 (Invoice.user_id inv))
      \/ (serve (@invoice_service.get_invoice_by_id sample_externals 1 U1) ledger
          = (Raise (HTTPException 403 "Not authorized to access this invoice"),
             ledger)
          /\ exists inv,
               In inv (invoices ledger) /\ Invoice.id inv = Some 1
               /\ ~ may_access U1 (Invoice.user_id inv))).
Proof.
  exact (conj (proj1 (get_invoice_by_id_outcomes sample_externals ledger 9 U1)
                 eq_refl)
              (proj2 (get_invoice_by_id_outcomes sample_externals ledger 1 U1)
                 eq_refl)).
Defined.







(** ** Every failure of [create_invoice] *)

Lemma checked_line_Raise_kind (db : Database) (actor : User.t)
  (line : InvoiceItemCreate.t) (e : exn) :
  checked_line db actor line = Raise e ->
  (exists status detail,
     e = HTTPException status detail /\ (status = 400 \/ status = 403))
  \/ exists msg, e = OverflowError msg.
Proof.
  unfold checked_line. intros He.
  destruct (product_service.first_product_with_id
              (InvoiceItemCreate.product_id line) db) as [p |].
  2: { inversion He. left. do 2 eexists. split; [reflexivity | left; reflexivity]. }
  destruct (negb (UserRole_eqb (User.role actor) ADMIN)
            && negb (Product.user_id p =? User.id actor)).
  { inversion He. left. do 2 eexists. split; [reflexivity | right; reflexivity]. }
  destruct (Product.quantity p <? InvoiceItemCreate.quantity line).
  { inversion He. left. do 2 eexists. split; [reflexivity | left; reflexivity]. }
  unfold float_mul_int, float_of_int in He.
  destruct (DBL_OVERFLOW <=? Z.abs (InvoiceItemCreate.quantity line));
    [| discriminate He].
  inversion He. right. eexists. reflexivity.
Qed.

Lemma check_lines_Raise_kind (db : Database) (actor : User.t)
  (lines : list InvoiceItemCreate.t) :
  forall validated total e,
    check_lines db actor lines validated total = Raise e ->
    (exists status detail,
       e = HTTPException status detail /\ (status = 400 \/ status = 403))
    \/ exists msg, e = OverflowError msg.
Proof.
  induction lines as [| line rest IH]; intros validated total e He.
  - discriminate He.
  - simpl in He. destruct (checked_line db actor line) as [v | e'] eqn:Hline.
    + eapply IH, He.
    + inversion He; subst e'. eapply checked_line_Raise_kind, Hline.
Qed.

(** A failure of the writing half leaves the rows of the three tables as
    they were and is not an [HTTPException]. *)
Lemma write_invoice_Raise (req : InvoiceCreate.t) (actor : User.t)
  (now : datetime) (validated : list ValidatedItem.t * float)
  (s s' : Session) (e : exn) :
  flushed s = [] -> new s = [] ->
  invoice_service.write_invoice req actor now validated s = (Raise e, s') ->
  same_rows (database s) (database s')
  /\ forall status detail, e <> HTTPException status detail.
Proof.
  intros Hflushed Hnew Hrun.
  unfold invoice_service.write_invoice in Hrun.
  unfold Mbind at 1 in Hrun. unfold session_add_flush in Hrun.
  rewrite Hflushed, app_nil_r in Hrun.
  set (key := next_val (invoices_id_seq (database s))) in *.
  destruct (invoice_key_taken key (invoices (database s))) eqn:Hfree.
  { inversion Hrun; subst e s'. split; [repeat split | discriminate]. }
  unfold Mbind at 1 in Hrun.
  rewrite (add_items_run (Invoice.mk (Some key) _ _ _ _) key eq_refl) in Hrun.
  cbn [database identity_map flushed new executed set_database
       set_invoices_id_seq products invoices invoice_items invoices_id_seq
       invoice_items_id_seq] in Hrun.
  rewrite Hnew, Hflushed in Hrun. cbn [app] in Hrun.
  unfold Mbind at 1 in Hrun. unfold session_commit in Hrun.
  cbn [database identity_map flushed new executed set_database
       set_invoices_id_seq set_invoice_items_id_seq products invoices
       invoice_items invoices_id_seq invoice_items_id_seq] in Hrun.
  destruct (insert_items (map (item_of key) (fst validated))
              (invoice_items (database s))
              (invoice_items_id_seq (database s)))
    as [[table | e'] seq] eqn:Hins.
  - exfalso. unfold session_refresh in Hrun.
    cbn [database invoices Invoice.id] in Hrun.
    rewrite (find_invoice_appended key) in Hrun by (assumption || reflexivity).
    discriminate Hrun.
  - inversion Hrun; subst e s'. split; [repeat split |].
    clear -Hins. revert Hins.
    generalize (invoice_items (database s)) (invoice_items_id_seq (database s)).
    induction (map (item_of key) (fst validated)) as [| obj objs IH];
      intros table0 seq0 Hins; simpl in Hins.
    + discriminate Hins.
    + destruct (item_key_taken (next_val seq0) table0).
      * inversion Hins. discriminate.
      * eapply IH, Hins.
Qed.

Lemma rollback_and_raise_HTTPException (e : exn) (s : Session) :
  exists status detail,
    invoice_service.rollback_and_raise e s
    = (Raise (HTTPException status detail), snd (session_rollback s))
    /\ ((forall st d, e <> HTTPException st d) -> status = 500)
    /\ (forall st d, e = HTTPException st d -> status = st).
Proof.
  destruct e; do 2 eexists; (split; [reflexivity |]); split;
    try (intros; reflexivity); try (intros Hno; exfalso; eapply Hno; reflexivity);
    intros st d Heq; solve [inversion Heq; reflexivity | discriminate Heq].
Qed.

(** X5.  Whenever [create_invoice] fails, for whatever reason, it raises an
    [HTTPException] with status 400, 403 or 500 (no other exception leaves
    it), and the rows of the products, invoices and invoice items tables are
    exactly as they were; only a sequence may have advanced. *)
Theorem create_invoice_failure_keeps_rows (db db' : Database)
  (req : InvoiceCreate.t) (actor : User.t) (now : datetime) (e : exn) :
  serve (invoice_service.create_invoice req actor now) db = (Raise e, db') ->
  (exists status detail,
     e = HTTPException status detail
     /\ (status = 400 \/ status = 403 \/ status = 500))
  /\ same_rows db db'.
Proof.
  intros Hserve.
  destruct (validate_items_clean db actor (InvoiceCreate.items req) [] 0%float
              (SessionLocal db) (clean_SessionLocal db))
    as (s1 & Hrun & (Hdb & Hflushed & Hnew & _) & _).
  { intros v []. }
  unfold serve, invoice_service.create_invoice, try_except, Mbind in Hserve.
  rewrite Hrun in Hserve.
  destruct (check_lines db actor (InvoiceCreate.items req) [] 0%float)
    as [validated | e0] eqn:Hchk.
  - destruct (invoice_service.write_invoice req actor now validated s1)
      as [[inv | e0] s2] eqn:Hwrite; [discriminate Hserve |].
    destruct (write_invoice_Raise _ _ _ _ _ _ _ Hflushed Hnew Hwrite)
      as [Hrows Hkind].
    destruct (rollback_and_raise_HTTPException e0 s2)
      as (status & detail & Hroll & H500 & _).
    rewrite Hroll in Hserve. inversion Hserve; subst e db'.
    split; [do 2 eexists; split; [reflexivity |]; right; right; apply H500, Hkind |].
    simpl. rewrite <- Hdb. exact Hrows.
  - destruct (rollback_and_raise_HTTPException e0 s1)
      as (status & detail & Hroll & H500 & Hsame).
    rewrite Hroll in Hserve. inversion Hserve; subst e db'.
    split; [| simpl; rewrite Hdb; repeat split].
    do 2 eexists. split; [reflexivity |].
    destruct (check_lines_Raise_kind _ _ _ _ _ _ Hchk)
      as [(st & d & -> & Hst) | [msg ->]].
    + rewrite (Hsame st d eq_refl). tauto.
    + right. right. apply H500. discriminate.
Qed.

Lemma create_invoice_failure_keeps_rows_witness :
  (exists status detail,
     HTTPException 500 "An unexpected error occurred while creating the invoice."
     = HTTPException status detail
     /\ (status = 400 \/ status = 403 \/ status = 500))
  /\ same_rows stale_sequence (set_invoices_id_seq 1 stale_sequence).
Proof.
  apply (create_invoice_failure_keeps_rows stale_sequence
           (set_invoices_id_seq 1 stale_sequence) (one_line 7 3 None) U1 day1).
  vm_compute. reflexivity.
Defined.

(** ** The search route *)

Lemma lookup_dict_put (k k' : string) (v : option value) (d : gmap string value) :
  invoice_routes.dict_put k v d !! k'
  = if bool_decide (k = k') then match v with Some x => Some x | None => d !! k' end
    else d !! k'.
Proof.
  unfold invoice_routes.dict_put. destruct v as [x |].
  - destruct (bool_decide (k = k')) eqn:Hk.
    + apply bool_decide_eq_true_1 in Hk. subst k'. apply lookup_insert_eq.
    + apply bool_decide_eq_false_1 in Hk. apply lookup_insert_ne, Hk.
  - destruct (bool_decide (k = k')); reflexivity.
Qed.

(** The dictionary the route builds, seen through the five keys the service
    reads. *)
Lemma route_filters_lookup (start_date end_date : option date)
  (min_price max_price : option float) (customer_name : option string) :
  let filters :=
    invoice_routes.dict_put "customer_name" (VStr <$> customer_name)
      (invoice_routes.dict_put "max_price" (VFloat <$> max_price)
         (invoice_routes.dict_put "min_price" (VFloat <$> min_price)
            (invoice_routes.dict_put "end_date" (VDate <$> end_date)
               (invoice_routes.dict_put "start_date" (VDate <$> start_date) ∅)))) in
  filters !! "customer_name" = VStr <$> customer_name
  /\ filters !! "min_total" = None
  /\ filters !! "max_total" = None
  /\ filters !! "start_date" = VDate <$> start_date
  /\ filters !! "end_date" = VDate <$> end_date.
Proof.
  intros filters. subst filters. rewrite !lookup_dict_put.
  repeat split;
    destruct customer_name, max_price, min_price, end_date, start_date;
    reflexivity.
Qed.

Lemma search_invoices_filters_ext (E : Externals) (f1 f2 : gmap string value)
  (actor : User.t) (skip limit_ : Z) (s : Session) :
  f1 !! "customer_name" = f2 !! "customer_name" ->
  f1 !! "min_total" = f2 !! "min_total" ->
  f1 !! "max_total" = f2 !! "max_total" ->
  f1 !! "start_date" = f2 !! "start_date" ->
  f1 !! "end_date" = f2 !! "end_date" ->
  invoice_service.search_invoices f1 actor skip limit_ s
  = invoice_service.search_invoices f2 actor skip limit_ s.
Proof.
  intros Hname Hmin Hmax Hstart Hend.
  unfold invoice_service.search_invoices.
  rewrite Hname, Hmin, Hmax, Hstart, Hend. reflexivity.
Qed.

(** X6.  The price bounds of [GET /invoices] never restrict the result.  The
    route stores them under the keys [min_price] and [max_price]; the service
    reads [min_total] and [max_total].  Unless the bounds are inverted (which
    the route answers with 400), the request gives what the same request
    without price bounds gives. *)
Theorem search_route_ignores_price_bounds (E : Externals)
  (start_date end_date : option date) (min_price max_price : option float)
  (customer_name : option string) (actor : User.t) (s : Session) :
  (forall lo hi,
     min_price = Some lo -> max_price = Some hi -> PrimFloat.ltb hi lo = false) ->
  invoice_routes.search_invoices start_date end_date min_price max_price
    customer_name actor s
  = invoice_routes.search_invoices start_date end_date None None
      customer_name actor s.
Proof.
  intros Hprice.
  pose proof (route_filters_lookup start_date end_date min_price max_price
                customer_name) as (H1 & H2 & H3 & H4 & H5).
  pose proof (route_filters_lookup start_date end_date None None
                customer_name) as (K1 & K2 & K3 & K4 & K5).
  unfold invoice_routes.search_invoices.
  destruct min_price as [lo |], max_price as [hi |];
    try rewrite (Hprice lo hi eq_refl eq_refl);
    unfold Mbind, ret, raise;
    (destruct start_date as [a |], end_date as [b |];
     try destruct (date_gt a b); try reflexivity;
     apply search_invoices_filters_ext; congruence).
Qed.

Lemma search_route_ignores_price_bounds_witness :
  @invoice_routes.search_invoices sample_externals None None
    (Some 100%float) (Some 200%float) (Some "Ann") U1 (SessionLocal ledger)
  = @invoice_routes.search_invoices sample_externals None None None None
      (Some "Ann") U1 (SessionLocal ledger).
Proof.
  apply (search_route_ignores_price_bounds sample_externals None None
           (Some 100%float) (Some 200%float) (Some "Ann") U1
           (SessionLocal ledger)).
  intros lo hi Hlo Hhi. inversion Hlo; inversion Hhi; subst. reflexivity.
Defined.

Lemma get_date_range_filter_date_object (E : Externals)
  (start_date end_date : option date) :
  is_Some start_date \/ is_Some end_date ->
  datetime_utils.get_date_range_filter (VDate <$> start_date) (VDate <$> end_date)
  = Raise (TypeError "fromisoformat: argument must be str").
Proof.
  intros [[a ->] | [b ->]].
  - reflexivity.
  - destruct start_date as [a |]; reflexivity.
Qed.

(** X7.  A date filter makes [GET /invoices] fail.  The route hands the
    service the [date] objects it received; [parse_date_string] passes them to
    [datetime.fromisoformat], which takes strings only.  Unless the route
    answers 400 for an inverted range, a request with a start date or an end
    date raises [TypeError] before any statement is executed. *)
Theorem search_route_date_filter_raises_TypeError (E : Externals)
  (start_date end_date : option date) (min_price max_price : option float)
  (customer_name : option string) (actor : User.t) (s : Session) :
  is_Some start_date \/ is_Some end_date ->
  (forall lo hi,
     min_price = Some lo -> max_price = Some hi -> PrimFloat.ltb hi lo = false) ->
  (forall a b, start_date = Some a -> end_date = Some b -> date_gt a b = false) ->
  invoice_routes.search_invoices start_date end_date min_price max_price
    customer_name actor s
  = (Raise (TypeError "fromisoformat: argument must be str"), s).
Proof.
  intros Hdate Hprice Hrange.
  pose proof (route_filters_lookup start_date end_date min_price max_price
                customer_name) as (_ & _ & _ & H4 & H5).
  pose proof (get_date_range_filter_date_object E start_date end_date Hdate)
    as Hparse.
  unfold invoice_routes.search_invoices.
  assert (forall filters,
            filters !! "start_date" = VDate <$> start_date ->
            filters !! "end_date" = VDate <$> end_date ->
            invoice_service.search_invoices filters actor 0 100 s
            = (Raise (TypeError "fromisoformat: argument must be str"), s))
    as Hservice.
  { intros filters K4 K5. unfold invoice_service.search_invoices, Mbind, lift.
    rewrite K4, K5, Hparse. reflexivity. }
  destruct min_price as [lo |], max_price as [hi |];
    try rewrite (Hprice lo hi eq_refl eq_refl);
    unfold Mbind, ret, raise;
    (destruct start_date as [a |], end_date as [b |];
     try rewrite (Hrange a b eq_refl eq_refl);
     apply Hservice; assumption).
Qed.

Lemma search_route_date_filter_raises_TypeError_witness :
  @invoice_routes.search_invoices sample_externals (Some (mk_date 2024 1 1))
    (Some (mk_date 2024 12 31)) None None None U1 (SessionLocal ledger)
  = (Raise (TypeError "fromisoformat: argument must be str"),
     SessionLocal ledger).
Proof.
  apply (search_route_date_filter_raises_TypeError sample_externals).
  - left. eexists. reflexivity.
  - intros lo hi Hlo. discriminate Hlo.
  - intros a b Ha Hb. inversion Ha; inversion Hb; subst. reflexivity.
Defined.

(** ** Updating a product *)

Lemma get_product_by_id_fresh (db : Database) (product_id : Z) :
  product_service.get_product_by_id product_id (SessionLocal db)
  = match product_service.first_product_with_id product_id db with
    | None => (Ok None, count_exec (SessionLocal db))
    | Some p =>
      (Ok (Some p),
       set_identity_map {[ Product.id p := {| loaded := p; current := p |} ]}
         (count_exec (SessionLocal db)))
    end.
Proof.
  unfold product_service.get_product_by_id, Mbind, session_exec.
  cbn [database SessionLocal].
  destruct (product_service.first_product_with_id product_id db) as [p |];
    [| reflexivity].
  unfold instance_for. cbn [identity_map count_exec SessionLocal].
  rewrite lookup_empty, insert_empty. reflexivity.
Qed.

Lemma holds_only_fresh (db : Database) (p : Product.t) :
  holds_only db p
    (set_identity_map {[ Product.id p := {| loaded := p; current := p |} ]}
       (count_exec (SessionLocal db))).
Proof. repeat split. Qed.

(** The commit and the refresh that end an update: the session holds one
    object, loaded as [p] and now [cur]; the rows with its key get the UPDATE
    and the refreshed object is the first of them. *)
Lemma commit_and_refresh (db : Database) (p cur : Product.t) (s : Session) :
  database s = db ->
  identity_map s = {[ Product.id p := {| loaded := p; current := cur |} ]} ->
  flushed s = [] -> new s = [] ->
  product_service.first_product_with_id (Product.id p) db = Some p ->
  exists s',
    Mbind session_commit (fun _ => session_refresh_product (Product.id p)) s
    = (Ok (write_changes {| loaded := p; current := cur |} p), s')
    /\ database s'
       = set_products
           (map (flush_row
                   {[ Product.id p := {| loaded := p; current := cur |} ]})
              (products db))
           db.
Proof.
  intros Hdb Him Hflushed Hnew Hfirst.
  destruct s as [d im fl nw ex]. simpl in Hdb, Him, Hflushed, Hnew. subst.
  unfold Mbind, session_commit. cbn [database identity_map flushed new executed].
  cbn [insert_items].
  unfold session_refresh_product. cbn [database products].
  unfold product_service.first_product_with_id in Hfirst.
  rewrite find_map_flush_row, Hfirst. cbn [fmap option_fmap option_map].
  unfold instance_for. cbn [identity_map]. rewrite lookup_empty.
  rewrite flush_row_id.
  unfold flush_row at 1 2. rewrite lookup_singleton_eq.
  eexists. split; [reflexivity |].
  cbn [database set_identity_map]. unfold set_products.
  rewrite app_nil_r. reflexivity.
Qed.

Lemma try_except_bind {A B : Type} (m : M A) (k : A -> M B) (h : exn -> M B)
  (s : Session) :
  try_except (Mbind m k) h s
  = match m s with
    | (Ok a, s') => try_except (k a) h s'
    | (Raise e, s') => h e s'
    end.
Proof.
  unfold try_except, Mbind. destruct (m s) as [[a | e] s']; reflexivity.
Qed.

Lemma validate_non_negative_number_cases (value : option number)
  (field_name : string) :
  validation_utils.validate_non_negative_number value field_name = Ok tt
  \/ validation_utils.validate_non_negative_number value field_name
     = Raise (HTTPException 400
                (field_name +:+ " must be greater than or equal to 0")).
Proof.
  unfold validation_utils.validate_non_negative_number.
  destruct value as [v |]; [| left; reflexivity].
  destruct (number_ltb_0 v); [right | left]; reflexivity.
Qed.

Lemma guarded_check_run (b : bool) (r : result unit) (s : Session) :
  (if b then lift r else ret tt) s = (if b then r else Ok tt, s).
Proof. destruct b; reflexivity. Qed.

Lemma guarded_check_cases (b : bool) (value : option number)
  (field_name : string) :
  (if b then validation_utils.validate_non_negative_number value field_name
   else Ok tt) = Ok tt
  \/ exists detail,
       (if b then validation_utils.validate_non_negative_number value field_name
        else Ok tt) = Raise (HTTPException 400 detail).
Proof.
  destruct b; [| left; reflexivity].
  destruct (validate_non_negative_number_cases value field_name) as [-> | ->];
    [left; reflexivity | right; eexists; reflexivity].
Qed.

(** The barcode check of [update_product] on a session that holds the
    product. *)
Lemma barcode_step_run (db : Database) (product_id : Z) (p : Product.t)
  (update_data : ProductUpdate.t) (s : Session) :
  holds_only db p s ->
  exists s',
    match ProductUpdate.barcode update_data with
    | Some v =>
      if negb (bool_decide (v = Some (Product.barcode p)))
      then db_utils.check_unique_constraint v
             "Product with this barcode already exists" (Some product_id)
      else ret tt
    | None => ret tt
    end s
    = (if barcode_taken db product_id p update_data
       then Raise (HTTPException 400 "Product with this barcode already exists")
       else Ok tt,
       s')
    /\ database s' = db
    /\ (barcode_taken db product_id p update_data = false -> holds_only db p s').
Proof.
  intros Hs. pose proof Hs as (Hdb & Him & Hflushed & Hnew).
  unfold barcode_taken.
  destruct (ProductUpdate.barcode update_data) as [[b |] |].
  - destruct (negb (bool_decide (Some b = Some (Product.barcode p)))).
    + unfold db_utils.check_unique_constraint, Mbind, session_exec.
      rewrite Hdb. cbn [andb].
      destruct (List.find _ (products db)) as [row |].
      * unfold instance_for. cbn [identity_map count_exec].
        destruct (identity_map s !! Product.id row);
          eexists; (split; [reflexivity |]); split;
          solve [exact Hdb | intros Hno; discriminate Hno].
      * eexists. split; [reflexivity |]. split; [exact Hdb |].
        intros _. repeat split; assumption.
    + exists s. split; [reflexivity |]. split; [exact Hdb | intros _; exact Hs].
  - destruct (negb (bool_decide (None = Some (Product.barcode p))));
      exists s; (split; [reflexivity |]); split;
      solve [exact Hdb | intros _; exact Hs].
  - exists s. split; [reflexivity |]. split; [exact Hdb | intros _; exact Hs].
Qed.

(** The end of the [try] block of [update_product]: the assignments, the
    commit and the refresh. *)
Lemma setattrs_and_commit (db : Database) (p : Product.t)
  (update_data : ProductUpdate.t) (s : Session) :
  holds_only db p s ->
  product_service.first_product_with_id (Product.id p) db = Some p ->
  exists s',
    Mbind (product_service.product_setattrs (Product.id p) update_data)
      (fun _ => db_utils.safe_commit (Product.id p)) s
    = (Ok (stored_update update_data p), s')
    /\ database s'
       = set_products
           (map (flush_row
                   {[ Product.id p :=
                        {| loaded := p;
                           current := product_service.setattrs update_data p |} ]})
              (products db))
           db.
Proof.
  intros (Hdb & Him & Hflushed & Hnew) Hfirst.
  unfold Mbind at 1. unfold product_service.product_setattrs.
  unfold db_utils.safe_commit, try_except.
  destruct (commit_and_refresh db p (product_service.setattrs update_data p)
              (set_identity_map
                 (alter (product_service.set_current
                           (product_service.setattrs update_data))
                    (Product.id p) (identity_map s)) s))
    as (s' & Hrun & Hdb'); try assumption.
  { cbn [identity_map set_identity_map]. rewrite Him.
    rewrite alter_singleton_eq. reflexivity. }
  rewrite Hrun. exists s'. split; [reflexivity | exact Hdb'].
Qed.

Lemma update_product_run (db : Database) (product_id : Z)
  (update_data : ProductUpdate.t) (actor : User.t) :
  serve (product_service.update_product product_id update_data actor) db
  = update_product_outcome db product_id update_data actor.
Proof.
  unfold serve, product_service.update_product, update_product_outcome.
  unfold Mbind at 1. rewrite get_product_by_id_fresh.
  destruct (product_service.first_product_with_id product_id db) as [p |] eqn:Hp;
    [| reflexivity].
  unfold Mbind at 1. unfold lift at 1.
  unfold auth_utils.check_resource_ownership.
  change (getattr_user_id p) with (Some (Product.user_id p)).
  unfold auth_utils.check_ownership_or_admin.
  destruct (negb (UserRole_eqb (User.role actor) ADMIN)
            && negb (User.id actor =? Product.user_id p)); [reflexivity |].
  pose proof (holds_only_fresh db p) as Hs1.
  revert Hs1.
  generalize (set_identity_map {[ Product.id p := {| loaded := p; current := p |} ]}
                (count_exec (SessionLocal db))).
  intros s1 Hs1.
  pose proof (first_product_with_id_id _ _ _ Hp) as Hid.
  rewrite try_except_bind.
  destruct (barcode_step_run db product_id p update_data s1 Hs1)
    as (s2 & -> & Hdb2 & Hs2).
  destruct (barcode_taken db product_id p update_data).
  { unfold raise. rewrite Hdb2. reflexivity. }
  specialize (Hs2 eq_refl). unfold numeric_checks.
  rewrite try_except_bind, guarded_check_run.
  destruct (guarded_check_cases
              (product_service.key_present (ProductUpdate.quantity update_data))
              (Int <$> mjoin (ProductUpdate.quantity update_data)) "quantity")
    as [-> | [detail ->]];
    [| unfold raise; cbn [and_then]; rewrite Hdb2; reflexivity].
  rewrite try_except_bind, guarded_check_run.
  destruct (guarded_check_cases
              (product_service.key_present (ProductUpdate.price update_data))
              (Float <$> mjoin (ProductUpdate.price update_data)) "price")
    as [-> | [detail ->]];
    [| unfold raise; cbn [and_then]; rewrite Hdb2; reflexivity].
  rewrite try_except_bind, guarded_check_run.
  destruct (guarded_check_cases
              (product_service.key_present (ProductUpdate.threshold update_data))
              (Int <$> mjoin (ProductUpdate.threshold update_data)) "threshold")
    as [-> | [detail ->]];
    [| unfold raise; cbn [and_then]; rewrite Hdb2; reflexivity].
  cbn [and_then].
  destruct (product_service.nulls_required update_data).
  { unfold try_except, Mbind, session_rollback, raise. cbn [database].
    rewrite Hdb2. reflexivity. }
  rewrite <- Hid in Hp.
  destruct (setattrs_and_commit db p update_data s2 Hs2 Hp) as (s3 & Hrun & Hdb3).
  unfold try_except. rewrite Hrun, Hdb3. reflexivity.
Qed.

Lemma if_bool_decide_same {A : Type} `{EqDecision A} (x y : A) :
  (if bool_decide (x = y) then x else y) = y.
Proof.
  destruct (bool_decide (x = y)) eqn:Hxy; [| reflexivity].
  apply bool_decide_eq_true_1 in Hxy. exact Hxy.
Qed.

Lemma stored_update_fields (update_data : ProductUpdate.t) (p : Product.t) :
  let cur := product_service.setattrs update_data p in
  stored_update update_data p
  = Product.mk (Product.id p) (Product.user_id p) (Product.name cur)
      (Product.barcode cur) (Product.category cur) (Product.quantity cur)
      (if PrimFloat.eqb (Product.price p) (Product.price cur)
       then Product.price p else Product.price cur)
      (Product.threshold cur) (Product.description cur) (Product.created_at p).
Proof.
  intros cur. unfold stored_update, write_changes.
  cbn [loaded current]. fold cur.
  rewrite !if_bool_decide_same. reflexivity.
Qed.

Lemma find_flushed_other (p cur : Product.t) (key : Z) (db : Database) :
  key <> Product.id p ->
  product_service.first_product_with_id key
    (set_products
       (map (flush_row {[ Product.id p := {| loaded := p; current := cur |} ]})
          (products db)) db)
  = product_service.first_product_with_id key db.
Proof.
  intros Hne. unfold product_service.first_product_with_id, set_products.
  cbn [products]. rewrite find_map_flush_row.
  destruct (List.find (fun q => Product.id q =? key) (products db)) as [row |] eqn:Hrow;
    [| reflexivity].
  apply find_some in Hrow. destruct Hrow as [_ Hid]. apply Z.eqb_eq in Hid.
  cbn [fmap option_fmap option_map]. unfold flush_row.
  rewrite lookup_singleton_ne by congruence. reflexivity.
Qed.

Lemma find_flushed_same (p cur : Product.t) (db : Database) :
  product_service.first_product_with_id (Product.id p) db = Some p ->
  product_service.first_product_with_id (Product.id p)
    (set_products
       (map (flush_row {[ Product.id p := {| loaded := p; current := cur |} ]})
          (products db)) db)
  = Some (write_changes {| loaded := p; current := cur |} p).
Proof.
  intros Hp. unfold product_service.first_product_with_id, set_products in *.
  cbn [products]. rewrite find_map_flush_row, Hp.
  cbn [fmap option_fmap option_map]. unfold flush_row.
  rewrite lookup_singleton_eq. reflexivity.
Qed.

Lemma barcode_free (db : Database) (product_id : Z) (p : Product.t)
  (update_data : ProductUpdate.t) :
  (forall b,
     ProductUpdate.barcode update_data = Some (Some b) ->
     b = Product.barcode p
     \/ forall q,
          In q (products db) -> Product.barcode q = b ->
          Product.id q = product_id /\ product_id <> 0) ->
  barcode_taken db product_id p update_data = false.
Proof.
  intros Hfree. unfold barcode_taken.
  destruct (ProductUpdate.barcode update_data) as [[b |] |]; try reflexivity.
  destruct (Hfree b eq_refl) as [-> | Hother].
  - destruct (bool_decide (Some (Product.barcode p) = Some (Product.barcode p)))
      eqn:Hsame; [reflexivity |].
    apply bool_decide_eq_false_1 in Hsame. congruence.
  - destruct (List.find _ (products db)) as [q |] eqn:Hfind;
      [| apply andb_false_r].
    exfalso. apply find_some in Hfind. destruct Hfind as [Hin Hq].
    apply andb_prop in Hq. destruct Hq as [Hb Hid].
    apply String.eqb_eq in Hb. destruct (Hother q Hin Hb) as [Hsame Hnz].
    apply Z.eqb_neq in Hnz. rewrite Hnz in Hid.
    rewrite Hsame, Z.eqb_refl in Hid. discriminate Hid.
Qed.

Lemma numeric_checks_pass (update_data : ProductUpdate.t) :
  (forall v, ProductUpdate.quantity update_data = Some (Some v) -> 0 <= v) ->
  (forall x, ProductUpdate.price update_data = Some (Some x) ->
             PrimFloat.ltb x 0%float = false) ->
  (forall v, ProductUpdate.threshold update_data = Some (Some v) -> 0 <= v) ->
  numeric_checks update_data = Ok tt.
Proof.
  intros Hq Hx Ht. unfold numeric_checks.
  destruct (ProductUpdate.quantity update_data) as [[q |] |];
    destruct (ProductUpdate.price update_data) as [[x |] |];
    destruct (ProductUpdate.threshold update_data) as [[t |] |];
    cbn;
    try (specialize (Hq _ eq_refl); apply Z.ltb_ge in Hq; rewrite Hq);
    try (rewrite (Hx _ eq_refl));
    try (specialize (Ht _ eq_refl); apply Z.ltb_ge in Ht; rewrite Ht);
    reflexivity.
Qed.

(** X8.  An update by the owner or an admin that passes the checks stores
    exactly the supplied fields on the addressed product.  The preconditions
    are those of the code: the product exists, a new barcode is held by no
    other product, the numbers supplied are not negative (and fit their
    INTEGER columns), and no required column is set to null.  Then
    [update_product] returns the stored row; each supplied field has its new
    value and each other field its old one; [id], [user_id] and [created_at]
    never change; every other product, the invoices, the invoice items and the
    sequences are as they were.  (A price that compares equal to the old one,
    as -0.0 does to 0.0, is not written.) *)
Theorem update_product_stores_supplied_fields (db : Database) (product_id : Z)
  (update_data : ProductUpdate.t) (actor : User.t) (p : Product.t) :
  product_service.first_product_with_id product_id db = Some p ->
  may_access actor (Product.user_id p) ->
  (forall b,
     ProductUpdate.barcode update_data = Some (Some b) ->
     b = Product.barcode p
     \/ forall q,
          In q (products db) -> Product.barcode q = b ->
          Product.id q = product_id /\ product_id <> 0) ->
  (forall v, ProductUpdate.quantity update_data = Some (Some v) ->
             0 <= v < 2 ^ 31) ->
  (forall x, ProductUpdate.price update_data = Some (Some x) ->
             PrimFloat.ltb x 0%float = false) ->
  (forall v, ProductUpdate.threshold update_data = Some (Some v) ->
             0 <= v < 2 ^ 31) ->
  product_service.nulls_required update_data = false ->
  exists p' rows,
    serve (product_service.update_product product_id update_data actor) db
      = (Ok p', set_products rows db)
    /\ product_service.first_product_with_id product_id (set_products rows db)
       = Some p'
    /\ (forall key,
          key <> product_id ->
          product_service.first_product_with_id key (set_products rows db)
          = product_service.first_product_with_id key db)
    /\ Product.id p' = Product.id p
    /\ Product.user_id p' = Product.user_id p
    /\ Product.created_at p' = Product.created_at p
    /\ Product.name p'
       = product_service.assigned (ProductUpdate.name update_data) (Product.name p)
    /\ Product.barcode p'
       = product_service.assigned (ProductUpdate.barcode update_data)
           (Product.barcode p)
    /\ Product.category p'
       = default (Product.category p) (ProductUpdate.category update_data)
    /\ Product.quantity p'
       = product_service.assigned (ProductUpdate.quantity update_data)
           (Product.quantity p)
    /\ Product.threshold p'
       = product_service.assigned (ProductUpdate.threshold update_data)
           (Product.threshold p)
    /\ Product.description p'
       = default (Product.description p) (ProductUpdate.description update_data)
    /\ (Product.price p'
        = product_service.assigned (ProductUpdate.price update_data)
            (Product.price p)
        \/ (Product.price p' = Product.price p
            /\ PrimFloat.eqb (Product.price p)
                 (product_service.assigned (ProductUpdate.price update_data)
                    (Product.price p)) = true)).
Proof.
  intros Hp Hmay Hbar Hq Hx Ht Hnulls.
  pose proof (first_product_with_id_id _ _ _ Hp) as Hid.
  exists (stored_update update_data p),
    (map (flush_row
            {[ Product.id p :=
                 {| loaded := p;
                    current := product_service.setattrs update_data p |} ]})
       (products db)).
  split; [| split; [| split]].
  - rewrite update_product_run. unfold update_product_outcome.
    rewrite Hp.
    apply may_access_checked in Hmay. rewrite Hmay.
    rewrite (barcode_free db product_id p update_data Hbar).
    rewrite numeric_checks_pass, Hnulls; [reflexivity | | exact Hx |].
    + intros v Hv. apply (Hq v Hv).
    + intros v Hv. apply (Ht v Hv).
  - rewrite <- Hid. apply find_flushed_same. rewrite Hid. exact Hp.
  - intros key Hkey. apply find_flushed_other. congruence.
  - rewrite stored_update_fields. cbn.
    repeat (split; [reflexivity |]).
    destruct (PrimFloat.eqb (Product.price p)
                (product_service.assigned (ProductUpdate.price update_data)
                   (Product.price p))) eqn:Heq.
    + right. split; reflexivity.
    + left. reflexivity.
Qed.

(** A new price and a new quantity for the tea of the sample shop. *)
Lemma update_product_stores_supplied_fields_witness :
  let update_data :=
    ProductUpdate.mk None None None (Some (Some 12)) (Some (Some 6.5%float))
      None None in
  exists p' rows,
    serve (product_service.update_product 7 update_data U1) (shop 10)
      = (Ok p', set_products rows (shop 10))
    /\ product_service.first_product_with_id 7 (set_products rows (shop 10))
       = Some p'
    /\ (forall key,
          key <> 7 ->
          product_service.first_product_with_id key (set_products rows (shop 10))
          = product_service.first_product_with_id key (shop 10))
    /\ Product.id p' = 7
    /\ Product.user_id p' = 1
    /\ Product.created_at p' = epoch
    /\ Product.name p' = "Tea"
    /\ Product.barcode p' = "4006381333931"
    /\ Product.category p' = None
    /\ Product.quantity p' = 12
    /\ Product.threshold p' = 2
    /\ Product.description p' = None
    /\ (Product.price p' = 6.5%float
        \/ (Product.price p' = 5%float
            /\ PrimFloat.eqb 5%float 6.5%float = true)).
Proof.
  intros update_data.
  apply (update_product_stores_supplied_fields (shop 10) 7 update_data U1
           (set_quantity 10 P)).
  - reflexivity.
  - right. reflexivity.
  - intros b Hb. discriminate Hb.
  - intros v Hv. inversion Hv; subst v. split; [lia |]. reflexivity.
  - intros x Hx. inversion Hx; subst x. reflexivity.
  - intros v Hv. discriminate Hv.
  - reflexivity.
Defined.

Lemma numeric_checks_cases (update_data : ProductUpdate.t) :
  numeric_checks update_data = Ok tt
  \/ exists detail, numeric_checks update_data = Raise (HTTPException 400 detail).
Proof.
  unfold numeric_checks.
  destruct (guarded_check_cases
              (product_service.key_present (ProductUpdate.quantity update_data))
              (Int <$> mjoin (ProductUpdate.quantity update_data)) "quantity")
    as [-> | [detail ->]]; [| right; eexists; reflexivity].
  destruct (guarded_check_cases
              (product_service.key_present (ProductUpdate.price update_data))
              (Float <$> mjoin (ProductUpdate.price update_data)) "price")
    as [-> | [detail ->]]; [| right; eexists; reflexivity].
  cbn [and_then]. apply guarded_check_cases.
Qed.

(** X9.  Whenever [update_product] fails it raises an [HTTPException] with
    status 400, 403, 404 or 500 and leaves the whole database, rows and
    sequences, exactly as it was. *)
Theorem update_product_failure_changes_nothing (db db' : Database)
  (product_id : Z) (update_data : ProductUpdate.t) (actor : User.t) (e : exn) :
  serve (product_service.update_product product_id update_data actor) db
    = (Raise e, db') ->
  db' = db
  /\ exists status detail,
       e = HTTPException status detail
       /\ (status = 400 \/ status = 403 \/ status = 404 \/ status = 500).
Proof.
  rewrite update_product_run. unfold update_product_outcome. intros Hout.
  destruct (product_service.first_product_with_id product_id db) as [p |].
  2: { inversion Hout. split; [reflexivity |]. do 2 eexists.
       split; [reflexivity | tauto]. }
  destruct (negb (UserRole_eqb (User.role actor) ADMIN)
            && negb (User.id actor =? Product.user_id p)).
  { inversion Hout. split; [reflexivity |]. do 2 eexists.
    split; [reflexivity | tauto]. }
  destruct (barcode_taken db product_id p update_data).
  { inversion Hout. split; [reflexivity |]. do 2 eexists.
    split; [reflexivity | tauto]. }
  destruct (numeric_checks_cases update_data) as [Hok | [detail Hbad]].
  - rewrite Hok in Hout.
    destruct (product_service.nulls_required update_data); [| discriminate Hout].
    inversion Hout. split; [reflexivity |]. do 2 eexists.
    split; [reflexivity | tauto].
  - rewrite Hbad in Hout. inversion Hout. split; [reflexivity |].
    do 2 eexists. split; [reflexivity | tauto].
Qed.

Lemma update_product_failure_changes_nothing_witness :
  two_sellers = two_sellers
  /\ exists status detail,
       HTTPException 400 "price must be greater than or equal to 0"
       = HTTPException status detail
       /\ (status = 400 \/ status = 403 \/ status = 404 \/ status = 500).
Proof.
  apply (update_product_failure_changes_nothing two_sellers two_sellers 7
           (ProductUpdate.mk None None None None (Some (Some (-1)%float))
              None None)
           U1).
  vm_compute. reflexivity.
Defined.

(** X10.  [update_product] keeps barcodes unique: an update that gives the
    product a barcode, other than its own, that another product holds is
    answered 400 and changes nothing. *)
Theorem update_product_refuses_taken_barcode (db : Database) (product_id : Z)
  (update_data : ProductUpdate.t) (actor : User.t) (p q : Product.t)
  (b : string) :
  product_service.first_product_with_id product_id db = Some p ->
  may_access actor (Product.user_id p) ->
  ProductUpdate.barcode update_data = Some (Some b) ->
  b <> Product.barcode p ->
  In q (products db) ->
  Product.barcode q = b ->
  Product.id q <> product_id ->
  serve (product_service.update_product product_id update_data actor) db
  = (Raise (HTTPException 400 "Product with this barcode already exists"), db).
Proof.
  intros Hp Hmay Hb Hnew Hq Hheld Hother.
  rewrite update_product_run. unfold update_product_outcome. rewrite Hp.
  apply may_access_checked in Hmay. rewrite Hmay.
  assert (barcode_taken db product_id p update_data = true) as ->; [| reflexivity].
  unfold barcode_taken. rewrite Hb.
  rewrite bool_decide_eq_false_2 by congruence. cbn [negb andb].
  destruct (List.find _ (products db)) as [row |] eqn:Hfind; [reflexivity |].
  exfalso. apply (find_none _ _ Hfind q) in Hq.
  apply andb_false_iff in Hq. destruct Hq as [Hq | Hq].
  - apply String.eqb_neq in Hq. congruence.
  - destruct (product_id =? 0); [discriminate Hq |].
    apply negb_false_iff, Z.eqb_eq in Hq. congruence.
Qed.

Lemma update_product_refuses_taken_barcode_witness :
  serve (product_service.update_product 7
           (ProductUpdate.mk None (Some (Some "5000159407236")) None None None
              None None)
           U1) two_sellers
  = (Raise (HTTPException 400 "Product with this barcode already exists"),
     two_sellers).
Proof.
  apply (update_product_refuses_taken_barcode two_sellers 7 _ U1 P Q
           "5000159407236").
  - reflexivity.
  - right. reflexivity.
  - reflexivity.
  - discriminate.
  - right. left. reflexivity.
  - reflexivity.
  - discriminate.
Defined.

(** ** Deleting a product *)

Lemma filter_flushed_others (p : Product.t) (rows : list Product.t) :
  List.filter (fun q => negb (Product.id q =? Product.id p))
    (map (flush_row {[ Product.id p := {| loaded := p; current := p |} ]}) rows)
  = List.filter (fun q => negb (Product.id q =? Product.id p)) rows.
Proof.
  induction rows as [| row rest IH]; [reflexivity |].
  cbn [map List.filter]. rewrite flush_row_id, IH.
  destruct (Z.eqb_spec (Product.id row) (Product.id p)) as [Heq | Hne];
    [reflexivity |].
  cbn [negb]. unfold flush_row.
  rewrite lookup_singleton_ne by congruence. reflexivity.
Qed.

Lemma find_filter_others (key k : Z) (rows : list Product.t) :
  List.find (fun q => Product.id q =? k)
    (List.filter (fun q => negb (Product.id q =? key)) rows)
  = if k =? key then None else List.find (fun q => Product.id q =? k) rows.
Proof.
  induction rows as [| row rest IH].
  - simpl. destruct (k =? key); reflexivity.
  - cbn [List.filter List.find].
    destruct (Z.eqb_spec (Product.id row) key) as [Hrow | Hrow]; cbn [negb].
    + rewrite IH. destruct (Z.eqb_spec k key) as [Hk | Hk]; [reflexivity |].
      destruct (Z.eqb_spec (Product.id row) k); [congruence | reflexivity].
    + cbn [List.find]. rewrite IH.
      destruct (Z.eqb_spec (Product.id row) k) as [Hk | Hk]; [| reflexivity].
      destruct (Z.eqb_spec k key); [congruence | reflexivity].
Qed.

(** What [delete_product] computes on a request of its own. *)
Lemma delete_product_run (db : Database) (product_id : Z) (actor : User.t) :
  serve (product_service.delete_product product_id actor) db
  = match product_service.first_product_with_id product_id db with
    | None => (Raise (HTTPException 404 "Product not found"), db)
    | Some p =>
      if negb (UserRole_eqb (User.role actor) ADMIN)
         && negb (User.id actor =? Product.user_id p)
      then (Raise (HTTPException 403 "Not authorized to access this product"),
            db)
      else if referenced (Product.id p) (invoice_items db)
      then (Raise (HTTPException 500 "Failed to delete resource"), db)
      else
        (Ok true,
         set_products
           (List.filter (fun q => negb (Product.id q =? Product.id p))
              (products db))
           db)
    end.
Proof.
  unfold serve, product_service.delete_product.
  unfold Mbind at 1. rewrite get_product_by_id_fresh.
  destruct (product_service.first_product_with_id product_id db) as [p |] eqn:Hp;
    [| reflexivity].
  unfold Mbind at 1. unfold lift at 1.
  unfold auth_utils.check_resource_ownership.
  change (getattr_user_id p) with (Some (Product.user_id p)).
  unfold auth_utils.check_ownership_or_admin.
  destruct (negb (UserRole_eqb (User.role actor) ADMIN)
            && negb (User.id actor =? Product.user_id p)); [reflexivity |].
  unfold db_utils.safe_delete, try_except, Mbind, session_delete_commit.
  cbn [database identity_map flushed new executed set_identity_map count_exec
       SessionLocal insert_items].
  destruct (referenced (Product.id p) (invoice_items db)).
  { unfold session_rollback, raise. cbn [database set_database].
    destruct db; reflexivity. }
  unfold ret. cbn [database]. rewrite filter_flushed_others.
  unfold set_products. rewrite app_nil_r. reflexivity.
Qed.

(** X11.  [delete_product] answers 404 for a product that is not stored and
    403 for one the actor neither owns nor administers, leaving the database
    as it was.  For the owner or an admin, and a product that no invoice item
    refers to, it returns [True] and removes that product only: the product
    is no longer found, every other product is as before, and the invoices
    and invoice items are untouched. *)
Theorem delete_product_outcomes (db : Database) (product_id : Z)
  (actor : User.t) :
  (product_service.first_product_with_id product_id db = None ->
   serve (product_service.delete_product product_id actor) db
   = (Raise (HTTPException 404 "Product not found"), db))
  /\ (forall p,
        product_service.first_product_with_id product_id db = Some p ->
        ~ may_access actor (Product.user_id p) ->
        serve (product_service.delete_product product_id actor) db
        = (Raise (HTTPException 403 "Not authorized to access this product"),
           db))
  /\ (forall p,
        product_service.first_product_with_id product_id db = Some p ->
        may_access actor (Product.user_id p) ->
        referenced product_id (invoice_items db) = false ->
        exists db',
          serve (product_service.delete_product product_id actor) db
            = (Ok true, db')
          /\ product_service.first_product_with_id product_id db' = None
          /\ (forall key,
                key <> product_id ->
                product_service.first_product_with_id key db'
                = product_service.first_product_with_id key db)
          /\ invoices db' = invoices db
          /\ invoice_items db' = invoice_items db).
Proof.
  rewrite delete_product_run.
  split; [intros ->; reflexivity |]. split.
  - intros p Hp Hno. rewrite Hp.
    destruct (negb (UserRole_eqb (User.role actor) ADMIN)
              && negb (User.id actor =? Product.user_id p)) eqn:Hguard;
      [reflexivity |].
    exfalso. apply Hno, may_access_checked, Hguard.
  - intros p Hp Hmay Hfree. rewrite Hp.
    pose proof (first_product_with_id_id _ _ _ Hp) as Hid.
    apply may_access_checked in Hmay. rewrite Hmay, Hid, Hfree.
    eexists. split; [reflexivity |].
    unfold product_service.first_product_with_id, set_products.
    cbn [products invoices invoice_items].
    split; [rewrite find_filter_others, Z.eqb_refl; reflexivity |].
    split; [| split; reflexivity].
    intros key Hkey. rewrite find_filter_others.
    destruct (Z.eqb_spec key product_id); [contradiction | reflexivity].
Qed.

Lemma delete_product_outcomes_witness :
  serve (product_service.delete_product 9 U1) (shop 10)
  = (Raise (HTTPException 404 "Product not found"), shop 10)
  /\ serve (product_service.delete_product 7 U2) (shop 10)
     = (Raise (HTTPException 403 "Not authorized to access this product"),
        shop 10)
  /\ exists db',
       serve (product_service.delete_product 7 U1) (shop 10) = (Ok true, db')
       /\ product_service.first_product_with_id 7 db' = None
       /\ (forall key,
             key <> 7 ->
             product_service.first_product_with_id key db'
             = product_service.first_product_with_id key (shop 10))
       /\ invoices db' = invoices (shop 10)
       /\ invoice_items db' = invoice_items (shop 10).
Proof.
  refine (conj (proj1 (delete_product_outcomes (shop 10) 9 U1) eq_refl)
            (conj (proj1 (proj2 (delete_product_outcomes (shop 10) 7 U2))
                     (set_quantity 10 P) eq_refl _)
                  (proj2 (proj2 (delete_product_outcomes (shop 10) 7 U1))
                     (set_quantity 10 P) eq_refl _ eq_refl))).
  - intros [Hadmin | Hown]; [discriminate Hadmin | discriminate Hown].
  - right. reflexivity.
Defined.

Lemma Forall2_In_l {A B : Type} (R : A -> B -> Prop) (xs : list A) (ys : list B)
  (x : A) :
  Forall2 R xs ys -> In x xs -> exists y, In y ys /\ R x y.
Proof.
  induction 1 as [| x' y xs ys Hxy _ IH]; intros Hin.
  - contradiction.
  - destruct Hin as [-> | Hin].
    + exists y. split; [left; reflexivity | exact Hxy].
    + destruct (IH Hin) as (y' & Hy' & Hr). exists y'.
      split; [right; exact Hy' | exact Hr].
Qed.

(** X12.  A product that has been sold can no longer be deleted.  After a
    call of [create_invoice] that succeeded, [delete_product] on the product
    of any of its lines fails for every actor and changes nothing: 500
    "Failed to delete resource" for the owner or an admin (the invoice item
    refers to the product), 403 for anyone else. *)
Theorem sold_product_cannot_be_deleted (db db' : Database)
  (req : InvoiceCreate.t) (seller : User.t) (now : datetime) (inv : Invoice.t)
  (line : InvoiceItemCreate.t) (actor : User.t) :
  serve (invoice_service.create_invoice req seller now) db = (Ok inv, db') ->
  In line (InvoiceCreate.items req) ->
  exists p,
    product_service.first_product_with_id (InvoiceItemCreate.product_id line) db'
      = Some p
    /\ (may_access actor (Product.user_id p) ->
        serve (product_service.delete_product
                 (InvoiceItemCreate.product_id line) actor) db'
        = (Raise (HTTPException 500 "Failed to delete resource"), db'))
    /\ (~ may_access actor (Product.user_id p) ->
        serve (product_service.delete_product
                 (InvoiceItemCreate.product_id line) actor) db'
        = (Raise (HTTPException 403 "Not authorized to access this product"),
           db')).
Proof.
  intros Hserve Hline.
  destruct (lines_validated _ _ _ _ _ _ Hserve)
    as (vs & rows & Hall & _ & _ & _ & Hitems & Hrows & Hstock).
  pose proof (Forall2_through_map _ _ _ _ _ _ Hall Hrows) as Hlines.
  destruct (Forall2_In_l _ _ _ line Hlines Hline) as (row & Hrow & v & Hv & k & ->).
  destruct (checked_line_Ok _ _ _ _ Hv) as (p & Hp & _ & _ & _ & Hfields).
  pose proof (Hstock _ _ Hp) as Hp'.
  eexists. split; [exact Hp' |].
  rewrite delete_product_run, Hp'.
  pose proof (first_product_with_id_id _ _ _ Hp') as Hid.
  assert (referenced (InvoiceItemCreate.product_id line) (invoice_items db') = true)
    as Href.
  { unfold referenced. apply existsb_exists. eexists.
    split; [rewrite Hitems; apply in_or_app; right; exact Hrow |].
    cbn [InvoiceItem.product_id item_of]. rewrite Hfields. cbn.
    apply Z.eqb_refl. }
  rewrite Hid, Href. split.
  - intros Hmay. apply may_access_checked in Hmay. rewrite Hmay. reflexivity.
  - intros Hno.
    destruct (negb (UserRole_eqb (User.role actor) ADMIN)
              && negb (User.id actor =? Product.user_id _)) eqn:Hguard;
      [reflexivity |].
    exfalso. apply Hno, may_access_checked, Hguard.
Qed.

Lemma sold_product_cannot_be_deleted_witness :
  let after := mk_Database [set_quantity 7 P]
                 [Invoice.mk (Some 1) 1 None 15%float day1]
                 [InvoiceItem.mk (Some 1) 1 7 3 5%float] 1 1 in
  exists p,
    product_service.first_product_with_id 7 after = Some p
    /\ (may_access U1 (Product.user_id p) ->
        serve (product_service.delete_product 7 U1) after
        = (Raise (HTTPException 500 "Failed to delete resource"), after))
    /\ (~ may_access U1 (Product.user_id p) ->
        serve (product_service.delete_product 7 U1) after
        = (Raise (HTTPException 403 "Not authorized to access this product"),
           after)).
Proof.
  intros after.
  apply (sold_product_cannot_be_deleted (shop 10) after (one_line 7 3 None) U1
           day1 (Invoice.mk (Some 1) 1 None 15%float day1)
           (InvoiceItemCreate.mk 7 3 None) U1).
  - vm_compute. reflexivity.
  - left. reflexivity.
Defined.

(** ** Changing a quantity *)

Lemma update_product_quantity_run (db : Database) (product_id : Z)
  (quantity_change : Z) (actor : User.t) :
  serve (product_service.update_product_quantity product_id quantity_change
           actor) db
  = match product_service.first_product_with_id product_id db with
    | None => (Raise (HTTPException 404 "Product not found"), db)
    | Some p =>
      if negb (UserRole_eqb (User.role actor) ADMIN)
         && negb (Product.user_id p =? User.id actor)
      then (Raise (HTTPException 403 "Not authorized to update this product"),
            db)
      else if Product.quantity p + quantity_change <? 0
      then (Raise (HTTPException 400 "Insufficient stock for this operation"),
            db)
      else
        let cur := set_quantity (Product.quantity p + quantity_change) p in
        (Ok cur,
         set_products
           (map (flush_row {[ Product.id p := {| loaded := p; current := cur |} ]})
              (products db))
           db)
    end.
Proof.
  unfold serve, product_service.update_product_quantity.
  unfold Mbind at 1. rewrite get_product_by_id_fresh.
  destruct (product_service.first_product_with_id product_id db) as [p |] eqn:Hp;
    [| reflexivity].
  destruct (negb (UserRole_eqb (User.role actor) ADMIN)
            && negb (Product.user_id p =? User.id actor)); [reflexivity |].
  destruct (Product.quantity p + quantity_change <? 0); [reflexivity |].
  pose proof (first_product_with_id_id _ _ _ Hp) as Hid.
  rewrite <- Hid in Hp.
  unfold try_except. unfold Mbind at 1.
  unfold product_service.product_quantity_set.
  destruct (commit_and_refresh db p
              (set_quantity (Product.quantity p + quantity_change) p)
              (set_identity_map
                 (alter (product_service.set_current
                           (set_quantity (Product.quantity p + quantity_change)))
                    (Product.id p)
                    (identity_map
                       (set_identity_map
                          {[ Product.id p := {| loaded := p; current := p |} ]}
                          (count_exec (SessionLocal db)))))
                 (set_identity_map
                    {[ Product.id p := {| loaded := p; current := p |} ]}
                    (count_exec (SessionLocal db)))))
    as (s' & Hrun & Hdb'); try reflexivity; try assumption.
  { cbn [identity_map set_identity_map]. rewrite alter_singleton_eq. reflexivity. }
  rewrite Hrun, Hdb', write_changes_quantity. reflexivity.
Qed.

(** X13.  The outcomes of [update_product_quantity].  When it returns, the
    product existed, the actor is its owner or an admin, the returned and
    stored row is the old one with [quantity_change] added to its quantity,
    that quantity is not negative, and nothing else changed: not another
    product, not an invoice, not an invoice item.  When it raises, it raises an
    [HTTPException] (400, 403, 404 or 500) and the database is as it was. *)
Theorem update_product_quantity_outcomes (db db' : Database) (product_id : Z)
  (quantity_change : Z) (actor : User.t) (r : result Product.t) :
  serve (product_service.update_product_quantity product_id quantity_change
           actor) db = (r, db') ->
  match r with
  | Ok p' =>
    exists p,
      product_service.first_product_with_id product_id db = Some p
      /\ may_sell actor p
      /\ p' = set_quantity (Product.quantity p + quantity_change) p
      /\ 0 <= Product.quantity p'
      /\ product_service.first_product_with_id product_id db' = Some p'
      /\ (forall key,
            key <> product_id ->
            product_service.first_product_with_id key db'
            = product_service.first_product_with_id key db)
      /\ invoices db' = invoices db
      /\ invoice_items db' = invoice_items db
  | Raise e =>
    db' = db
    /\ exists status detail,
         e = HTTPException status detail
         /\ (status = 400 \/ status = 403 \/ status = 404 \/ status = 500)
  end.
Proof.
  rewrite update_product_quantity_run. intros Hout.
  destruct (product_service.first_product_with_id product_id db) as [p |] eqn:Hp.
  2: { inversion Hout. split; [reflexivity |]. do 2 eexists.
       split; [reflexivity | tauto]. }
  destruct (negb (UserRole_eqb (User.role actor) ADMIN)
            && negb (Product.user_id p =? User.id actor)) eqn:Hguard.
  { inversion Hout. split; [reflexivity |]. do 2 eexists.
    split; [reflexivity | tauto]. }
  destruct (Z.ltb_spec (Product.quantity p + quantity_change) 0) as [Hneg | Hpos].
  { inversion Hout. split; [reflexivity |]. do 2 eexists.
    split; [reflexivity | tauto]. }
  cbv zeta in Hout. inversion Hout; subst r db'. clear Hout.
  pose proof (first_product_with_id_id _ _ _ Hp) as Hid.
  exists p. split; [reflexivity |].
  split; [apply may_sell_checked, Hguard |].
  split; [reflexivity |]. split; [exact Hpos |].
  split; [| split; [| split; reflexivity]].
  - rewrite <- Hid. rewrite <- Hid in Hp.
    rewrite (find_flushed_same p _ db Hp), write_changes_quantity. reflexivity.
  - intros key Hkey. apply find_flushed_other. congruence.
Qed.

Lemma update_product_quantity_outcomes_witness :
  (exists p,
     product_service.first_product_with_id 7 (shop 10) = Some p
     /\ may_sell U1 p
     /\ set_quantity 4 P = set_quantity (Product.quantity p + -6) p
     /\ 0 <= Product.quantity (set_quantity 4 P)
     /\ product_service.first_product_with_id 7 (shop 4)
        = Some (set_quantity 4 P)
     /\ (forall key,
           key <> 7 ->
           product_service.first_product_with_id key (shop 4)
           = product_service.first_product_with_id key (shop 10))
     /\ invoices (shop 4) = invoices (shop 10)
     /\ invoice_items (shop 4) = invoice_items (shop 10))
  /\ (shop 4 = shop 4
      /\ exists status detail,
           HTTPException 400 "Insufficient stock for this operation"
           = HTTPException status detail
           /\ (status = 400 \/ status = 403 \/ status = 404 \/ status = 500)).
Proof.
  split.
  - apply (update_product_quantity_outcomes (shop 10) (shop 4) 7 (-6) U1
             (Ok (set_quantity 4 P))).
    vm_compute. reflexivity.
  - apply (update_product_quantity_outcomes (shop 4) (shop 4) 7 (-6) U1
             (Raise (HTTPException 400 "Insufficient stock for this operation"))).
    vm_compute. reflexivity.
Defined.

Lemma flush_row_quantity (p : Product.t) (n : Z) (row : Product.t) :
  Product.quantity
    (flush_row {[ Product.id p := {| loaded := p; current := set_quantity n p |} ]}
       row)
  = Product.quantity row
  \/ Product.quantity
       (flush_row
          {[ Product.id p := {| loaded := p; current := set_quantity n p |} ]} row)
     = n.
Proof.
  unfold flush_row.
  destruct (decide (Product.id p = Product.id row)) as [Heq | Hne].
  - rewrite <- Heq, lookup_singleton_eq. unfold write_changes.
    cbn [loaded current Product.quantity set_quantity].
    destruct (bool_decide (Product.quantity p = n)); [left | right]; reflexivity.
  - rewrite lookup_singleton_ne by exact Hne. left. reflexivity.
Qed.

(** X14.  [update_product_quantity] never leaves a negative stock: when no
    stored quantity is negative before the call, none is after it, whatever
    the arguments and whatever the outcome.  ([create_invoice] gives no such
    guarantee: two lines on one product pass the same stock check.) *)
Theorem update_product_quantity_keeps_stock_non_negative (db : Database)
  (product_id : Z) (quantity_change : Z) (actor : User.t) :
  Forall (fun q => 0 <= Product.quantity q) (products db) ->
  Forall (fun q => 0 <= Product.quantity q)
    (products
       (snd (serve (product_service.update_product_quantity product_id
                      quantity_change actor) db))).
Proof.
  intros Hdb. rewrite update_product_quantity_run.
  destruct (product_service.first_product_with_id product_id db) as [p |];
    [| exact Hdb].
  destruct (negb (UserRole_eqb (User.role actor) ADMIN)
            && negb (Product.user_id p =? User.id actor)); [exact Hdb |].
  destruct (Z.ltb_spec (Product.quantity p + quantity_change) 0) as [Hneg | Hpos];
    [exact Hdb |].
  cbn [snd set_products products].
  apply Forall_map. eapply Forall_impl; [exact Hdb |].
  intros row Hrow. cbn beta.
  destruct (flush_row_quantity p (Product.quantity p + quantity_change) row)
    as [-> | ->]; assumption.
Qed.

Lemma update_product_quantity_keeps_stock_non_negative_witness :
  Forall (fun q => 0 <= Product.quantity q)
    (products
       (snd (serve (product_service.update_product_quantity 7 (-11) U1)
               (shop 10)))).
Proof.
  apply (update_product_quantity_keeps_stock_non_negative (shop 10) 7 (-11) U1).
  constructor; [| constructor]. simpl. lia.
Defined.

Lemma pkey_row_unique (rows : list Product.t) (p r : Product.t) :
  NoDup (map Product.id rows) ->
  In p rows -> In r rows -> Product.id r = Product.id p -> r = p.
Proof.
  induction rows as [| x rest IH]; intros Hnd Hp Hr Hid; [contradiction |].
  cbn [map] in Hnd. apply NoDup_cons in Hnd. destruct Hnd as [Hx Hrest].
  rewrite list_elem_of_In in Hx.
  destruct Hp as [-> | Hp], Hr as [-> | Hr].
  - reflexivity.
  - exfalso. apply Hx. rewrite <- Hid. apply in_map, Hr.
  - exfalso. apply Hx. rewrite Hid. apply in_map, Hp.
  - apply IH; assumption.
Qed.

(** Under the primary key the UPDATE of a changed quantity touches the one
    row of the product. *)
Lemma map_flush_pkey (db : Database) (p : Product.t) (n : Z) :
  products_pkey db ->
  product_service.first_product_with_id (Product.id p) db = Some p ->
  map (flush_row {[ Product.id p := {| loaded := p; current := set_quantity n p |} ]})
    (products db)
  = map (fun r => if Product.id r =? Product.id p then set_quantity n r else r)
      (products db).
Proof.
  intros Hpkey Hp. apply map_ext_in. intros r Hr.
  unfold flush_row.
  destruct (Z.eqb_spec (Product.id r) (Product.id p)) as [Heq | Hne].
  - rewrite Heq, lookup_singleton_eq.
    assert (r = p) as ->.
    { eapply pkey_row_unique; eauto. eapply first_product_with_id_In, Hp. }
    apply write_changes_quantity.
  - rewrite lookup_singleton_ne by congruence. reflexivity.
Qed.

Lemma set_quantity_set_quantity (a b : Z) (p : Product.t) :
  set_quantity b (set_quantity a p) = set_quantity b p.
Proof. reflexivity. Qed.

(** X15.  Restocking and selling back cancel out.  Under the primary key of
    the products table, for the owner or an admin and a product whose stock is
    not negative: [update_product_quantity] by [n >= 0] succeeds and raises the
    stored quantity by [n] (when the new quantity fits its INTEGER column),
    and [update_product_quantity] by [-n] right after returns the original
    row and leaves the database exactly as it was at the start. *)
Theorem restock_then_sell_round_trip (db : Database) (product_id : Z) (n : Z)
  (actor : User.t) (p : Product.t) :
  products_pkey db ->
  product_service.first_product_with_id product_id db = Some p ->
  may_sell actor p ->
  0 <= Product.quantity p ->
  0 <= n ->
  Product.quantity p + n < 2 ^ 31 ->
  exists p1 db1,
    serve (product_service.update_product_quantity product_id n actor) db
      = (Ok p1, db1)
    /\ Product.quantity p1 = Product.quantity p + n
    /\ serve (product_service.update_product_quantity product_id (- n) actor)
         db1
       = (Ok p, db).
Proof.
  intros Hpkey Hp Hmay Hq Hn _.
  pose proof (first_product_with_id_id _ _ _ Hp) as Hid.
  pose proof Hmay as Hguard. apply may_sell_checked in Hguard.
  rewrite <- Hid in Hp.
  set (p1 := set_quantity (Product.quantity p + n) p).
  set (db1 := set_products
                (map (fun r => if Product.id r =? Product.id p
                               then set_quantity (Product.quantity p + n) r
                               else r)
                   (products db)) db).
  assert (product_service.first_product_with_id (Product.id p) db1 = Some p1)
    as Hp1.
  { unfold db1. rewrite <- (map_flush_pkey db p _ Hpkey Hp).
    rewrite (find_flushed_same p _ db Hp). apply f_equal, write_changes_quantity. }
  assert (products_pkey db1) as Hpkey1.
  { unfold products_pkey, db1, set_products. cbn [products].
    rewrite map_map.
    erewrite map_ext; [exact Hpkey |].
    intros r. cbn beta. destruct (Product.id r =? Product.id p); reflexivity. }
  exists p1, db1. split; [| split; [reflexivity |]].
  - rewrite update_product_quantity_run, <- Hid, Hp, Hguard.
    destruct (Z.ltb_spec (Product.quantity p + n) 0) as [Hneg | _]; [lia |].
    cbv zeta. rewrite (map_flush_pkey db p _ Hpkey Hp). reflexivity.
  - rewrite update_product_quantity_run, <- Hid, Hp1.
    change (Product.user_id p1) with (Product.user_id p). rewrite Hguard.
    change (Product.quantity p1) with (Product.quantity p + n).
    destruct (Z.ltb_spec (Product.quantity p + n + - n) 0) as [Hneg | _]; [lia |].
    cbv zeta.
    change (Product.id p1) with (Product.id p) in *.
    assert (Product.id p = Product.id p1) as Hid1 by reflexivity.
    rewrite Hid1 in Hp1 |- *.
    rewrite (map_flush_pkey db1 p1 _ Hpkey1 Hp1).
    replace (Product.quantity p + n + - n) with (Product.quantity p) by lia.
    unfold p1. rewrite set_quantity_set_quantity, set_quantity_same.
    f_equal. unfold db1, set_products. cbn [products invoices invoice_items
      invoices_id_seq invoice_items_id_seq Product.id set_quantity].
    rewrite map_map.
    assert (map (fun r =>
                   if Product.id
                        (if Product.id r =? Product.id p
                         then set_quantity (Product.quantity p + n) r else r)
                      =? Product.id p
                   then set_quantity (Product.quantity p)
                          (if Product.id r =? Product.id p
                           then set_quantity (Product.quantity p + n) r else r)
                   else if Product.id r =? Product.id p
                        then set_quantity (Product.quantity p + n) r else r)
              (products db)
            = products db) as ->; [| destruct db; reflexivity].
    rewrite <- (map_id (products db)) at 2.
    apply map_ext_in. intros r Hr.
    destruct (Z.eqb_spec (Product.id r) (Product.id p)) as [Heq | Hne].
    + cbn [Product.id set_quantity]. rewrite Heq, Z.eqb_refl.
      assert (r = p) as ->
        by exact (pkey_row_unique (products db) p r Hpkey
                    (first_product_with_id_In _ _ _ Hp) Hr Heq).
      rewrite set_quantity_set_quantity. apply set_quantity_same.
    + destruct (Z.eqb_spec (Product.id r) (Product.id p)); [contradiction |].
      reflexivity.
Qed.

Lemma restock_then_sell_round_trip_witness :
  exists p1 db1,
    serve (product_service.update_product_quantity 7 5 U1) (shop 10)
      = (Ok p1, db1)
    /\ Product.quantity p1 = 10 + 5
    /\ serve (product_service.update_product_quantity 7 (- 5) U1) db1
       = (Ok (set_quantity 10 P), shop 10).
Proof.
  apply (restock_then_sell_round_trip (shop 10) 7 5 U1 (set_quantity 10 P)).
  - apply NoDup_singleton.
  - reflexivity.
  - right. reflexivity.
  - simpl. lia.
  - lia.
  - simpl. lia.
Defined.

(** ** The read-only product queries *)

Lemma pkey_filter (f : Product.t -> bool) (rows : list Product.t) :
  NoDup (map Product.id rows) -> NoDup (map Product.id (List.filter f rows)).
Proof.
  induction rows as [| row rest IH]; intros Hnd; [exact Hnd |].
  cbn [map] in Hnd. apply NoDup_cons in Hnd. destruct Hnd as [Hrow Hrest].
  cbn [List.filter]. destruct (f row); [| apply IH, Hrest].
  cbn [map]. apply NoDup_cons. split; [| apply IH, Hrest].
  intros Hin. apply Hrow.
  rewrite list_elem_of_In in *. apply in_map_iff in Hin.
  destruct Hin as (q & Hid & Hq). apply filter_In in Hq.
  rewrite <- Hid. apply in_map, Hq.
Qed.

(** Rows with distinct keys, none of which the session holds yet, come back
    as objects equal to the rows. *)
Lemma instances_for_run (rows : list Product.t) :
  forall s,
    NoDup (map Product.id rows) ->
    (forall r, In r rows -> identity_map s !! Product.id r = None) ->
    exists s', instances_for rows s = (Ok rows, s') /\ database s' = database s.
Proof.
  induction rows as [| row rest IH]; intros s Hnd Hnew.
  - exists s. split; reflexivity.
  - cbn [map] in Hnd. apply NoDup_cons in Hnd. destruct Hnd as [Hrow Hrest].
    cbn [instances_for]. unfold Mbind at 1. unfold instance_for.
    rewrite (Hnew row (or_introl eq_refl)).
    destruct (IH (set_identity_map
                    (<[Product.id row := {| loaded := row; current := row |}]>
                       (identity_map s)) s) Hrest) as (s' & Hrun & Hdb).
    { intros r Hr. cbn [identity_map set_identity_map].
      rewrite lookup_insert_ne; [apply Hnew; right; exact Hr |].
      intros Heq. apply Hrow. rewrite list_elem_of_In, Heq. apply in_map, Hr. }
    unfold Mbind. rewrite Hrun. exists s'. split; [reflexivity | exact Hdb].
Qed.

Lemma product_query_run (f : Product.t -> bool) (db : Database) :
  products_pkey db ->
  serve (Mbind (session_exec (fun db => List.filter f (products db)))
           instances_for) db
  = (Ok (List.filter f (products db)), db).
Proof.
  intros Hpkey. unfold serve, Mbind, session_exec.
  cbn [database SessionLocal].
  destruct (instances_for_run (List.filter f (products db))
              (count_exec (SessionLocal db)) (pkey_filter f _ Hpkey))
    as (s' & Hrun & Hdb).
  { intros r _. apply lookup_empty. }
  rewrite Hrun, Hdb. reflexivity.
Qed.

(** X16.  The read-only product queries change nothing and return exactly
    the stored rows that match (under the primary key of the table):
    [get_user_products] the products of the user, all of them and no others;
    [get_low_stock_products] those of the user's products whose quantity is
    at or below their threshold; [get_product_by_barcode] a product with the
    barcode, and [None] only when no product has it. *)
Theorem product_queries_return_the_matching_rows (db : Database) (user_id : Z)
  (barcode : string) :
  products_pkey db ->
  (exists rows,
     serve (product_service.get_user_products user_id) db = (Ok rows, db)
     /\ forall p, In p rows <-> In p (products db) /\ Product.user_id p = user_id)
  /\ (exists rows,
        serve (product_service.get_low_stock_products user_id) db = (Ok rows, db)
        /\ forall p,
             In p rows
             <-> In p (products db) /\ Product.user_id p = user_id
                 /\ Product.quantity p <= Product.threshold p)
  /\ (exists found,
        serve (product_service.get_product_by_barcode barcode) db = (Ok found, db)
        /\ match found with
           | Some p => In p (products db) /\ Product.barcode p = barcode
           | None => forall p, In p (products db) -> Product.barcode p <> barcode
           end).
Proof.
  intros Hpkey. split; [| split].
  - eexists. split.
    + unfold product_service.get_user_products. apply product_query_run, Hpkey.
    + intros p. rewrite filter_In, Z.eqb_eq. reflexivity.
  - eexists. split.
    + unfold product_service.get_low_stock_products.
      apply (product_query_run _ db Hpkey).
    + intros p. rewrite filter_In, andb_true_iff, Z.eqb_eq, Z.leb_le.
      reflexivity.
  - unfold serve, product_service.get_product_by_barcode, Mbind, session_exec.
    cbn [database SessionLocal].
    destruct (List.find (fun p => String.eqb (Product.barcode p) barcode)
                (products db)) as [row |] eqn:Hfind.
    + unfold instance_for. cbn [identity_map count_exec SessionLocal].
      rewrite lookup_empty. eexists. split; [reflexivity |].
      apply find_some in Hfind. destruct Hfind as [Hin Hb].
      apply String.eqb_eq in Hb. split; assumption.
    + eexists. split; [reflexivity |].
      intros p Hp Hb. apply (find_none _ _ Hfind) in Hp.
      apply String.eqb_neq in Hp. contradiction.
Qed.

Lemma product_queries_return_the_matching_rows_witness :
  (exists rows,
     serve (product_service.get_user_products 2) two_sellers = (Ok rows, two_sellers)
     /\ forall p, In p rows <-> In p (products two_sellers) /\ Product.user_id p = 2)
  /\ (exists rows,
        serve (product_service.get_low_stock_products 2) two_sellers
          = (Ok rows, two_sellers)
        /\ forall p,
             In p rows
             <-> In p (products two_sellers) /\ Product.user_id p = 2
                 /\ Product.quantity p <= Product.threshold p)
  /\ (exists found,
        serve (product_service.get_product_by_barcode "5000159407236") two_sellers
          = (Ok found, two_sellers)
        /\ match found with
           | Some p =>
             In p (products two_sellers) /\ Product.barcode p = "5000159407236"
           | None =>
             forall p,
               In p (products two_sellers) ->
               Product.barcode p <> "5000159407236"
           end).
Proof.
  apply (product_queries_return_the_matching_rows two_sellers 2 "5000159407236").
  apply NoDup_cons. split; [| apply NoDup_singleton].
  intros Hin. apply list_elem_of_In in Hin. destruct Hin as [Hin | []].
  discriminate Hin.
Defined.

Lemma create_invoice_product_ids (db db' : Database) (req : InvoiceCreate.t)
  (actor : User.t) (now : datetime) (inv : Invoice.t) :
  serve (invoice_service.create_invoice req actor now) db = (Ok inv, db') ->
  map Product.id (products db') = map Product.id (products db).
Proof.
  intros Hserve.
  destruct (validate_items_clean db actor (InvoiceCreate.items req) [] 0%float
              (SessionLocal db) (clean_SessionLocal db))
    as (s1 & Hrun & (Hdb & Hflushed & Hnew & _) & _).
  { intros v []. }
  unfold serve in Hserve.
  destruct (invoice_service.create_invoice req actor now (SessionLocal db))
    as [r s'] eqn:Hcall.
  inversion Hserve; subst r db'. clear Hserve.
  apply try_rollback_Ok in Hcall.
  unfold Mbind in Hcall. rewrite Hrun in Hcall.
  destruct (check_lines db actor (InvoiceCreate.items req) [] 0%float)
    as [[vs total] | e]; [| discriminate Hcall].
  destruct (write_invoice_Ok _ _ _ _ _ _ _ _ Hflushed Hnew Hcall)
    as (_ & Hprod & _).
  rewrite Hprod, Hdb, map_map. apply map_ext. intros row. apply flush_row_id.
Qed.

(** X17.  A sale that takes a product to its threshold or below puts it on
    the owner's low-stock list: after a call of [create_invoice] that
    succeeded, [get_low_stock_products] for the owner returns the product,
    with the quantity the sale left. *)
Theorem sale_to_the_threshold_is_reported (db db' : Database)
  (req : InvoiceCreate.t) (actor : User.t) (now : datetime) (inv : Invoice.t)
  (key : Z) (p : Product.t) :
  serve (invoice_service.create_invoice req actor now) db = (Ok inv, db') ->
  products_pkey db ->
  product_service.first_product_with_id key db = Some p ->
  Product.quantity p - sold key (InvoiceCreate.items req) <= Product.threshold p ->
  exists rows,
    serve (product_service.get_low_stock_products (Product.user_id p)) db'
      = (Ok rows, db')
    /\ In (set_quantity
             (Product.quantity p - sold key (InvoiceCreate.items req)) p)
         rows.
Proof.
  intros Hserve Hpkey Hp Hlow.
  destruct (lines_validated _ _ _ _ _ _ Hserve)
    as (vs & rows & Hall & _ & _ & _ & _ & _ & Hstock).
  pose proof (Hstock key p Hp) as Hp'.
  rewrite (taken_sold db actor key _ vs Hall) in Hp'.
  assert (products_pkey db') as Hpkey'.
  { unfold products_pkey.
    rewrite (create_invoice_product_ids _ _ _ _ _ _ Hserve). exact Hpkey. }
  eexists. split.
  - unfold product_service.get_low_stock_products.
    apply (product_query_run _ db' Hpkey').
  - apply filter_In. split; [eapply first_product_with_id_In, Hp' |].
    cbn [Product.user_id Product.quantity Product.threshold set_quantity].
    rewrite Z.eqb_refl. apply Z.leb_le, Hlow.
Qed.

Lemma sale_to_the_threshold_is_reported_witness :
  let after := mk_Database [set_quantity 2 P]
                 [Invoice.mk (Some 1) 1 None 40%float day1]
                 [InvoiceItem.mk (Some 1) 1 7 8 5%float] 1 1 in
  exists rows,
    serve (product_service.get_low_stock_products 1) after = (Ok rows, after)
    /\ In (set_quantity (10 - sold 7 [InvoiceItemCreate.mk 7 8 None])
             (set_quantity 10 P))
         rows.
Proof.
  intros after.
  apply (sale_to_the_threshold_is_reported (shop 10) after (one_line 7 8 None)
           U1 day1 (Invoice.mk (Some 1) 1 None 40%float day1) 7
           (set_quantity 10 P)).
  - vm_compute. reflexivity.
  - apply NoDup_singleton.
  - reflexivity.
  - vm_compute. discriminate.
Defined.

(** ** Guards and predicates *)

(** X18.  The guards of [auth_utils] raise exactly when the predicates
    beside them answer [False]: [check_ownership_or_admin] passes if and only
    if [is_owner_or_admin] holds, and raises 403 otherwise; [check_admin_access]
    passes if and only if [is_admin] holds.  An admin passes every ownership
    check, and so does every user for a resource of their own. *)
Theorem guards_agree_with_predicates (actor : User.t) (owner : Z)
  (resource_name action : string) :
  (auth_utils.check_ownership_or_admin actor owner resource_name
   = if auth_utils.is_owner_or_admin actor owner then Ok tt
     else Raise (HTTPException 403
                   ("Not authorized to access this " +:+ resource_name)))
  /\ (auth_utils.check_admin_access actor action
      = if auth_utils.is_admin actor then Ok tt
        else Raise (HTTPException 403 ("Admin access required to " +:+ action)))
  /\ (auth_utils.is_admin actor = true <-> User.role actor = ADMIN)
  /\ (auth_utils.is_owner_or_admin actor owner = true
      <-> User.role actor = ADMIN \/ User.id actor = owner)
  /\ (auth_utils.is_admin actor = true ->
      forall (R : Type) (getter : Resource R) (r : R) (any_owner : Z),
        getattr_user_id r = Some any_owner ->
        auth_utils.check_resource_ownership actor (Some r) resource_name = Ok r)
  /\ auth_utils.check_ownership_or_admin actor (User.id actor) resource_name
     = Ok tt.
Proof.
  unfold auth_utils.check_ownership_or_admin, auth_utils.check_admin_access,
    auth_utils.is_owner_or_admin, auth_utils.is_admin.
  split; [| split; [| split; [| split; [| split]]]].
  - destruct (UserRole_eqb (User.role actor) ADMIN), (User.id actor =? owner);
      reflexivity.
  - destruct (UserRole_eqb (User.role actor) ADMIN); reflexivity.
  - apply UserRole_eqb_eq.
  - rewrite orb_true_iff, UserRole_eqb_eq, Z.eqb_eq. reflexivity.
  - intros Hadmin R getter r any_owner Hown.
    unfold auth_utils.check_resource_ownership,
      auth_utils.check_ownership_or_admin.
    rewrite Hown, Hadmin. reflexivity.
  - rewrite Z.eqb_refl, andb_false_r. reflexivity.
Qed.

(** X19.  What the decorator [handle_database_errors] guarantees for any
    function it wraps: a result is passed through untouched; a failure
    always leaves as an [HTTPException], the function's own when it raised
    one and a 500 naming the operation otherwise; and after a failure the
    session has been rolled back, so nothing is pending and the database is
    as the function left it. *)
Theorem handle_database_errors_outcomes (A : Type) (operation_name : string)
  (func : M A) (s : Session) :
  match func s with
  | (Ok a, s') =>
    db_utils.handle_database_errors operation_name func s = (Ok a, s')
  | (Raise e, s') =>
    exists status detail s'',
      db_utils.handle_database_errors operation_name func s
        = (Raise (HTTPException status detail), s'')
      /\ database s'' = database s'
      /\ identity_map s'' = ∅ /\ flushed s'' = [] /\ new s'' = []
      /\ (forall st d, e = HTTPException st d -> status = st /\ detail = d)
      /\ ((forall st d, e <> HTTPException st d) ->
          status = 500
          /\ detail = "An unexpected error occurred during "
                      +:+ operation_name +:+ ".")
  end.
Proof.
  unfold db_utils.handle_database_errors, try_except.
  destruct (func s) as [[a | e] s']; [reflexivity |].
  destruct e; do 3 eexists;
    (split; [reflexivity |]);
    repeat (split; [reflexivity |]);
    (split;
     [ intros st d Heq;
       solve [inversion Heq; split; reflexivity | discriminate Heq]
     | intros Hno; solve [split; reflexivity | exfalso; eapply Hno; reflexivity] ]).
Qed.

(** ** Date ranges *)

Lemma parse_date_string_blank (E : Externals) (text : option string)
  (field_name : string) :
  blank text ->
  datetime_utils.parse_date_string (VStr <$> text) field_name = Ok None.
Proof. intros [-> | ->]; reflexivity. Qed.

Lemma parse_date_string_read (E : Externals) (text field_name : string)
  (dt : datetime) :
  fromisoformat text = Some dt ->
  datetime_utils.parse_date_string (Some (VStr text)) field_name = Ok (Some dt).
Proof.
  intros Hdt. unfold datetime_utils.parse_date_string. cbn [value_truthy].
  rewrite (fromisoformat_truthy E _ _ Hdt), Hdt. reflexivity.
Qed.

Lemma datetime_gt_irrefl (a : datetime) : datetime_gt a a = Ok false.
Proof.
  unfold datetime_gt. destruct (utcoffset a); rewrite Z.ltb_irrefl; reflexivity.
Qed.

(** X20.  What [get_date_range_filter] answers for date strings.  A bound
    that is [None] or empty is no bound and is never compared: with both
    bounds missing the result is [(None, None)], and a range open at one end
    is returned as parsed.  Two bounds that parse are accepted unless the
    start is strictly after the end, so a range whose start equals its end is
    accepted.  A start that is not empty and does not parse is answered 400
    naming [start_date], whatever the end is.  A naive bound with an aware one
    raises [TypeError], which is not an [HTTPException]. *)
Theorem date_range_filter_outcomes (E : Externals) :
  (forall start_date end_date,
     blank start_date -> blank end_date ->
     datetime_utils.get_date_range_filter (VStr <$> start_date)
       (VStr <$> end_date)
     = Ok (None, None))
  /\ (forall start_date end_date a,
        fromisoformat start_date = Some a -> blank end_date ->
        datetime_utils.get_date_range_filter (Some (VStr start_date))
          (VStr <$> end_date)
        = Ok (Some a, None))
  /\ (forall start_date end_date b,
        blank start_date -> fromisoformat end_date = Some b ->
        datetime_utils.get_date_range_filter (VStr <$> start_date)
          (Some (VStr end_date))
        = Ok (None, Some b))
  /\ (forall start_date end_date a b,
        fromisoformat start_date = Some a -> fromisoformat end_date = Some b ->
        datetime_gt a b = Ok false ->
        datetime_utils.get_date_range_filter (Some (VStr start_date))
          (Some (VStr end_date))
        = Ok (Some a, Some b))
  /\ (forall text a,
        fromisoformat text = Some a ->
        datetime_utils.get_date_range_filter (Some (VStr text))
          (Some (VStr text))
        = Ok (Some a, Some a))
  /\ (forall start_date end_date,
        start_date <> "" -> fromisoformat start_date = None ->
        datetime_utils.get_date_range_filter (Some (VStr start_date)) end_date
        = Raise (HTTPException 400
                   "Invalid start_date format. Use ISO format (YYYY-MM-DDTHH:MM:SS)"))
  /\ (forall start_date end_date a b,
        fromisoformat start_date = Some a -> fromisoformat end_date = Some b ->
        (utcoffset a = None <-> utcoffset b <> None) ->
        datetime_utils.get_date_range_filter (Some (VStr start_date))
          (Some (VStr end_date))
        = Raise (TypeError
                   "can't compare offset-naive and offset-aware datetimes")).
Proof.
  unfold datetime_utils.get_date_range_filter.
  split; [| split; [| split; [| split; [| split; [| split]]]]].
  - intros start_date end_date Hs He.
    rewrite !parse_date_string_blank by assumption. reflexivity.
  - intros start_date end_date a Ha He.
    rewrite (parse_date_string_read E _ _ _ Ha), parse_date_string_blank
      by assumption.
    reflexivity.
  - intros start_date end_date b Hs Hb.
    rewrite (parse_date_string_read E _ _ _ Hb), parse_date_string_blank
      by assumption.
    reflexivity.
  - intros start_date end_date a b Ha Hb Hle.
    rewrite (parse_date_string_read E _ _ _ Ha),
      (parse_date_string_read E _ _ _ Hb), Hle.
    reflexivity.
  - intros text a Ha.
    rewrite !(parse_date_string_read E _ _ _ Ha), datetime_gt_irrefl.
    reflexivity.
  - intros start_date end_date Hne Hbad.
    unfold datetime_utils.parse_date_string at 1. cbn [value_truthy].
    destruct start_date as [| c rest]; [contradiction |].
    cbn [str_truthy negb]. rewrite Hbad. reflexivity.
  - intros start_date end_date a b Ha Hb Hmix.
    rewrite (parse_date_string_read E _ _ _ Ha),
      (parse_date_string_read E _ _ _ Hb).
    unfold datetime_gt.
    destruct (utcoffset a) as [oa |], (utcoffset b) as [ob |]; try reflexivity.
    + exfalso. destruct Hmix as [_ Hmix].
      assert (@None Z = None -> False) as Hno; [| apply Hno; reflexivity].
      intros _. discriminate (Hmix ltac:(discriminate)).
    + exfalso. destruct Hmix as [Hmix _]. apply (Hmix eq_refl). reflexivity.
Qed.

Lemma date_range_filter_outcomes_witness :
  @datetime_utils.get_date_range_filter aware_externals
    (Some (VStr "1970-01-02")) (Some (VStr ""))
  = Ok (Some day1, None)
  /\ @datetime_utils.get_date_range_filter aware_externals
       (Some (VStr "yesterday")) (Some (VStr "tomorrow"))
     = Raise (HTTPException 400
                "Invalid start_date format. Use ISO format (YYYY-MM-DDTHH:MM:SS)")
  /\ @datetime_utils.get_date_range_filter aware_externals
       (Some (VStr "1970-01-02")) (Some (VStr "1970-01-03T00:00:00+00:00"))
     = Raise (TypeError "can't compare offset-naive and offset-aware datetimes").
Proof.
  destruct (date_range_filter_outcomes aware_externals)
    as (_ & Hopen & _ & _ & _ & Hbad & Hmix).
  refine (conj (Hopen "1970-01-02" (Some "") day1 eq_refl _)
            (conj (Hbad "yesterday" (Some (VStr "tomorrow")) _ eq_refl)
               (Hmix "1970-01-02" "1970-01-03T00:00:00+00:00" day1
                  (mk_datetime 172800000000 (Some 0)) eq_refl eq_refl _))).
  - right. reflexivity.
  - discriminate.
  - split; [intros _; discriminate | reflexivity].
Defined.

(** ** The validators *)

Lemma float_ltb_leb (x y : float) :
  PrimFloat.ltb x y = true -> PrimFloat.leb x y = true.
Proof.
  rewrite FloatAxioms.ltb_spec, FloatAxioms.leb_spec. unfold SFltb, SFleb.
  destruct (SFcompare (Prim2SF x) (Prim2SF y)) as [[| |] |]; congruence.
Qed.

(** X21.  The two number validators.  Whatever passes
    [validate_positive_number] passes [validate_non_negative_number]; for an
    [int] the first accepts exactly [n > 0] and the second exactly [n >= 0],
    so they differ on zero alone; [None] passes both.  For a [float], a NaN
    passes both (no comparison with it holds), and the negative zero passes
    the non-negative check and fails the positive one. *)
Theorem number_validators (field_name : string) :
  (forall value,
     validation_utils.validate_positive_number value field_name = Ok tt ->
     validation_utils.validate_non_negative_number value field_name = Ok tt)
  /\ (forall n,
        validation_utils.validate_positive_number (Some (Int n)) field_name
          = Ok tt
        <-> 0 < n)
  /\ (forall n,
        validation_utils.validate_non_negative_number (Some (Int n)) field_name
          = Ok tt
        <-> 0 <= n)
  /\ validation_utils.validate_positive_number (Some (Int 0)) field_name
     = Raise (HTTPException 400 (field_name +:+ " must be greater than 0"))
  /\ validation_utils.validate_non_negative_number (Some (Int (-1))) field_name
     = Raise (HTTPException 400
                (field_name +:+ " must be greater than or equal to 0"))
  /\ validation_utils.validate_positive_number None field_name = Ok tt
  /\ validation_utils.validate_non_negative_number None field_name = Ok tt
  /\ validation_utils.validate_positive_number (Some (Float nan)) field_name
     = Ok tt
  /\ validation_utils.validate_non_negative_number (Some (Float nan)) field_name
     = Ok tt
  /\ validation_utils.validate_non_negative_number (Some (Float (-0)%float))
       field_name
     = Ok tt
  /\ validation_utils.validate_positive_number (Some (Float (-0)%float))
       field_name
     = Raise (HTTPException 400 (field_name +:+ " must be greater than 0")).
Proof.
  unfold validation_utils.validate_positive_number,
    validation_utils.validate_non_negative_number.
  split; [| split; [| split; [| repeat split]]].
  - intros [[n | x] |] Hpos; [| | reflexivity]; cbn [number_leb_0 number_ltb_0] in *.
    + destruct (Z.leb_spec n 0) as [Hle | Hgt]; [discriminate Hpos |].
      destruct (Z.ltb_spec n 0); [lia | reflexivity].
    + destruct (PrimFloat.ltb x 0%float) eqn:Hlt; [| reflexivity].
      rewrite (float_ltb_leb _ _ Hlt) in Hpos. discriminate Hpos.
  - intros n. cbn [number_leb_0].
    destruct (Z.leb_spec n 0) as [Hle | Hgt]; split; intros Hn;
      try reflexivity; solve [discriminate Hn | lia].
  - intros n. cbn [number_ltb_0].
    destruct (Z.ltb_spec n 0) as [Hlt | Hge]; split; intros Hn;
      try reflexivity; solve [discriminate Hn | lia].
Qed.

(** X22.  [validate_string_length] accepts a string exactly when its length
    is within the bounds that are given; [None] is always accepted.  The lower
    bound is checked first, so a string that is too short is answered with
    the "at least" message whatever the upper bound is, and bounds that
    contradict each other reject every string. *)
Theorem validate_string_length_accepts (value field_name : string)
  (min_length max_length : option Z) :
  (validation_utils.validate_string_length (Some value) field_name min_length
     max_length = Ok tt
   <-> (forall n, min_length = Some n -> n <= len value)
       /\ (forall n, max_length = Some n -> len value <= n))
  /\ validation_utils.validate_string_length None field_name min_length
       max_length = Ok tt
  /\ (forall n,
        min_length = Some n -> len value < n ->
        validation_utils.validate_string_length (Some value) field_name
          min_length max_length
        = Raise (HTTPException 400
                   (field_name +:+ " must be at least " +:+ str_int n
                    +:+ " characters long")))
  /\ (forall lo hi,
        min_length = Some lo -> max_length = Some hi -> hi < lo ->
        exists detail,
          validation_utils.validate_string_length (Some value) field_name
            min_length max_length
          = Raise (HTTPException 400 detail)).
Proof.
  unfold validation_utils.validate_string_length.
  split; [| split; [reflexivity | split]].
  - destruct min_length as [lo |], max_length as [hi |]; cbn [and_then].
    + destruct (Z.ltb_spec (len value) lo) as [Hshort | Hlo]; cbn [and_then].
      * split; [discriminate |]. intros [Hmin _]. specialize (Hmin lo eq_refl). lia.
      * destruct (Z.ltb_spec hi (len value)) as [Hlong | Hhi].
        -- split; [discriminate |]. intros [_ Hmax].
           specialize (Hmax hi eq_refl). lia.
        -- split; [| reflexivity]. intros _.
           split; intros n Hn; inversion Hn; subst; assumption.
    + destruct (Z.ltb_spec (len value) lo) as [Hshort | Hlo]; cbn [and_then].
      * split; [discriminate |]. intros [Hmin _]. specialize (Hmin lo eq_refl). lia.
      * split; [| reflexivity]. intros _.
        split; intros n Hn; inversion Hn; subst; assumption.
    + destruct (Z.ltb_spec hi (len value)) as [Hlong | Hhi].
      * split; [discriminate |]. intros [_ Hmax].
        specialize (Hmax hi eq_refl). lia.
      * split; [| reflexivity]. intros _.
        split; intros n Hn; inversion Hn; subst; assumption.
    + split; [| reflexivity]. intros _. split; intros n Hn; discriminate Hn.
  - intros n -> Hshort. apply Z.ltb_lt in Hshort. rewrite Hshort. reflexivity.
  - intros lo hi -> -> Hbounds.
    destruct (Z.ltb_spec (len value) lo) as [Hshort | Hlo]; cbn [and_then];
      [eexists; reflexivity |].
    destruct (Z.ltb_spec hi (len value)) as [Hlong | Hhi];
      [eexists; reflexivity | lia].
Qed.

Lemma str_in_In (value : string) (values : list string) :
  str_in value values = true <-> In value values.
Proof.
  unfold str_in. rewrite existsb_exists. split.
  - intros (x & Hx & Heq). apply String.eqb_eq in Heq. subst x. exact Hx.
  - intros Hin. exists value. split; [exact Hin | apply String.eqb_refl].
Qed.

(** X23.  [validate_enum_value] accepts a value exactly when it is one of the
    valid values, compared as they are written; [None] is accepted.  A
    rejected value is answered 400 with the valid values listed, separated by
    a comma and a space: for the user statuses, "Active" is not "active". *)
Theorem validate_enum_value_accepts (value : string) (valid_values : list string)
  (field_name : string) :
  (validation_utils.validate_enum_value (Some value) valid_values field_name
     = Ok tt
   <-> In value valid_values)
  /\ validation_utils.validate_enum_value None valid_values field_name = Ok tt
  /\ (~ In value valid_values ->
      validation_utils.validate_enum_value (Some value) valid_values field_name
      = Raise (HTTPException 400
                 ("Invalid " +:+ field_name +:+ ". Must be one of: "
                  +:+ str_join ", " valid_values)))
  /\ validation_utils.validate_enum_value (Some "Active")
       ["active"; "suspended"; "banned"] "status"
     = Raise (HTTPException 400
                "Invalid status. Must be one of: active, suspended, banned").
Proof.
  unfold validation_utils.validate_enum_value.
  pose proof (str_in_In value valid_values) as Hin.
  destruct (str_in value valid_values); cbn [negb].
  - split; [split; [intros _; apply Hin; reflexivity | reflexivity] |].
    split; [reflexivity |]. split; [| reflexivity].
    intros Hno. exfalso. apply Hno, Hin. reflexivity.
  - split; [split; [discriminate |] |].
    + intros Hyes. apply Hin in Hyes. discriminate Hyes.
    + split; [reflexivity |]. split; [intros _; reflexivity | reflexivity].
Qed.

(** ** Searching products *)

Lemma In_where_truthy {C : Type} (c : C) (st : list C) (v : option value)
  (mk : value -> C) :
  In c st ->
  In c match v with
       | Some v => if value_truthy v then (st ++ [mk v])%list else st
       | None => st
       end.
Proof.
  intros Hc. destruct v as [v |]; [| exact Hc].
  destruct (value_truthy v); [apply in_or_app; left |]; exact Hc.
Qed.

Lemma In_where_not_None {C : Type} (c : C) (st : list C) (v : option value)
  (mk : value -> C) :
  In c st ->
  In c match v with
       | Some VNone | None => st
       | Some v => (st ++ [mk v])%list
       end.
Proof.
  intros Hc. destruct v as [[| | |] |]; try exact Hc;
    apply in_or_app; left; exact Hc.
Qed.

(** X24.  [search_products] is scoped to the caller.  It changes nothing and
    returns stored products only; for a caller who is not an admin every
    returned product is the caller's own, whatever the filters are; and with
    no filters an admin gets every product and any other caller exactly their
    own products.  (Under the primary key of the table; the engine's
    comparisons with the filter values are left open.) *)
Theorem search_products_is_scoped (E : Externals)
  (text_eq : option string -> value -> bool) (int4_ge int4_le : Z -> value -> bool)
  (db : Database) (filters : gmap string value) (actor : User.t) :
  products_pkey db ->
  exists rows,
    serve (product_service.search_products text_eq int4_ge int4_le filters actor)
      db = (Ok rows, db)
    /\ Forall (fun p => In p (products db)) rows
    /\ (User.role actor <> ADMIN ->
        Forall (fun p => Product.user_id p = User.id actor) rows)
    /\ (filters = ∅ ->
        forall p,
          In p rows
          <-> In p (products db)
              /\ (User.role actor = ADMIN \/ Product.user_id p = User.id actor)).
Proof.
  intros Hpkey. unfold product_service.search_products. cbv zeta.
  eexists. split; [apply (product_query_run _ db Hpkey) |].
  split; [| split].
  - apply List.Forall_forall. intros p Hp. apply filter_In in Hp. apply Hp.
  - intros Hrole. apply List.Forall_forall. intros p Hp.
    apply filter_In in Hp. destruct Hp as [_ Hp].
    rewrite forallb_forall in Hp.
    specialize (Hp (product_service.product_user_id_eq (User.id actor))).
    apply Z.eqb_eq, Hp.
    apply (In_where_truthy _ _ _ product_service.product_barcode_eq).
    apply (In_where_not_None _ _ _ product_service.product_quantity_le).
    apply (In_where_not_None _ _ _ product_service.product_quantity_ge).
    apply (In_where_truthy _ _ _ product_service.product_category_eq).
    apply (In_where_not_None _ _ _ product_service.product_price_le).
    apply (In_where_not_None _ _ _ product_service.product_price_ge).
    apply (In_where_truthy _ _ _
             (fun v => product_service.product_name_ilike
                         ("%" +:+ format_value v +:+ "%"))).
    destruct (User.role actor); [| congruence].
    left. reflexivity.
  - intros -> p. rewrite !lookup_empty, filter_In.
    destruct (User.role actor) eqn:Hrole; cbn.
    + rewrite andb_true_r, Z.eqb_eq.
      split; [intros [Hin Hown]; split; [exact Hin | right; exact Hown] |].
      intros [Hin [Hadmin | Hown]]; [discriminate Hadmin | split; assumption].
    + split; [intros [Hin _]; split; [exact Hin | left; reflexivity] |].
      intros [Hin _]. split; [exact Hin | reflexivity].
Qed.

Lemma search_products_is_scoped_witness :
  exists rows,
    serve (@product_service.search_products sample_externals
             (fun _ _ => true) (fun _ _ => true) (fun _ _ => true)
             (<["name" := VStr "e"]> ∅) U1) two_sellers
      = (Ok rows, two_sellers)
    /\ Forall (fun p => In p (products two_sellers)) rows
    /\ Forall (fun p => Product.user_id p = User.id U1) rows.
Proof.
  destruct (search_products_is_scoped sample_externals (fun _ _ => true)
              (fun _ _ => true) (fun _ _ => true) two_sellers
              (<["name" := VStr "e"]> ∅) U1)
    as (rows & Hrun & Hstored & Hown & _).
  - apply NoDup_cons. split; [| apply NoDup_singleton].
    intros Hin. apply list_elem_of_In in Hin. destruct Hin as [Hin | []].
    discriminate Hin.
  - exists rows. exact (conj Hrun (conj Hstored (Hown ltac:(discriminate)))).
Defined.

(** ** The sales summary *)

Lemma filter_length_le {A : Type} (f g : A -> bool) (l : list A) :
  (forall x, f x = true -> g x = true) ->
  (length (List.filter f l) <= length (List.filter g l))%nat.
Proof.
  intros Hfg. induction l as [| x l IH]; [reflexivity |].
  cbn [List.filter]. destruct (f x) eqn:Hf.
  - rewrite (Hfg x Hf). cbn [length]. lia.
  - destruct (g x); cbn [length]; lia.
Qed.

(** X25.  [get_sales_summary] is scoped to the caller and never fails on a
    date.  It changes nothing; the invoices it counts are, for a caller who is
    not an admin, among the caller's own, and with no date bounds they are
    exactly the caller's own (every invoice for an admin); when it counts no
    invoice the revenue and the average are 0.0; and a date string that does
    not parse is ignored, the summary being that of the request without it. *)
Theorem sales_summary_counts_own_invoices (E : Externals)
  (float8_sum float8_avg : list float -> float) (db : Database)
  (actor : User.t) (start_date end_date : option string) :
  (exists summary,
     serve (invoice_service.get_sales_summary float8_sum float8_avg actor
              start_date end_date) db
       = (Ok summary, db)
     /\ (User.role actor <> ADMIN ->
         SalesSummary.total_invoices summary
         <= Z.of_nat (length (List.filter
                                (fun i => Invoice.user_id i =? User.id actor)
                                (invoices db))))
     /\ (blank start_date -> blank end_date ->
         SalesSummary.total_invoices summary
         = Z.of_nat (length (List.filter
                               (fun i => UserRole_eqb (User.role actor) ADMIN
                                         || (Invoice.user_id i =? User.id actor))
                               (invoices db))))
     /\ (SalesSummary.total_invoices summary = 0 ->
         SalesSummary.total_revenue summary = 0%float
         /\ SalesSummary.average_invoice_value summary = 0%float))
  /\ (forall text,
        fromisoformat text = None ->
        invoice_service.get_sales_summary float8_sum float8_avg actor
          (Some text) end_date
        = invoice_service.get_sales_summary float8_sum float8_avg actor
            None end_date
        /\ invoice_service.get_sales_summary float8_sum float8_avg actor
             start_date (Some text)
           = invoice_service.get_sales_summary float8_sum float8_avg actor
               start_date None).
Proof.
  split.
  - unfold serve, invoice_service.get_sales_summary, Mbind, session_exec, ret.
    cbv zeta. cbn [database SessionLocal count_exec].
    match goal with
    | |- context [invoice_service.rows_of ?st db] => set (statement := st)
    end.
    assert (invoice_service.rows_of statement db
            = List.filter
                (fun i => forallb (fun c => invoice_service.holds c i)
                            (invoice_service.whereclause statement))
                (invoices db)
            /\ (User.role actor <> ADMIN ->
                In (invoice_service.user_id_eq (User.id actor))
                  (invoice_service.whereclause statement))
            /\ (blank start_date -> blank end_date ->
                invoice_service.whereclause statement
                = if UserRole_eqb (User.role actor) ADMIN then []
                  else [invoice_service.user_id_eq (User.id actor)]))
      as (Hrows & Hscoped & Hplain).
    { subst statement.
      destruct (User.role actor);
        (destruct start_date as [t1 |];
         [destruct (str_truthy t1) eqn:H1; [destruct (fromisoformat t1) |] |]);
        (destruct end_date as [t2 |];
         [destruct (str_truthy t2) eqn:H2; [destruct (fromisoformat t2) |] |]);
        (split; [reflexivity | split]);
        try (intros _; cbn; tauto);
        try (intros Hrole; congruence);
        intros [Hs | Hs] [He | He];
        solve [ reflexivity | discriminate Hs | discriminate He
              | inversion Hs; subst; discriminate H1
              | inversion He; subst; discriminate H2 ]. }
    eexists. split; [reflexivity |].
    cbn [SalesSummary.total_invoices SalesSummary.total_revenue
         SalesSummary.average_invoice_value].
    split; [| split].
    + intros Hrole. apply inj_le. rewrite Hrows.
      apply filter_length_le. intros i Hi.
      rewrite forallb_forall in Hi.
      apply (Hi _ (Hscoped Hrole)).
    + intros Hs He. rewrite Hrows, (Hplain Hs He). do 2 f_equal.
      apply filter_ext. intros i.
      destruct (UserRole_eqb (User.role actor) ADMIN); cbn;
        [reflexivity | apply andb_true_r].
    + intros Hzero.
      destruct (invoice_service.rows_of statement db) as [| row rest];
        [split; reflexivity |].
      cbn [length] in Hzero. lia.
  - intros text Hbad. unfold invoice_service.get_sales_summary.
    rewrite Hbad. split.
    + destruct (str_truthy text); reflexivity.
    + destruct (str_truthy text); reflexivity.
Qed.

(** ** Phone numbers and email addresses *)

Lemma append_empty (a b : string) : a +:+ b = "" -> a = "" /\ b = "".
Proof.
  destruct a as [| c a].
  - change ("" +:+ b) with b. intros ->. split; reflexivity.
  - change (String c a +:+ b) with (String c (a +:+ b)). discriminate.
Qed.

(** What one item of a pattern matches: a prefix in its class whose length
    is within its bounds, followed by what the rest matches. *)
Lemma re_repeat_spec (cls : ascii -> bool) (k : string -> bool) (s : string) :
  forall lo hi,
    re_repeat cls k lo hi s = true
    <-> exists pre post,
          s = pre +:+ post
          /\ str_all cls pre = true
          /\ (lo <= String.length pre)%nat
          /\ (forall h, hi = Some h -> (String.length pre <= h)%nat)
          /\ k post = true.
Proof.
  induction s as [| c rest IH]; intros lo hi.
  - cbn [re_repeat]. rewrite andb_true_iff, Nat.eqb_eq. split.
    + intros [-> Hk]. exists "", "".
      repeat split; [lia | intros h _; cbn; lia | exact Hk].
    + intros (pre & post & Hs & _ & Hlo & _ & Hk).
      symmetry in Hs. apply append_empty in Hs. destruct Hs as [-> ->].
      cbn in Hlo. split; [lia | exact Hk].
  - cbn [re_repeat]. rewrite orb_true_iff, !andb_true_iff, Nat.eqb_eq, IH.
    rewrite negb_true_iff. split.
    + intros [[-> Hk] | [[Hc Hhi] (pre & post & -> & Hall & Hlo & Hmax & Hk)]].
      * exists "", (String c rest).
        repeat split; [lia | intros h _; cbn; lia | exact Hk].
      * exists (String c pre), post.
        split; [reflexivity |]. split; [cbn; rewrite Hc; exact Hall |].
        split; [cbn; lia |]. split; [| exact Hk].
        intros h ->. apply bool_decide_eq_false_1 in Hhi.
        specialize (Hmax (Nat.pred h) eq_refl). cbn.
        destruct h as [| h]; [congruence | cbn in Hmax; lia].
    + intros (pre & post & Hs & Hall & Hlo & Hmax & Hk).
      destruct pre as [| c' pre].
      * left. change ("" +:+ post) with post in Hs. subst post.
        cbn in Hlo. split; [lia | exact Hk].
      * right. change (String c' pre +:+ post) with (String c' (pre +:+ post)) in Hs.
        inversion Hs; subst c' rest. cbn in Hall, Hlo.
        apply andb_prop in Hall. destruct Hall as [Hc Hall].
        split; [split; [exact Hc |] |].
        -- apply bool_decide_eq_false_2. intros ->.
           specialize (Hmax 0%nat eq_refl). cbn in Hmax. lia.
        -- exists pre, post. split; [reflexivity |]. split; [exact Hall |].
           split; [lia |]. split; [| exact Hk].
           intros h Hh. destruct hi as [h0 |]; [| discriminate Hh].
           cbn in Hh. inversion Hh; subst h.
           specialize (Hmax h0 eq_refl). cbn in Hmax. lia.
Qed.

Lemma re_dollar_spec (s : string) :
  re_dollar s = true <-> s = "" \/ s = newline.
Proof.
  unfold re_dollar, newline.
  destruct s as [| c [| c' rest]].
  - split; [left; reflexivity | reflexivity].
  - rewrite Ascii.eqb_eq. split.
    + intros ->. right. reflexivity.
    + intros [H | H]; [discriminate H | inversion H; reflexivity].
  - split; [discriminate | intros [H | H]; discriminate H].
Qed.

Lemma str_all_one (c : ascii) (s : string) :
  str_all (Ascii.eqb c) s = true -> String.length s = 1%nat ->
  s = String c "".
Proof.
  destruct s as [| c' [| c'' rest]]; cbn; intros Hall Hlen;
    try discriminate Hlen.
  rewrite andb_true_r in Hall. apply Ascii.eqb_eq in Hall. subst c'.
  reflexivity.
Qed.

Lemma re_repeat_text_spec (cls : Z -> bool) (k : list Z -> bool)
  (s : list Z) :
  forall lo hi,
    re_repeat_text cls k lo hi s = true
    <-> exists pre post,
          s = (pre ++ post)%list
          /\ forallb cls pre = true
          /\ (lo <= length pre)%nat
          /\ (forall h, hi = Some h -> (length pre <= h)%nat)
          /\ k post = true.
Proof.
  induction s as [| c rest IH]; intros lo hi.
  - cbn [re_repeat_text]. rewrite andb_true_iff, Nat.eqb_eq. split.
    + intros [-> Hk]. exists [], [].
      repeat split; [lia | intros h _; cbn; lia | exact Hk].
    + intros (pre & post & Hs & _ & Hlo & _ & Hk).
      symmetry in Hs. apply app_eq_nil in Hs. destruct Hs as [-> ->].
      cbn in Hlo. split; [lia | exact Hk].
  - cbn [re_repeat_text]. rewrite orb_true_iff, !andb_true_iff, Nat.eqb_eq, IH.
    rewrite negb_true_iff. split.
    + intros [[-> Hk] | [[Hc Hhi] (pre & post & -> & Hall & Hlo & Hmax & Hk)]].
      * exists [], (c :: rest).
        repeat split; [lia | intros h _; cbn; lia | exact Hk].
      * exists (c :: pre), post.
        split; [reflexivity |]. split; [cbn; rewrite Hc; exact Hall |].
        split; [cbn; lia |]. split; [| exact Hk].
        intros h ->. apply bool_decide_eq_false_1 in Hhi.
        specialize (Hmax (Nat.pred h) eq_refl). cbn.
        destruct h as [| h]; [congruence | cbn in Hmax; lia].
    + intros (pre & post & Hs & Hall & Hlo & Hmax & Hk).
      destruct pre as [| c' pre].
      * left. cbn in Hs. subst post.
        cbn in Hlo. split; [lia | exact Hk].
      * right. cbn in Hs. inversion Hs; subst c' rest. cbn in Hall, Hlo.
        apply andb_prop in Hall. destruct Hall as [Hc Hall].
        split; [split; [exact Hc |] |].
        -- apply bool_decide_eq_false_2. intros ->.
           specialize (Hmax 0%nat eq_refl). cbn in Hmax. lia.
        -- exists pre, post. split; [reflexivity |]. split; [exact Hall |].
           split; [lia |]. split; [| exact Hk].
           intros h Hh. destruct hi as [h0 |]; [| discriminate Hh].
           cbn in Hh. inversion Hh; subst h.
           specialize (Hmax h0 eq_refl). cbn in Hmax. lia.
Qed.

Lemma re_dollar_text_spec (s : list Z) :
  re_dollar_text s = true <-> s = [] \/ s = [10].
Proof.
  unfold re_dollar_text.
  destruct s as [| c [| c' rest]].
  - split; [left; reflexivity | reflexivity].
  - rewrite Z.eqb_eq. split.
    + intros ->. right. reflexivity.
    + intros [H | H]; [discriminate H | inversion H; reflexivity].
  - split; [discriminate | intros [H | H]; discriminate H].
Qed.

Lemma forallb_one (c : Z) (s : list Z) :
  forallb (Z.eqb c) s = true -> length s = 1%nat -> s = [c].
Proof.
  destruct s as [| c' [| c'' rest]]; cbn; intros Hall Hlen;
    try discriminate Hlen.
  rewrite andb_true_r in Hall. apply Z.eqb_eq in Hall. subst c'.
  reflexivity.
Qed.

Lemma phone_pattern_spec (isdecimal : Z -> bool) (s : list Z) :
  re_match_text (validation_utils.phone_pattern isdecimal) s = true
  <-> exists d,
        length d = 8%nat /\ forallb isdecimal d = true
        /\ (s = (codepoints "05" ++ d)%list
            \/ s = (codepoints "05" ++ d ++ [10])%list).
Proof.
  unfold validation_utils.phone_pattern.
  cbn [re_match_text re_times_text unit_class unit_min unit_max]. split.
  - intros H.
    apply re_repeat_text_spec in H as (p1 & r1 & -> & Ha1 & Hlo1 & Hhi1 & H).
    apply re_repeat_text_spec in H as (p2 & r2 & -> & Ha2 & Hlo2 & Hhi2 & H).
    apply re_repeat_text_spec in H as (d & tail & -> & Had & Hlod & Hhid & H).
    apply re_dollar_text_spec in H.
    specialize (Hhi1 _ eq_refl). specialize (Hhi2 _ eq_refl).
    specialize (Hhid _ eq_refl).
    apply forallb_one in Ha1; [| lia]. apply forallb_one in Ha2; [| lia].
    subst p1 p2. exists d. split; [lia |]. split; [exact Had |].
    destruct H as [-> | ->];
      [left; rewrite app_nil_r; reflexivity | right; reflexivity].
  - intros (d & Hlen & Had & Hs).
    assert (exists tail, s = ([ord "0"] ++ [ord "5"] ++ d ++ tail)%list
                         /\ (tail = [] \/ tail = [10])) as (tail & -> & Htail).
    { destruct Hs as [-> | ->];
        [exists []; rewrite app_nil_r | exists [10]]; auto. }
    apply re_repeat_text_spec. exists [ord "0"], ([ord "5"] ++ d ++ tail)%list.
    split; [reflexivity |]. split; [reflexivity |]. split; [cbn; lia |].
    split; [intros h [= <-]; cbn; lia |].
    apply re_repeat_text_spec. exists [ord "5"], (d ++ tail)%list.
    split; [reflexivity |]. split; [reflexivity |]. split; [cbn; lia |].
    split; [intros h [= <-]; cbn; lia |].
    apply re_repeat_text_spec. exists d, tail.
    split; [reflexivity |]. split; [exact Had |]. split; [lia |].
    split; [intros h [= <-]; lia |].
    apply re_dollar_text_spec. exact Htail.
Qed.

(** X26.  [validate_phone_number] lets the absent number through, and a
    number that is given exactly when it is [05] followed by eight
    characters that the interpreter classes as decimal digits, or that
    followed by one line feed: the [$] of the pattern also matches before a
    line feed that ends the text, and the [\d] of a [str] pattern is not
    limited to [0] to [9], so eight digits of any script pass.  Anything else
    is refused with the 400 error.  ([isdecimal] is the interpreter's table
    of decimal digits; the statement holds whatever it contains.) *)
Theorem validate_phone_number_accepts (isdecimal : Z -> bool) (s : list Z) :
  validation_utils.validate_phone_number isdecimal None = Ok tt
  /\ (validation_utils.validate_phone_number isdecimal (Some s) = Ok tt
      <-> exists d,
            length d = 8%nat /\ forallb isdecimal d = true
            /\ (s = (codepoints "05" ++ d)%list
                \/ s = (codepoints "05" ++ d ++ [10])%list))
  /\ (validation_utils.validate_phone_number isdecimal (Some s) = Ok tt
      \/ validation_utils.validate_phone_number isdecimal (Some s)
         = Raise (HTTPException 400 "Phone number must be in format 05xxxxxxxx")).
Proof.
  split; [reflexivity |].
  rewrite <- phone_pattern_spec.
  unfold validation_utils.validate_phone_number.
  destruct (re_match_text (validation_utils.phone_pattern isdecimal) s);
    cbn [negb]; split.
  - split; reflexivity.
  - left. reflexivity.
  - split; discriminate.
  - right. reflexivity.
Qed.

Lemma email_pattern_spec (s : string) :
  re_match validation_utils.email_pattern s = true
  <-> exists local domain tld,
        str_all email_local_char local = true
        /\ (1 <= String.length local)%nat
        /\ str_all email_domain_char domain = true
        /\ (1 <= String.length domain)%nat
        /\ str_all re_alpha tld = true
        /\ (2 <= String.length tld)%nat
        /\ (s = local +:+ "@" +:+ domain +:+ "." +:+ tld
            \/ s = local +:+ "@" +:+ domain +:+ "." +:+ tld +:+ newline).
Proof.
  unfold validation_utils.email_pattern.
  cbn [re_match re_times re_plus re_at_least re_class re_min re_max]. split.
  - intros H.
    apply re_repeat_spec in H as (local & r1 & -> & Hal & Hlol & _ & H).
    apply re_repeat_spec in H as (at_ & r2 & -> & Haa & Hloa & Hhia & H).
    apply re_repeat_spec in H as (domain & r3 & -> & Had & Hlod & _ & H).
    apply re_repeat_spec in H as (dot & r4 & -> & Hadot & Hlodot & Hhidot & H).
    apply re_repeat_spec in H as (tld & tail & -> & Hat & Hlot & _ & H).
    apply re_dollar_spec in H.
    specialize (Hhia _ eq_refl). specialize (Hhidot _ eq_refl).
    apply str_all_one in Haa; [| lia]. apply str_all_one in Hadot; [| lia].
    subst at_ dot. exists local, domain, tld.
    repeat (split; [assumption |]).
    destruct H as [-> | ->];
      [left; rewrite append_nil_r; reflexivity | right; reflexivity].
  - intros (local & domain & tld & Hal & Hlol & Had & Hlod & Hat & Hlot & Hs).
    assert (exists tail, s = local +:+ "@" +:+ domain +:+ "." +:+ tld +:+ tail
                         /\ (tail = "" \/ tail = newline)) as (tail & -> & Htail).
    { destruct Hs as [-> | ->];
        [exists ""; rewrite append_nil_r | exists newline]; auto. }
    apply re_repeat_spec. exists local, ("@" +:+ domain +:+ "." +:+ tld +:+ tail).
    split; [reflexivity |]. split; [exact Hal |]. split; [exact Hlol |].
    split; [discriminate |].
    apply re_repeat_spec. exists "@", (domain +:+ "." +:+ tld +:+ tail).
    split; [reflexivity |]. split; [reflexivity |]. split; [cbn; lia |].
    split; [intros h [= <-]; cbn; lia |].
    apply re_repeat_spec. exists domain, ("." +:+ tld +:+ tail).
    split; [reflexivity |]. split; [exact Had |]. split; [exact Hlod |].
    split; [discriminate |].
    apply re_repeat_spec. exists ".", (tld +:+ tail).
    split; [reflexivity |]. split; [reflexivity |]. split; [cbn; lia |].
    split; [intros h [= <-]; cbn; lia |].
    apply re_repeat_spec. exists tld, tail.
    split; [reflexivity |]. split; [exact Hat |]. split; [exact Hlot |].
    split; [discriminate |].
    apply re_dollar_spec. exact Htail.
Qed.

(** X27.  [validate_email_format] lets the absent address through, and an
    address that is given exactly when it reads [local@domain.tld]: a local
    part of one or more letters, digits and [._%+-], a domain of one or more
    letters, digits, dots and hyphens, a last label of two or more letters;
    one newline may follow.  Anything else is refused with the 400 error. *)
Theorem validate_email_format_accepts (s : string) :
  validation_utils.validate_email_format None = Ok tt
  /\ (validation_utils.validate_email_format (Some s) = Ok tt
      <-> exists local domain tld,
            str_all email_local_char local = true
            /\ (1 <= String.length local)%nat
            /\ str_all email_domain_char domain = true
            /\ (1 <= String.length domain)%nat
            /\ str_all re_alpha tld = true
            /\ (2 <= String.length tld)%nat
            /\ (s = local +:+ "@" +:+ domain +:+ "." +:+ tld
                \/ s = local +:+ "@" +:+ domain +:+ "." +:+ tld +:+ newline))
  /\ (validation_utils.validate_email_format (Some s) = Ok tt
      \/ validation_utils.validate_email_format (Some s)
         = Raise (HTTPException 400 "Invalid email format")).
Proof.
  split; [reflexivity |].
  rewrite <- email_pattern_spec. unfold validation_utils.validate_email_format.
  destruct (re_match validation_utils.email_pattern s); cbn [negb]; split.
  - split; reflexivity.
  - left. reflexivity.
  - split; discriminate.
  - right. reflexivity.
Qed.

(** ** Required fields *)

Lemma str_rstrip_kept (c : ascii) (rest : string) :
  isspace c = false -> str_truthy (str_rstrip (String c rest)) = true.
Proof.
  intros Hc. cbn [str_rstrip]. rewrite Hc.
  destruct (str_rstrip rest); reflexivity.
Qed.

Lemma str_strip_truthy (s : string) :
  str_truthy (str_strip s) = negb (str_all isspace s).
Proof.
  unfold str_strip. induction s as [| c rest IH]; [reflexivity |].
  cbn [str_lstrip str_all]. destruct (isspace c) eqn:Hc.
  - exact IH.
  - apply str_rstrip_kept, Hc.
Qed.

(** X28.  [validate_required_field] refuses [None] and a string that is
    empty or holds white space only; it accepts every other string and every
    value that is not a string, zero and the empty list among them. *)
Theorem validate_required_field_outcomes (A : Type) (field_name : string) :
  validation_utils.validate_required_field (@None (string + A)) field_name
  = Raise (HTTPException 400 (field_name +:+ " is required"))
  /\ (forall a : A,
        validation_utils.validate_required_field (Some (inr a)) field_name
        = Ok tt)
  /\ (forall s : string,
        validation_utils.validate_required_field (A := A) (Some (inl s))
          field_name
        = if str_all isspace s
          then Raise (HTTPException 400 (field_name +:+ " is required"))
          else Ok tt).
Proof.
  split; [reflexivity |]. split; [reflexivity |]. intros s.
  unfold validation_utils.validate_required_field.
  rewrite str_strip_truthy, negb_involutive. reflexivity.
Qed.

(** ** Days between two datetimes *)

(** X29.  [days_between] counts the midnights of the wall clock between its
    arguments, not elapsed periods of 24 hours: the result is within one day
    of the wall-clock time elapsed, on either side, so two minutes across
    midnight count as a day and nearly two days can count as one.  The
    counts of adjacent spans add up. *)
Theorem days_between_counts_midnights (a b c : datetime) :
  (datetime_utils.days_between a b - 1) * MICROSECONDS_PER_DAY
  < wall b - wall a
  < (datetime_utils.days_between a b + 1) * MICROSECONDS_PER_DAY
  /\ datetime_utils.days_between a c
     = datetime_utils.days_between a b + datetime_utils.days_between b c.
Proof.
  unfold datetime_utils.days_between, datetime_date, MICROSECONDS_PER_DAY.
  pose proof (Z.div_mod (wall a) 86400000000 ltac:(lia)) as Ha.
  pose proof (Z.div_mod (wall b) 86400000000 ltac:(lia)) as Hb.
  pose proof (Z.mod_pos_bound (wall a) 86400000000 ltac:(lia)) as Ha'.
  pose proof (Z.mod_pos_bound (wall b) 86400000000 ltac:(lia)) as Hb'.
  split; [lia | lia].
Qed.
